(** * Windows AI Agent: the tool runtime, the response extractor and the
      turn loop, embedded from the Python sources.

    - [core/types.py]          data model (enums, requests, results)
    - [tools/server.py]        [ToolServer]: registration, validation,
                               confirmation gate, dispatch, history
    - [llm/client.py]          [OllamaClient._parse_tool_call]
    - [orchestrator/agent.py]  [AgentOrchestrator.process]

    Conventions of the embedding.
    - A Python [str] is the list of its code points ([list N]); [U "..."]
      turns an ASCII literal into such a list.
    - Python values that cross the trust boundary (JSON data, handler
      arguments and payloads) are [PyValue]s.
    - Code that can raise returns an [outcome]; [Raise] carries the
      exception that leaves the function.
    - The server object is a record that is passed in and returned. Its
      worker pool ([self._executor]) is the pair [pool_running],
      [pool_queue]. Three fields are instrumentation and do not exist in
      the source: [submitted] logs every call handed to the pool,
      [invocations] logs every call of a tool handler that a worker has
      begun, [clock_ms] is the logical reading of [time.time()] in
      milliseconds.
    - Time passes only while [future.result] waits: the calls of the
      model gateway and of the approval handler are taken as instant.
    - The interpreter's limits that the input can reach are part of the
      model: the 4300 digits of an [int] read from text, and the
      recursion limit met by nested JSON (see [json_loads]). *)

From Stdlib Require Import ZArith NArith List String Ascii Bool Lia
  DecimalString.
From stdpp Require Import base option list gmap.

Import ListNotations.
Local Open Scope Z_scope.
Set Warnings "-register-all".

(* ===================================================================== *)
(** ** Python strings                                                     *)
(* ===================================================================== *)

Abbreviation pystr := (list N).

Definition U (s : string) : pystr :=
  List.map N_of_ascii (list_ascii_of_string s).

(** [a < b], [a == b], [a > b] on [str]: lexicographic on code points. *)
Fixpoint str_compare (a b : pystr) : comparison :=
  match a, b with
  | [], [] => Eq
  | [], _ :: _ => Lt
  | _ :: _, [] => Gt
  | x :: a', y :: b' =>
      match N.compare x y with
      | Eq => str_compare a' b'
      | c => c
      end
  end.

Definition str_gt (a b : pystr) : bool :=
  match str_compare a b with Gt => true | _ => false end.

Definition str_eqb (a b : pystr) : bool :=
  match str_compare a b with Eq => true | _ => false end.

Fixpoint str_startswith (prefix s : pystr) : bool :=
  match prefix, s with
  | [], _ => true
  | _ :: _, [] => false
  | p :: prefix', c :: s' => N.eqb p c && str_startswith prefix' s'
  end.

(** [needle in haystack] on two strings. *)
Fixpoint str_contains (needle haystack : pystr) : bool :=
  str_startswith needle haystack
  || match haystack with
     | [] => false
     | _ :: h' => str_contains needle h'
     end.

(* ===================================================================== *)
(** ** Python values and exceptions                                       *)
(* ===================================================================== *)

(** The JSON-shaped part of Python's value universe. A [float] keeps the
    text it was read from: no arithmetic is ever done on it here. A [dict]
    keeps insertion order and has unique keys (see [dict_set]). *)
Inductive PyValue :=
| PyNone
| PyBool (b : bool)
| PyInt (z : Z)
| PyFloat (lexeme : pystr)
| PyStr (s : pystr)
| PyList (items : list PyValue)
| PyDict (members : list (pystr * PyValue)).

Abbreviation pydict := (list (pystr * PyValue)).

Fixpoint dict_get (k : pystr) (d : pydict) : option PyValue :=
  match d with
  | [] => None
  | (k', v) :: d' => if str_eqb k k' then Some v else dict_get k d'
  end.

Definition dict_mem (k : pystr) (d : pydict) : bool :=
  match dict_get k d with Some _ => true | None => false end.

(** [d[k] = v]: an existing key keeps its position. *)
Fixpoint dict_set (k : pystr) (v : PyValue) (d : pydict) : pydict :=
  match d with
  | [] => [(k, v)]
  | (k', v') :: d' =>
      if str_eqb k k' then (k, v) :: d' else (k', v') :: dict_set k v d'
  end.

(** [d.get(k, default)] *)
Definition dict_get_default (k : pystr) (default : PyValue) (d : pydict)
  : PyValue :=
  match dict_get k d with Some v => v | None => default end.

(** Where the interpreter noticed that the recursion limit was reached;
    the site is named in the message of the [RecursionError]. *)
Inductive RecursionSite :=
| DecodingObject    (* "... while decoding a JSON object from a unicode string" *)
| DecodingArray     (* "... while decoding a JSON array from a unicode string" *)
| CallingObject     (* "... while calling a Python object" *)
| InFrame.          (* no site: the limit was met entering a Python frame *)

Inductive PyExn :=
| TypeError_unhashable        (* unhashable type: 'list' / 'dict' *)
| TypeError_not_iterable      (* argument of type 'int' is not iterable *)
| TypeError_bad_index         (* list / string indices must be integers *)
| KeyError                    (* a missing dict key *)
| AttributeError              (* no such method on the object *)
| GatewayError (msg : pystr)  (* whatever [LLMManager.chat] raised *)
| JSONDecodeError             (* [json.JSONDecodeError], a [ValueError] *)
| ValueError_int_digits (digits : nat)
                              (* [int] of a text of more than 4300 digits *)
| RecursionError (site : RecursionSite)
| HandlerBaseException (text : pystr).
                              (* raised by a handler, outside [Exception] *)

Inductive outcome (A : Type) :=
| Ret (a : A)
| Raise (e : PyExn).
Arguments Ret {A} a.
Arguments Raise {A} e.

Definition bind {A B} (m : outcome A) (f : A -> outcome B) : outcome B :=
  match m with
  | Ret a => f a
  | Raise e => Raise e
  end.

Notation "'let*' x ':=' m 'in' k" := (bind m (fun x => k))
  (at level 10, x name, m at level 100, k at level 200).

(** [name in container] for a string [name]. *)
Definition py_contains (container : PyValue) (name : pystr) : outcome bool :=
  match container with
  | PyDict d => Ret (dict_mem name d)
  | PyList l =>
      Ret (existsb (fun v => match v with
                             | PyStr s => str_eqb name s
                             | _ => false
                             end) l)
  | PyStr s => Ret (str_contains name s)
  | _ => Raise TypeError_not_iterable
  end.

(** [container[name]] for a string [name], reached only after
    [name in container] held. *)
Definition py_getitem (container : PyValue) (name : pystr) : outcome PyValue :=
  match container with
  | PyDict d => match dict_get name d with
                | Some v => Ret v
                | None => Raise KeyError
                end
  | _ => Raise TypeError_bad_index
  end.

(* ===================================================================== *)
(** ** core/types.py                                                      *)
(* ===================================================================== *)

Inductive ToolCategory :=
| FILE_SYSTEM | APPLICATION | INPUT | UI_AUTOMATION | SYSTEM_CATEGORY
| CLIPBOARD | NOTIFICATION | DATA_EXTRACTION | SCHEDULING | SECURITY.

Inductive RiskLevel := LOW | MEDIUM | HIGH | CRITICAL.

Inductive PermissionTier := OBSERVER | OPERATOR | ADMINISTRATOR | SYSTEM.

(** [PermissionTier.X.value]: the members are declared with string values. *)
Definition tier_value (t : PermissionTier) : pystr :=
  match t with
  | OBSERVER => U "observer"
  | OPERATOR => U "operator"
  | ADMINISTRATOR => U "administrator"
  | SYSTEM => U "system"
  end.

Inductive ExecutionStatus :=
| PENDING | RUNNING | SUCCESS | FAILED | CANCELLED | TIMEOUT
| PERMISSION_DENIED | CONFIRMATION_REQUIRED.

Record ToolParameter := {
  param_name : pystr;
  param_type : pystr;
  param_description : pystr;
  param_required : bool;
  param_default : PyValue          (* [PyNone] is Python's [None] *)
}.

Record ToolSchema := {
  name : pystr;
  description : pystr;
  category : ToolCategory;
  risk_level : RiskLevel;
  parameters : list ToolParameter;
  requires_confirmation : bool;
  permission_tier : PermissionTier
}.

(** [tool] and [arguments] are annotated [str] and [Dict] in the source,
    but the extractor stores whatever the JSON held, so both are values. *)
Record ToolRequest := {
  request_id : pystr;
  tool : PyValue;
  arguments : PyValue;
  confirmed : bool
}.

Definition set_confirmed (r : ToolRequest) : ToolRequest :=
  {| request_id := request_id r; tool := tool r;
     arguments := arguments r; confirmed := true |}.

Record SideEffect := {
  se_type : PyValue;
  se_path : PyValue;
  se_data : PyValue;
  se_reversible : PyValue;
  se_rollback_action : PyValue
}.

(** The texts of [ToolResult.error], kept structured: each constructor is
    one f-string of the source together with the values it interpolates. *)
Inductive ErrorInfo :=
| ErrUnknownTool (t : PyValue)             (* "Unknown tool: {t}" *)
| ErrToolDisabled (t : PyValue)            (* "Tool is disabled: {t}" *)
| ErrInsufficientPermissions (t : PyValue) (* "Insufficient permissions for tool: {t}" *)
| ErrMissingParameter (p : pystr)          (* "Missing required parameter: {p}" *)
| ErrInvalidType (p ty : pystr)            (* "Invalid type for {p}: expected {ty}" *)
| ErrHandler (v : PyValue)                 (* result["error"] *)
| ErrTimedOut (seconds : Z)                (* "Tool execution timed out after {seconds}s" *)
| ErrException (text : pystr)              (* str(e), raised by the handler *)
| ErrTypeError                             (* str(e), raised by [SideEffect( **se )] *)
| ErrUserCancelled.                        (* "User cancelled the operation" *)

Record ToolResult := {
  res_request_id : pystr;
  status : ExecutionStatus;
  result : PyValue;
  error : option ErrorInfo;
  execution_time_ms : Z;
  side_effects : list SideEffect;
  warnings : PyValue
}.

(* ===================================================================== *)
(** ** tools/server.py: handlers and the server object                    *)
(* ===================================================================== *)

(** Handlers are collaborators of the runtime; a call of one is
    described by what its worker observes: after some time it returns a
    value or raises, or it never finishes. What it raises is one of
    three kinds, by the [except] clause of [execute] that it meets. *)
Inductive ExnKind :=
| FutureTimeout      (* [TimeoutError]: caught as [FutureTimeoutError] *)
| OtherException     (* any other subclass of [Exception] *)
| BaseExceptionOnly. (* [SystemExit], [KeyboardInterrupt], [GeneratorExit]:
                        no [except] clause of [execute] catches these *)

Inductive HandlerOutcome :=
| HReturn (v : PyValue)
| HRaise (k : ExnKind) (text : pystr).

Inductive HandlerRun :=
| Completes (after_ms : Z) (o : HandlerOutcome)
| Blocks.

Definition ToolHandler := PyValue -> HandlerRun.

Record RegisteredTool := {
  schema : ToolSchema;
  handler : ToolHandler;
  enabled : bool
}.

(** A call waiting in, or taken from, the queue of the pool: the
    request it was submitted for and what the handler does with the
    arguments of that request. *)
Record WorkItem := {
  work_request : ToolRequest;
  work_run : HandlerRun
}.

(** [self._executor] is a [ThreadPoolExecutor(max_workers)]: a queue of
    submitted calls, first in first out, and at most [max_workers]
    threads, each running one call to its end. [pool_running] holds, for
    every call that a worker has begun, the time at which it ends
    ([None]: never); a timeout of [future.result] does not stop the
    call. [shutdown] is outside the embedded fragment. *)
Record ToolServer := {
  _tools : gmap (list N) RegisteredTool;
  _permission_tier : PermissionTier;
  _timeout : Z;                                   (* seconds *)
  _max_workers : nat;
  _confirmation_callback : option (ToolRequest -> bool);
  _execution_history : list ToolResult;
  pool_running : list (option Z);
  pool_queue : list WorkItem;
  submitted : list ToolRequest;                   (* instrumentation *)
  invocations : list ToolRequest;                 (* instrumentation *)
  clock_ms : Z                                    (* instrumentation *)
}.

(** [ToolServer(permission_tier, timeout)], with the default
    [max_workers=4]. *)
Definition new_server (tier : PermissionTier) (timeout : Z) : ToolServer :=
  {| _tools := ∅; _permission_tier := tier; _timeout := timeout;
     _max_workers := 4;
     _confirmation_callback := None; _execution_history := [];
     pool_running := []; pool_queue := [];
     submitted := []; invocations := []; clock_ms := 0 |}.

Definition with_tools (f : gmap (list N) RegisteredTool -> gmap (list N) RegisteredTool)
  (s : ToolServer) : ToolServer :=
  {| _tools := f (_tools s); _permission_tier := _permission_tier s;
     _timeout := _timeout s; _max_workers := _max_workers s;
     _confirmation_callback := _confirmation_callback s;
     _execution_history := _execution_history s;
     pool_running := pool_running s; pool_queue := pool_queue s;
     submitted := submitted s;
     invocations := invocations s; clock_ms := clock_ms s |}.

(** [register_tool]: a plain item assignment on the dict. *)
Definition register_tool (sc : ToolSchema) (h : ToolHandler) (s : ToolServer)
  : ToolServer :=
  with_tools
    (fun m => <[name sc := {| schema := sc; handler := h; enabled := true |}]> m)
    s.

Definition register_tools (tools : list (ToolSchema * ToolHandler))
  (s : ToolServer) : ToolServer :=
  fold_left (fun acc t => register_tool (fst t) (snd t) acc) tools s.

Definition set_enabled (b : bool) (t : RegisteredTool) : RegisteredTool :=
  {| schema := schema t; handler := handler t; enabled := b |}.

Definition enable_tool (n : pystr) (s : ToolServer) : ToolServer :=
  with_tools (alter (set_enabled true) n) s.

Definition disable_tool (n : pystr) (s : ToolServer) : ToolServer :=
  with_tools (alter (set_enabled false) n) s.

Definition set_permission_tier (t : PermissionTier) (s : ToolServer)
  : ToolServer :=
  {| _tools := _tools s; _permission_tier := t; _timeout := _timeout s;
     _max_workers := _max_workers s;
     _confirmation_callback := _confirmation_callback s;
     _execution_history := _execution_history s;
     pool_running := pool_running s; pool_queue := pool_queue s;
     submitted := submitted s;
     invocations := invocations s; clock_ms := clock_ms s |}.

Definition set_confirmation_callback (cb : ToolRequest -> bool)
  (s : ToolServer) : ToolServer :=
  {| _tools := _tools s; _permission_tier := _permission_tier s;
     _timeout := _timeout s; _max_workers := _max_workers s;
     _confirmation_callback := Some cb;
     _execution_history := _execution_history s;
     pool_running := pool_running s; pool_queue := pool_queue s;
     submitted := submitted s;
     invocations := invocations s; clock_ms := clock_ms s |}.

(** [get_tool_schema] *)
Definition get_tool_schema (n : pystr) (s : ToolServer) : option ToolSchema :=
  schema <$> (_tools s !! n).

(** [request.tool in self._tools]: hashing a list or a dict raises; the
    keys are the registered names, all strings. *)
Definition tools_lookup (s : ToolServer) (t : PyValue)
  : outcome (option RegisteredTool) :=
  match t with
  | PyList _ | PyDict _ => Raise TypeError_unhashable
  | PyStr n => Ret (_tools s !! n)
  | _ => Ret None
  end.

(** [_validate_type]; [bool] is a subclass of [int]. *)
Definition _validate_type (value : PyValue) (expected_type : pystr) : bool :=
  if str_eqb expected_type (U "string") then
    match value with PyStr _ => true | _ => false end
  else if str_eqb expected_type (U "integer") then
    match value with PyInt _ | PyBool _ => true | _ => false end
  else if str_eqb expected_type (U "number") then
    match value with PyInt _ | PyBool _ | PyFloat _ => true | _ => false end
  else if str_eqb expected_type (U "boolean") then
    match value with PyBool _ => true | _ => false end
  else if str_eqb expected_type (U "array") then
    match value with PyList _ => true | _ => false end
  else if str_eqb expected_type (U "object") then
    match value with PyDict _ => true | _ => false end
  else true.

Definition is_None (v : PyValue) : bool :=
  match v with PyNone => true | _ => false end.

(** First loop of [validate_request]: required parameters. *)
Fixpoint check_required (params : list ToolParameter) (args : PyValue)
  : outcome (option ErrorInfo) :=
  match params with
  | [] => Ret None
  | p :: ps =>
      if param_required p then
        let* present := py_contains args (param_name p) in
        if negb present && is_None (param_default p)
        then Ret (Some (ErrMissingParameter (param_name p)))
        else check_required ps args
      else check_required ps args
  end.

(** Second loop of [validate_request]: types of the supplied arguments. *)
Fixpoint check_types (params : list ToolParameter) (args : PyValue)
  : outcome (option ErrorInfo) :=
  match params with
  | [] => Ret None
  | p :: ps =>
      let* present := py_contains args (param_name p) in
      if present then
        let* value := py_getitem args (param_name p) in
        if negb (_validate_type value (param_type p))
        then Ret (Some (ErrInvalidType (param_name p) (param_type p)))
        else check_types ps args
      else check_types ps args
  end.

(** [validate_request]: [None] is the source's [(True, None)], [Some e]
    its [(False, message)]. *)
Definition validate_request (s : ToolServer) (request : ToolRequest)
  : outcome (option ErrorInfo) :=
  let* found := tools_lookup s (tool request) in
  match found with
  | None => Ret (Some (ErrUnknownTool (tool request)))
  | Some t =>
      if negb (enabled t) then Ret (Some (ErrToolDisabled (tool request)))
      else if str_gt (tier_value (permission_tier (schema t)))
                     (tier_value (_permission_tier s))
      then Ret (Some (ErrInsufficientPermissions (tool request)))
      else
        let* missing := check_required (parameters (schema t)) (arguments request) in
        match missing with
        | Some e => Ret (Some e)
        | None => check_types (parameters (schema t)) (arguments request)
        end
  end.

(** *** Classification of what the handler returned *)

(** [for se in v]: the items a [for] loop sees, [None] when [v] is not
    iterable. *)
Definition iter_items (v : PyValue) : option (list PyValue) :=
  match v with
  | PyList l => Some l
  | PyDict d => Some (List.map (fun kv => PyStr (fst kv)) d)
  | PyStr s => Some (List.map (fun c => PyStr [c]) s)
  | _ => None
  end.

Definition side_effect_fields : list pystr :=
  [U "type"; U "path"; U "data"; U "reversible"; U "rollback_action"].

(** [SideEffect( **se )]: [se] must be a mapping whose keys are field names,
    [type] among them; anything else is a [TypeError]. *)
Definition make_side_effect (se : PyValue) : option SideEffect :=
  match se with
  | PyDict d =>
      if forallb (fun kv => existsb (str_eqb (fst kv)) side_effect_fields) d
      then match dict_get (U "type") d with
           | Some ty =>
               Some {| se_type := ty;
                       se_path := dict_get_default (U "path") PyNone d;
                       se_data := dict_get_default (U "data") PyNone d;
                       se_reversible :=
                         dict_get_default (U "reversible") (PyBool true) d;
                       se_rollback_action :=
                         dict_get_default (U "rollback_action") PyNone d |}
           | None => None
           end
      else None
  | _ => None
  end.

Fixpoint make_side_effects (l : list PyValue) : option (list SideEffect) :=
  match l with
  | [] => Some []
  | se :: l' =>
      match make_side_effect se with
      | Some e => match make_side_effects l' with
                  | Some es => Some (e :: es)
                  | None => None
                  end
      | None => None
      end
  end.

(** The body of the [try] after [future.result] returned [v]; [None] when
    building the side effects raised. *)
Definition classify (request : ToolRequest) (v : PyValue) (elapsed : Z)
  : option ToolResult :=
  match v with
  | PyDict d =>
      match dict_get (U "error") d with
      | Some e =>
          Some {| res_request_id := request_id request; status := FAILED;
                  result := PyNone; error := Some (ErrHandler e);
                  execution_time_ms := elapsed;
                  side_effects := []; warnings := PyList [] |}
      | None =>
          let built :=
            match dict_get (U "side_effects") d with
            | Some ses => match iter_items ses with
                          | Some l => make_side_effects l
                          | None => None
                          end
            | None => Some []
            end in
          match built with
          | Some ses =>
              Some {| res_request_id := request_id request; status := SUCCESS;
                      result := dict_get_default (U "result") v d;
                      error := None;
                      execution_time_ms := elapsed;
                      side_effects := ses;
                      warnings :=
                        dict_get_default (U "warnings") (PyList []) d |}
          | None => None
          end
      end
  | _ =>
      Some {| res_request_id := request_id request; status := SUCCESS;
              result := v; error := None; execution_time_ms := elapsed;
              side_effects := []; warnings := PyList [] |}
  end.

(** *** [execute] *)

Definition failed_result (request : ToolRequest) (e : ErrorInfo) (elapsed : Z)
  : ToolResult :=
  {| res_request_id := request_id request; status := FAILED;
     result := PyNone; error := Some e; execution_time_ms := elapsed;
     side_effects := []; warnings := PyList [] |}.

Definition timeout_result (request : ToolRequest) (timeout : Z) : ToolResult :=
  {| res_request_id := request_id request; status := TIMEOUT;
     result := PyNone; error := Some (ErrTimedOut timeout);
     execution_time_ms := timeout * 1000;
     side_effects := []; warnings := PyList [] |}.

(** [str(request.tool)] where the tool is known to be registered. *)
Definition tool_text (t : PyValue) : pystr :=
  match t with PyStr n => n | _ => [] end.

Definition confirmation_result (request : ToolRequest) (elapsed : Z)
  : ToolResult :=
  {| res_request_id := request_id request; status := CONFIRMATION_REQUIRED;
     result :=
       PyDict [(U "message",
                PyStr (U "Action '" ++ tool_text (tool request)
                       ++ U "' requires confirmation"))];
     error := None; execution_time_ms := elapsed;
     side_effects := []; warnings := PyList [] |}.

(** *** The worker pool *)

(** A call that ends at [finish] still holds its worker before then. *)
Definition busy_at (now : Z) (finish : option Z) : bool :=
  match finish with
  | Some t => now <? t
  | None => true
  end.

Definition finish_time (start : Z) (run : HandlerRun) : option Z :=
  match run with
  | Completes d _ => Some (start + d)
  | Blocks => None
  end.

(** The first moment at which one of the running calls ends. *)
Fixpoint earliest (running : list (option Z)) : option Z :=
  match running with
  | [] => None
  | None :: running' => earliest running'
  | Some t :: running' =>
      match earliest running' with
      | Some t' => Some (Z.min t t')
      | None => Some t
      end
  end.

(** The pool between [now] and [limit]: the call at the head of the
    queue begins as soon as fewer than [cap] calls are running, at [now]
    or at the moment a running call ends. The result is the running
    calls, the calls still queued, and the calls begun with the time at
    which each began, in that order. *)
Fixpoint run_pool (cap : nat) (limit now : Z) (running : list (option Z))
  (queue : list WorkItem)
  : list (option Z) * list WorkItem * list (Z * WorkItem) :=
  match queue with
  | [] => (running, [], [])
  | item :: queue' =>
      let busy := List.filter (busy_at now) running in
      let begin (t : Z) (others : list (option Z)) :=
        let '(running', waiting, begun) :=
          run_pool cap limit t (finish_time t (work_run item) :: others)
            queue' in
        (running', waiting, (t, item) :: begun) in
      if (length busy <? cap)%nat then begin now busy
      else
        match earliest busy with
        | Some t =>
            if (t <=? limit)
               && (length (List.filter (busy_at t) busy) <? cap)%nat
            then begin t (List.filter (busy_at t) busy)
            else (running, queue, [])
        | None => (running, queue, [])
        end
  end.

(** [self._executor.submit(tool.handler, request.arguments)]: the call
    joins the queue of the pool. *)
Definition submit (item : WorkItem) (s : ToolServer) : ToolServer :=
  {| _tools := _tools s; _permission_tier := _permission_tier s;
     _timeout := _timeout s; _max_workers := _max_workers s;
     _confirmation_callback := _confirmation_callback s;
     _execution_history := _execution_history s;
     pool_running := pool_running s;
     pool_queue := pool_queue s ++ [item];
     submitted := submitted s ++ [work_request item];
     invocations := invocations s; clock_ms := clock_ms s |}.

(** The server after the pool has worked and the clock has moved on. *)
Definition with_pool (running : list (option Z)) (queue : list WorkItem)
  (begun : list (Z * WorkItem)) (clock : Z) (s : ToolServer) : ToolServer :=
  {| _tools := _tools s; _permission_tier := _permission_tier s;
     _timeout := _timeout s; _max_workers := _max_workers s;
     _confirmation_callback := _confirmation_callback s;
     _execution_history := _execution_history s;
     pool_running := running; pool_queue := queue;
     submitted := submitted s;
     invocations :=
       invocations s ++ List.map (fun b => work_request (snd b)) begun;
     clock_ms := clock |}.

(** [self._execution_history.append(tool_result)] *)
Definition record (r : ToolResult) (s : ToolServer) : ToolServer :=
  {| _tools := _tools s; _permission_tier := _permission_tier s;
     _timeout := _timeout s; _max_workers := _max_workers s;
     _confirmation_callback := _confirmation_callback s;
     _execution_history := _execution_history s ++ [r];
     pool_running := pool_running s; pool_queue := pool_queue s;
     submitted := submitted s;
     invocations := invocations s; clock_ms := clock_ms s |}.

(** How long [future.result(timeout=self._timeout)] waits at most, in
    milliseconds: a timeout of zero or less does not wait, but a call
    that has ended by then still delivers its result. *)
Definition wait_ms (s : ToolServer) : Z := Z.max 0 (_timeout s * 1000).

Inductive FutureResult :=
| Delivered (o : HandlerOutcome)
| WaitTimedOut.

(** [future.result(timeout=self._timeout)] for the call submitted last:
    the pool works until the call has ended or the wait is over. The
    call is the last of the queue, so when the queue is empty it has
    begun, after all the others. *)
Definition future_result (item : WorkItem) (s : ToolServer)
  : FutureResult * ToolServer :=
  let limit := clock_ms s + wait_ms s in
  let '(running, waiting, begun) :=
    run_pool (_max_workers s) limit (clock_ms s) (pool_running s)
      (pool_queue s) in
  match waiting, last begun, work_run item with
  | [], Some (t, _), Completes d o =>
      if t + d <=? limit
      then (Delivered o, with_pool running waiting begun (t + d) s)
      else (WaitTimedOut, with_pool running waiting begun limit s)
  | _, _, _ => (WaitTimedOut, with_pool running waiting begun limit s)
  end.

(** The [try] block of [execute] for the tool [t], entered at
    [start_time]. *)
Definition dispatch (s : ToolServer) (request : ToolRequest)
  (t : RegisteredTool) (start_time : Z) : outcome (ToolResult * ToolServer) :=
  let item := {| work_request := request;
                 work_run := handler t (arguments request) |} in
  match future_result item (submit item s) with
  | (WaitTimedOut, s2) => Ret (timeout_result request (_timeout s), s2)
  | (Delivered o, s2) =>
      let elapsed := clock_ms s2 - start_time in
      match o with
      | HReturn v =>
          match classify request v elapsed with
          | Some r => Ret (r, record r s2)
          | None => Ret (failed_result request ErrTypeError elapsed, s2)
          end
      | HRaise FutureTimeout _ =>
          Ret (timeout_result request (_timeout s), s2)
      | HRaise OtherException text =>
          Ret (failed_result request (ErrException text) elapsed, s2)
      | HRaise BaseExceptionOnly text => Raise (HandlerBaseException text)
      end
  end.

Definition execute (s : ToolServer) (request : ToolRequest)
  : outcome (ToolResult * ToolServer) :=
  let start_time := clock_ms s in
  let* verdict := validate_request s request in
  match verdict with
  | Some e => Ret (failed_result request e (clock_ms s - start_time), s)
  | None =>
      let* found := tools_lookup s (tool request) in
      match found with
      | None => Raise KeyError
      | Some t =>
          if requires_confirmation (schema t) && negb (confirmed request)
          then Ret (confirmation_result request (clock_ms s - start_time), s)
          else dispatch s request t start_time
      end
  end.

(** [_check_confirmation]; [self._tools.get] hashes its key like the
    membership test does. *)
Definition _check_confirmation (s : ToolServer) (request : ToolRequest)
  : outcome bool :=
  let* found := tools_lookup s (tool request) in
  match found with
  | None => Ret false
  | Some t =>
      if requires_confirmation (schema t) && negb (confirmed request) then
        match _confirmation_callback s with
        | Some callback => Ret (callback request)
        | None => Ret false
        end
      else Ret true
  end.

(** [l[start:]] *)
Definition py_slice_from {A} (start : Z) (l : list A) : list A :=
  let len := Z.of_nat (length l) in
  let i := if start <? 0 then Z.max (len + start) 0 else Z.min start len in
  drop (Z.to_nat i) l.

(** [get_execution_history(limit)]: [self._execution_history[-limit:]] *)
Definition get_execution_history (limit : Z) (s : ToolServer)
  : list ToolResult :=
  py_slice_from (- limit) (_execution_history s).

(** Number of handler calls begun for a request id. *)
Definition handler_calls (rid : pystr) (s : ToolServer) : nat :=
  length (List.filter (fun r => str_eqb (request_id r) rid) (invocations s)).

(* ===================================================================== *)
(** ** The fragment of Python's [re] used by the sources                  *)
(* ===================================================================== *)

(** Every pattern of the sources is a sequence of literal characters,
    repetitions of one character class, and at most one capturing group.
    The matcher is the backtracking one of [re]: alternatives are tried in
    priority order (a greedy repetition takes more first, a lazy one
    less) and the first complete match wins. *)

Inductive charset :=
| CAny                      (* [.] under DOTALL *)
| CSpace                    (* [\s] *)
| CNoneOf (cs : list N)     (* [[^...]] *)
| CChar (c : N).            (* one literal character *)

Inductive re_item :=
| Lit (c : N)
| Rep (greedy : bool) (min : nat) (cs : charset)
| GroupOpen
| GroupClose.

(** Unicode whitespace: what [\s] matches and [str.strip] removes. *)
Definition is_space (c : N) : bool :=
  ((9 <=? c) && (c <=? 13) || (28 <=? c) && (c <=? 32)
   || (c =? 133) || (c =? 160) || (c =? 5760)
   || (8192 <=? c) && (c <=? 8202)
   || (c =? 8232) || (c =? 8233) || (c =? 8239) || (c =? 8287)
   || (c =? 12288))%N.

(** IGNORECASE for an ASCII pattern character: the class of characters
    that [re] identifies with it. *)
Definition casefold (c : N) : N :=
  (if (65 <=? c) && (c <=? 90) then c + 32
   else if (c =? 304) || (c =? 305) then 105   (* dotted I, dotless i *)
   else if c =? 8490 then 107                  (* Kelvin sign *)
   else if c =? 383 then 115                   (* long s *)
   else c)%N.

Definition lit_matches (ignorecase : bool) (p c : N) : bool :=
  if ignorecase then N.eqb (casefold p) (casefold c) else N.eqb p c.

Definition in_charset (ignorecase : bool) (cs : charset) (c : N) : bool :=
  match cs with
  | CAny => true
  | CSpace => is_space c
  | CNoneOf l => negb (existsb (N.eqb c) l)
  | CChar p => lit_matches ignorecase p c
  end.

(** A match in progress remembers the subject as it was at the opening
    and at the closing parenthesis of the group. *)
Record match_result := {
  group1 : pystr;     (* text of group 1 *)
  after : pystr       (* subject left after the whole match *)
}.

Definition finish (g_open g_close rest : pystr) : match_result :=
  {| group1 := take (length g_open - length g_close) g_open;
     after := rest |}.

(** A repetition of one character class: [count] characters are already
    taken, [next] matches what follows the repetition. The greedy form
    tries one more character before it tries to go on, the lazy form the
    other way round. *)
Fixpoint rep_match (next : pystr -> option match_result) (ic greedy : bool)
  (min : nat) (cs : charset) (count : nat) (s : pystr)
  : option match_result :=
  let stop (_ : unit) := if (min <=? count)%nat then next s else None in
  let more (_ : unit) :=
    match s with
    | x :: s' =>
        if in_charset ic cs x
        then rep_match next ic greedy min cs (S count) s'
        else None
    | [] => None
    end in
  if greedy
  then match more tt with Some r => Some r | None => stop tt end
  else match stop tt with Some r => Some r | None => more tt end.

(** [rmatch ic p s g_open g_close]: match the pattern [p] at the start of
    [s]. *)
Fixpoint rmatch (ic : bool) (p : list re_item) (s g_open g_close : pystr)
  {struct p} : option match_result :=
  match p with
  | [] => Some (finish g_open g_close s)
  | Lit c :: p' =>
      match s with
      | x :: s' => if lit_matches ic c x then rmatch ic p' s' g_open g_close
                   else None
      | [] => None
      end
  | GroupOpen :: p' => rmatch ic p' s s g_close
  | GroupClose :: p' => rmatch ic p' s g_open s
  | Rep greedy min cs :: p' =>
      rep_match (fun s' => rmatch ic p' s' g_open g_close)
        ic greedy min cs O s
  end.

Definition match_at (ic : bool) (p : list re_item) (s : pystr)
  : option match_result :=
  rmatch ic p s s s.

(** [re.findall]: group 1 of the non-overlapping matches, left to right.
    [skip] counts the characters of the last match still to be passed. *)
Fixpoint findall_from (ic : bool) (p : list re_item) (skip : nat) (s : pystr)
  : list pystr :=
  match s with
  | [] => []
  | _ :: s' =>
      match skip with
      | S k => findall_from ic p k s'
      | O =>
          match match_at ic p s with
          | Some m =>
              group1 m
              :: findall_from ic p (length s - length (after m) - 1) s'
          | None => findall_from ic p O s'
          end
      end
  end.

Definition findall (ic : bool) (p : list re_item) (s : pystr) : list pystr :=
  findall_from ic p O s.

(** [re.search]: the leftmost match. *)
Fixpoint search (ic : bool) (p : list re_item) (s : pystr)
  : option match_result :=
  match match_at ic p s with
  | Some m => Some m
  | None => match s with
            | [] => None
            | _ :: s' => search ic p s'
            end
  end.

(** [re.sub(p, repl, s)] for a pattern that never matches the empty
    string and a replacement without group references. *)
Fixpoint sub_from (ic : bool) (p : list re_item) (repl : pystr) (skip : nat)
  (s : pystr) : pystr :=
  match s with
  | [] => []
  | ch :: s' =>
      match skip with
      | S k => sub_from ic p repl k s'
      | O =>
          match match_at ic p s with
          | Some m =>
              match (length s - length (after m))%nat with
              | O => ch :: sub_from ic p repl O s'
              | S k => repl ++ sub_from ic p repl k s'
              end
          | None => ch :: sub_from ic p repl O s'
          end
      end
  end.

Definition re_sub (ic : bool) (p : list re_item) (repl s : pystr) : pystr :=
  sub_from ic p repl O s.

Definition lits (s : string) : list re_item := List.map Lit (U s).

(** [str.strip()] *)
Fixpoint lstrip (s : pystr) : pystr :=
  match s with
  | c :: s' => if is_space c then lstrip s' else s
  | [] => []
  end.

Definition rstrip (s : pystr) : pystr := rev (lstrip (rev s)).

Definition strip (s : pystr) : pystr := rstrip (lstrip s).

(* ===================================================================== *)
(** ** [json.loads]                                                       *)
(* ===================================================================== *)

(** The decoder of the standard library (CPython 3.11, with its C
    scanner), as its documentation and its scanner define it: JSON with
    the extensions [NaN], [Infinity] and [-Infinity], strict strings (no
    raw control characters), the last of several equal keys wins.

    Two limits of the interpreter are within reach of the text and make
    the decoder raise something else than [json.JSONDecodeError]:
    - an integer of more than 4300 digits is a [ValueError]
      ([sys.set_int_max_str_digits], at its default);
    - the scanner enters a recursive call for every object or array it
      opens, and the interpreter's recursion limit ends the nesting with
      a [RecursionError]. When a syntax error is found inside nested
      containers, building the [JSONDecodeError] takes three more calls
      (the call of the class, the frame of its [__init__], the call of
      [ValueError.__init__]); near the limit the [RecursionError] of the
      one that does not fit is raised instead.
    How many levels are left when the scanner starts depends on the
    depth of the call stack, so it is a parameter; see [scanner_levels].

    [Malformed] is [json.JSONDecodeError], [Escapes] any other
    exception. *)

Inductive scan (A : Type) :=
| Scanned (a : A) (rest : pystr)
| Malformed
| Escapes (e : PyExn)
| OutOfFuel.
Arguments Scanned {A} a rest.
Arguments Malformed {A}.
Arguments Escapes {A} e.
Arguments OutOfFuel {A}.

(** [sys.get_int_max_str_digits()], at its default. *)
Definition int_max_str_digits : nat := 4300.

(** A syntax error found by the C scanner with [room] levels of
    recursion left: [raise_errmsg] builds the [JSONDecodeError] in three
    nested calls. (An "Expecting value" is reported through a
    [StopIteration] that the decoder turns into the error outside the
    scanner, above all the nesting.) *)
Definition raise_errmsg {A} (room : nat) : scan A :=
  match room with
  | 0%nat => Escapes (RecursionError CallingObject)
  | 1%nat => Escapes (RecursionError InFrame)
  | 2%nat => Escapes (RecursionError CallingObject)
  | _ => Malformed
  end.

Definition json_ws (c : N) : bool :=
  ((c =? 32) || (c =? 9) || (c =? 10) || (c =? 13))%N.

Fixpoint skip_ws (s : pystr) : pystr :=
  match s with
  | c :: s' => if json_ws c then skip_ws s' else s
  | [] => []
  end.

Definition is_digit (c : N) : bool := ((48 <=? c) && (c <=? 57))%N.

Definition hex_value (c : N) : option N :=
  (if (48 <=? c) && (c <=? 57) then Some (c - 48)
   else if (97 <=? c) && (c <=? 102) then Some (c - 87)
   else if (65 <=? c) && (c <=? 70) then Some (c - 55)
   else None)%N.

Definition hex4 (a b c d : N) : option N :=
  match hex_value a, hex_value b, hex_value c, hex_value d with
  | Some x, Some y, Some z, Some w => Some (((x * 16 + y) * 16 + z) * 16 + w)%N
  | _, _, _, _ => None
  end.

Definition simple_escape (c : N) : option N :=
  (if c =? 34 then Some 34          (* quote *)
   else if c =? 92 then Some 92     (* backslash *)
   else if c =? 47 then Some 47     (* slash *)
   else if c =? 98 then Some 8      (* escape b *)
   else if c =? 102 then Some 12    (* escape f *)
   else if c =? 110 then Some 10    (* escape n *)
   else if c =? 114 then Some 13    (* escape r *)
   else if c =? 116 then Some 9     (* escape t *)
   else None)%N.

Definition is_high_surrogate (c : N) : bool :=
  ((55296 <=? c) && (c <=? 56319))%N.
Definition is_low_surrogate (c : N) : bool :=
  ((56320 <=? c) && (c <=? 57343))%N.
Definition join_surrogates (hi lo : N) : N :=
  (65536 + (hi - 55296) * 1024 + (lo - 56320))%N.

(** The body of a string, after its opening quote: the decoded text and
    what follows the closing quote. *)
Fixpoint scanstring (s : pystr) : option (pystr * pystr) :=
  let cons_to (c : N) (r : option (pystr * pystr)) :=
    match r with
    | Some (text, rest) => Some (c :: text, rest)
    | None => None
    end in
  match s with
  | [] => None
  | c :: s1 =>
      if (c =? 34)%N then Some ([], s1)
      else if (c =? 92)%N then
        match s1 with
        | [] => None
        | e :: s2 =>
            if (e =? 117)%N then
              match s2 with
              | h1 :: h2 :: h3 :: h4 :: s3 =>
                  match hex4 h1 h2 h3 h4 with
                  | None => None
                  | Some u =>
                      if is_high_surrogate u then
                        match s3 with
                        | b :: u' :: l1 :: l2 :: l3 :: l4 :: s4 =>
                            if ((b =? 92) && (u' =? 117))%N then
                              match hex4 l1 l2 l3 l4 with
                              | None => None
                              | Some lo =>
                                  if is_low_surrogate lo
                                  then cons_to (join_surrogates u lo)
                                         (scanstring s4)
                                  else cons_to u (scanstring s3)
                              end
                            else cons_to u (scanstring s3)
                        | _ => cons_to u (scanstring s3)
                        end
                      else cons_to u (scanstring s3)
                  end
              | _ => None
              end
            else
              match simple_escape e with
              | Some d => cons_to d (scanstring s2)
              | None => None
              end
        end
      else if (c <=? 31)%N then None
      else cons_to c (scanstring s1)
  end.

(** The longest prefix of decimal digits. *)
Fixpoint span_digits (s : pystr) : pystr * pystr :=
  match s with
  | c :: s' =>
      if is_digit c
      then let '(ds, rest) := span_digits s' in (c :: ds, rest)
      else ([], s)
  | [] => ([], [])
  end.

Definition digits_value (ds : pystr) : Z :=
  fold_left (fun acc c => acc * 10 + Z.of_N (c - 48)) ds 0.

(** [s] without its first character when that is [c]. *)
Definition after_char (c : N) (s : pystr) : option pystr :=
  match s with
  | x :: s' => if (x =? c)%N then Some s' else None
  | [] => None
  end.

(** The parts of a number, by the scanner's rules: a sign, the integer
    part, a fraction only if a digit follows the point, an exponent only
    if it has a digit. *)
Definition scan_sign (s : pystr) : bool * pystr :=
  match after_char 45 s with
  | Some s' => (true, s')
  | None => (false, s)
  end.

Definition scan_integer (s : pystr) : option (pystr * pystr) :=
  match s with
  | c :: s1 =>
      if (c =? 48)%N then Some ([c], s1)
      else if is_digit c
      then let '(ds, rest) := span_digits s1 in Some (c :: ds, rest)
      else None
  | [] => None
  end.

Definition scan_fraction (s : pystr) : pystr * pystr :=
  match s with
  | p :: d :: s' =>
      if (p =? 46)%N && is_digit d
      then let '(ds, rest) := span_digits s' in (p :: d :: ds, rest)
      else ([], s)
  | _ => ([], s)
  end.

Definition scan_exponent (s : pystr) : pystr * pystr :=
  match s with
  | e :: s' =>
      if ((e =? 101) || (e =? 69))%N then
        let '(sign, s'') :=
          match s' with
          | sg :: t => if ((sg =? 43) || (sg =? 45))%N
                       then ([sg], t) else ([], s')
          | [] => ([], s')
          end in
        match span_digits s'' with
        | ([], _) => ([], s)
        | (ds, rest) => (e :: sign ++ ds, rest)
        end
      else ([], s)
  | [] => ([], s)
  end.

Definition scan_number (s : pystr) : scan PyValue :=
  let '(neg, s0) := scan_sign s in
  match scan_integer s0 with
  | None => Malformed
  | Some (ip, s1) =>
      let '(frac, s2) := scan_fraction s1 in
      let '(expo, s3) := scan_exponent s2 in
      match frac, expo with
      | [], [] =>
          if (int_max_str_digits <? length ip)%nat
          then Escapes (ValueError_int_digits (length ip))
          else
          Scanned (PyInt (if neg then - digits_value ip else digits_value ip))
            s3
      | _, _ =>
          Scanned (PyFloat ((if neg then [45%N] else []) ++ ip ++ frac ++ expo))
            s3
      end
  end.

(** [prefix] followed by the rest, or nothing. *)
Fixpoint strip_prefix (prefix s : pystr) : option pystr :=
  match prefix, s with
  | [], _ => Some s
  | p :: prefix', c :: s' =>
      if (p =? c)%N then strip_prefix prefix' s' else None
  | _ :: _, [] => None
  end.

(** The constants that are spelled out. *)
Definition scan_constant (s : pystr) : option (PyValue * pystr) :=
  match strip_prefix (U "null") s with
  | Some rest => Some (PyNone, rest)
  | None =>
  match strip_prefix (U "true") s with
  | Some rest => Some (PyBool true, rest)
  | None =>
  match strip_prefix (U "false") s with
  | Some rest => Some (PyBool false, rest)
  | None =>
  match strip_prefix (U "NaN") s with
  | Some rest => Some (PyFloat (U "NaN"), rest)
  | None =>
  match strip_prefix (U "Infinity") s with
  | Some rest => Some (PyFloat (U "Infinity"), rest)
  | None =>
  match strip_prefix (U "-Infinity") s with
  | Some rest => Some (PyFloat (U "-Infinity"), rest)
  | None => None
  end end end end end end.

(** [scan_once]: one value at the start of [s], with [room] levels of
    recursion left. [scan_members] and [scan_items] are the loops of the
    object and array scanners; they start at the first key, or item, or
    after a comma. *)
Fixpoint scan_once (fuel : nat) (room : nat) (s : pystr) : scan PyValue :=
  match fuel with
  | O => OutOfFuel
  | S f =>
      match s with
      | [] => Malformed
      | c :: s1 =>
          if (c =? 34)%N then
            match scanstring s1 with
            | Some (text, rest) => Scanned (PyStr text) rest
            | None => raise_errmsg room
            end
          else if (c =? 123)%N then
            match room with
            | O => Escapes (RecursionError DecodingObject)
            | S inner =>
                match after_char 125 (skip_ws s1) with
                | Some rest => Scanned (PyDict []) rest
                | None =>
                    match scan_members f inner (skip_ws s1) [] with
                    | Scanned d rest => Scanned (PyDict d) rest
                    | Malformed => Malformed
                    | Escapes e => Escapes e
                    | OutOfFuel => OutOfFuel
                    end
                end
            end
          else if (c =? 91)%N then
            match room with
            | O => Escapes (RecursionError DecodingArray)
            | S inner =>
                match after_char 93 (skip_ws s1) with
                | Some rest => Scanned (PyList []) rest
                | None =>
                    match scan_items f inner (skip_ws s1) [] with
                    | Scanned l rest => Scanned (PyList l) rest
                    | Malformed => Malformed
                    | Escapes e => Escapes e
                    | OutOfFuel => OutOfFuel
                    end
                end
            end
          else
            match scan_constant s with
            | Some (v, rest) => Scanned v rest
            | None => scan_number s
            end
      end
  end
with scan_members (fuel : nat) (room : nat) (s : pystr) (acc : pydict)
  : scan pydict :=
  match fuel with
  | O => OutOfFuel
  | S f =>
      match after_char 34 s with
      | None => raise_errmsg room
      | Some s1 =>
          match scanstring s1 with
          | None => raise_errmsg room
          | Some (key, s2) =>
              match after_char 58 (skip_ws s2) with
              | None => raise_errmsg room
              | Some s3 =>
                  match scan_once f room (skip_ws s3) with
                  | Scanned v s4 =>
                      let acc' := dict_set key v acc in
                      match after_char 125 (skip_ws s4) with
                      | Some rest => Scanned acc' rest
                      | None =>
                          match after_char 44 (skip_ws s4) with
                          | Some s5 => scan_members f room (skip_ws s5) acc'
                          | None => raise_errmsg room
                          end
                      end
                  | Malformed => Malformed
                  | Escapes e => Escapes e
                  | OutOfFuel => OutOfFuel
                  end
              end
          end
      end
  end
with scan_items (fuel : nat) (room : nat) (s : pystr) (acc : list PyValue)
  : scan (list PyValue) :=
  match fuel with
  | O => OutOfFuel
  | S f =>
      match scan_once f room s with
      | Scanned v s1 =>
          match after_char 93 (skip_ws s1) with
          | Some rest => Scanned (acc ++ [v]) rest
          | None =>
              match after_char 44 (skip_ws s1) with
              | Some s2 => scan_items f room (skip_ws s2) (acc ++ [v])
              | None => raise_errmsg room
              end
          end
      | Malformed => Malformed
      | Escapes e => Escapes e
      | OutOfFuel => OutOfFuel
      end
  end.

(** Enough fuel for any text of that length (see [scan_fuel_enough]). *)
Definition json_fuel (s : pystr) : nat := S (S (2 * length s)).

(** The levels of recursion that the scanner finds left. The model
    covers the runs in which there are at least four, the least with
    which a syntax error in an object or array at the top is still
    reported as such; [spare] counts the levels beyond these. (With the
    default limit of 1000 a call from the turn loop leaves several
    hundred; a stack that leaves fewer than four fails in the
    extractor's own calls as well.) The calls of the logger are left
    out of the embedding: they are taken to find the few frames they
    need. Rendering a decoded value in a message takes no more levels
    than decoding it took. *)
Definition scanner_levels (spare : nat) : nat := 4 + spare.

Definition json_loads (spare : nat) (s : pystr) : outcome PyValue :=
  match scan_once (json_fuel s) (scanner_levels spare) (skip_ws s) with
  | Scanned v rest =>
      match skip_ws rest with
      | [] => Ret v
      | _ :: _ => Raise JSONDecodeError
      end
  | Escapes e => Raise e
  | _ => Raise JSONDecodeError
  end.

(* ===================================================================== *)
(** ** llm/client.py: [OllamaClient._parse_tool_call]                     *)
(* ===================================================================== *)

(** [J "..."] is [U "..."] with every apostrophe read as a double quote,
    to write JSON text and patterns legibly. *)
Definition J (s : string) : pystr :=
  List.map (fun c => if N.eqb c 39 then 34%N else c) (U s).

Definition jlits (s : string) : list re_item := List.map Lit (J s).

(** [\s*(.*?)\s*] *)
Definition spaced_group : list re_item :=
  [Rep true 0 CSpace; GroupOpen; Rep false 0 CAny; GroupClose;
   Rep true 0 CSpace].

Definition braces : list N := [123%N; 125%N].

(** The four patterns of [json_patterns], in the order of the source. *)
Definition pattern_python_tags : list re_item :=
  lits "<|python_start|>" ++ spaced_group ++ lits "<|python_end|>".

Definition pattern_json_fence : list re_item :=
  lits "```json" ++ spaced_group ++ lits "```".

Definition pattern_any_fence : list re_item :=
  lits "```" ++ spaced_group ++ lits "```".

Definition pattern_bare_object : list re_item :=
  [GroupOpen; Lit 123%N; Rep true 0 (CNoneOf braces)]
  ++ jlits "'tool'" ++ [Rep true 0 CSpace; Lit 58%N; Rep true 0 CSpace]
  ++ [Lit 34%N; Rep false 1 (CNoneOf [34%N]); Lit 34%N]
  ++ [Rep true 0 (CNoneOf braces); Lit 125%N; GroupClose].

Definition json_patterns : list (list re_item) :=
  [pattern_python_tags; pattern_json_fence; pattern_any_fence;
   pattern_bare_object].

(** The two patterns of the last resort; they are used without flags. *)
Definition pattern_tool_pair : list re_item :=
  jlits "'tool'" ++ [Rep true 0 CSpace; Lit 58%N; Rep true 0 CSpace]
  ++ [Lit 34%N; GroupOpen; Rep true 1 (CNoneOf [34%N]); GroupClose; Lit 34%N].

Definition pattern_arguments_pair : list re_item :=
  jlits "'arguments'" ++ [Rep true 0 CSpace; Lit 58%N; Rep true 0 CSpace]
  ++ [GroupOpen; Lit 123%N; Rep true 1 (CNoneOf [125%N]); Lit 125%N;
      GroupClose].

Definition nonempty {A} (l : list A) : bool :=
  match l with [] => false | _ :: _ => true end.

(** The character loop that cuts a matched span into candidate objects:
    [brace_count], [current_json] and [json_candidates] are the loop's
    variables. *)
Fixpoint split_objects (span : pystr) (brace_count : Z)
  (current_json : pystr) (json_candidates : list pystr) : list pystr :=
  match span with
  | [] => json_candidates
  | char :: span' =>
      let brace_count :=
        if (char =? 123)%N then brace_count + 1 else brace_count in
      let current_json :=
        if 0 <? brace_count then current_json ++ [char] else current_json in
      if (char =? 125)%N then
        let brace_count := brace_count - 1 in
        if (brace_count =? 0) && nonempty current_json
        then split_objects span' brace_count [] (json_candidates ++ [current_json])
        else split_objects span' brace_count current_json json_candidates
      else split_objects span' brace_count current_json json_candidates
  end.

(** The candidates of one match: the objects cut out of it, or the whole
    stripped match when there is none. *)
Definition candidates_of (span : pystr) : list pystr :=
  match split_objects span 0 [] [] with
  | [] => [strip span]
  | cs => cs
  end.

(** [ToolRequest(tool=..., arguments=...)]; [rid] is the [uuid4] that the
    constructor draws. *)
Definition new_request (rid : pystr) (t args : PyValue) : ToolRequest :=
  {| request_id := rid; tool := t; arguments := args; confirmed := false |}.

(** [data.get("arguments", {})] *)
Definition get_arguments (data : PyValue) : outcome PyValue :=
  match data with
  | PyDict d => Ret (dict_get_default (U "arguments") (PyDict []) d)
  | _ => Raise AttributeError
  end.

(** The body of the innermost loop for one candidate: [Ret (Some r)] is
    [return r], [Ret None] is [continue]. The [except] clause names
    [json.JSONDecodeError] alone: whatever else [json.loads] raises
    leaves the loops and the function. [spare] is the recursion room of
    the decoder (see [scanner_levels]). *)
Definition try_candidate (spare : nat) (rid : pystr) (json_str : pystr)
  : outcome (option ToolRequest) :=
  if negb (str_startswith [123%N] (strip json_str)) then Ret None
  else
    match json_loads spare json_str with
    | Raise JSONDecodeError => Ret None
    | Raise e => Raise e
    | Ret data =>
        let* has_tool := py_contains data (U "tool") in
        if has_tool then
          let* t := py_getitem data (U "tool") in
          let* args := get_arguments data in
          Ret (Some (new_request rid t args))
        else Ret None
    end.

Fixpoint try_candidates (spare : nat) (rid : pystr) (cands : list pystr)
  : outcome (option ToolRequest) :=
  match cands with
  | [] => Ret None
  | json_str :: cands' =>
      let* r := try_candidate spare rid json_str in
      match r with
      | Some req => Ret (Some req)
      | None => try_candidates spare rid cands'
      end
  end.

Fixpoint try_matches (spare : nat) (rid : pystr) (matches : list pystr)
  : outcome (option ToolRequest) :=
  match matches with
  | [] => Ret None
  | m :: matches' =>
      let* r := try_candidates spare rid (candidates_of m) in
      match r with
      | Some req => Ret (Some req)
      | None => try_matches spare rid matches'
      end
  end.

Fixpoint try_patterns (spare : nat) (rid : pystr)
  (patterns : list (list re_item)) (content : pystr)
  : outcome (option ToolRequest) :=
  match patterns with
  | [] => Ret None
  | pattern :: patterns' =>
      let* r := try_matches spare rid (findall true pattern content) in
      match r with
      | Some req => Ret (Some req)
      | None => try_patterns spare rid patterns' content
      end
  end.

(** The last resort: a ["tool"] pair anywhere, and an arguments object
    if one parses; here a bare [except] catches whatever [json.loads]
    raises. *)
Definition last_resort (spare : nat) (rid : pystr) (content : pystr)
  : option ToolRequest :=
  match search false pattern_tool_pair content with
  | Some tool_match =>
      let args :=
        match search false pattern_arguments_pair content with
        | Some args_match =>
            match json_loads spare (group1 args_match) with
            | Ret v => v
            | Raise _ => PyDict []
            end
        | None => PyDict []
        end in
      Some (new_request rid (PyStr (group1 tool_match)) args)
  | None => None
  end.

Definition _parse_tool_call (spare : nat) (rid : pystr) (content : pystr)
  : outcome (option ToolRequest) :=
  let* r := try_patterns spare rid json_patterns content in
  match r with
  | Some req => Ret (Some req)
  | None => Ret (last_resort spare rid content)
  end.

(** *** The extractor as the specification words it

    An ordered list of strategies; each one scans its matched spans for
    candidate objects, left to right, and yields the first candidate that
    is a valid object with the action-name field; the first strategy that
    yields one wins, and only when none does the last resort is tried.
    [_parse_tool_call] is compared with this reading below. *)

(** The object a candidate denotes, when it is a valid JSON object with a
    ["tool"] member; a decoder error other than a syntax error is passed
    on. *)
Definition object_with_tool (spare : nat) (json_str : pystr)
  : outcome (option pydict) :=
  if str_startswith [123%N] (strip json_str) then
    match json_loads spare json_str with
    | Ret (PyDict d) => Ret (if dict_mem (U "tool") d then Some d else None)
    | Ret _ => Ret None
    | Raise JSONDecodeError => Ret None
    | Raise e => Raise e
    end
  else Ret None.

(** The first attempt that yields something; an attempt that raises
    ends the search with its exception. *)
Fixpoint first_success {A B} (attempt : A -> outcome (option B)) (l : list A)
  : outcome (option B) :=
  match l with
  | [] => Ret None
  | a :: l' =>
      let* r := attempt a in
      match r with
      | Some b => Ret (Some b)
      | None => first_success attempt l'
      end
  end.

Definition strategy_candidates (pattern : list re_item) (text : pystr)
  : list pystr :=
  flat_map candidates_of (findall true pattern text).

Definition strategy (spare : nat) (text : pystr) (pattern : list re_item)
  : outcome (option pydict) :=
  first_success (object_with_tool spare) (strategy_candidates pattern text).

Definition request_of_object (rid : pystr) (d : pydict) : ToolRequest :=
  new_request rid (dict_get_default (U "tool") PyNone d)
    (dict_get_default (U "arguments") (PyDict []) d).

(** The request made from what an attempt found. *)
Definition as_request (rid : pystr) (found : outcome (option pydict))
  : outcome (option ToolRequest) :=
  let* d := found in Ret (request_of_object rid <$> d).

(** The extraction by a given list of strategies, in the order of the
    list. *)
Definition extract_by_strategies (spare : nat) (rid : pystr)
  (strategies : list (list re_item)) (text : pystr)
  : outcome (option ToolRequest) :=
  let* found := first_success (strategy spare text) strategies in
  match found with
  | Some d => Ret (Some (request_of_object rid d))
  | None => Ret (last_resort spare rid text)
  end.

(** A span that the brace counter sees as one object: it opens with a
    brace at depth zero and returns to depth zero exactly at its last
    character. *)
Definition depth_after (depth : Z) (c : N) : Z :=
  if (c =? 123)%N then depth + 1
  else if (c =? 125)%N then depth - 1
  else depth.

Fixpoint closes_at_end (depth : Z) (s : pystr) : bool :=
  match s with
  | [] => false
  | c :: s' =>
      let d := depth_after depth c in
      match s' with
      | [] => d =? 0
      | _ :: _ => (0 <? d) && closes_at_end d s'
      end
  end.

Definition is_object_span (o : pystr) : bool :=
  str_startswith [123%N] o && closes_at_end 0 o.

Definition avoids (c : N) (s : pystr) : bool :=
  forallb (fun x => negb (x =? c)%N) s.

(** The structured object that the strategies recover from a text. *)
Definition recovered_object (spare : nat) (text : pystr)
  : outcome (option pydict) :=
  first_success (strategy spare text) json_patterns.

(** A reply with one json-tagged fenced block that holds two objects. *)
Definition fenced_reply (pre ws1 o1 w o2 ws2 tail : pystr) : pystr :=
  pre ++ U "```json" ++ ws1 ++ (o1 ++ w ++ o2) ++ ws2 ++ U "```" ++ tail.

(* ===================================================================== *)
(** ** orchestrator/agent.py: [AgentOrchestrator]                         *)
(* ===================================================================== *)

(** The text that [_format_tool_result_for_llm] renders, one constructor
    per branch, with the values the f-string interpolates; the payload of
    a success stands for [json.dumps(payload, indent=2)] cut at 1000
    characters, for a payload that [json.dumps] can write: a tree of
    JSON values nested less deeply than the recursion limit allows.
    - [FmtSuccess]: "Tool '<id>' executed successfully.\nResult: <payload>"
    - [FmtNeedsConfirmation]: "Tool requires confirmation from user.
      Please ask the user if they want to proceed."
    - [FmtCancelled]: "User cancelled this operation."
    - [FmtFailed]: "Tool failed with error: <error>" *)
Inductive FormattedResult :=
| FmtSuccess (rid : pystr) (payload : PyValue)
| FmtNeedsConfirmation
| FmtCancelled
| FmtFailed (e : option ErrorInfo).

Definition _format_tool_result_for_llm (r : ToolResult) : FormattedResult :=
  match status r with
  | SUCCESS => FmtSuccess (res_request_id r) (result r)
  | CONFIRMATION_REQUIRED => FmtNeedsConfirmation
  | CANCELLED => FmtCancelled
  | _ => FmtFailed (error r)
  end.

Inductive Content :=
| Text (s : pystr)
| ResultText (f : FormattedResult)      (* the rendering itself *)
| ResultPrompt (f : FormattedResult).   (* "[Tool Result]\n...Please continue..." *)

(** An entry of the [messages] list sent to the model. *)
Record ChatMessage := {
  chat_role : pystr;
  chat_content : Content
}.

(** [core.types.Message] *)
Record Message := {
  role : pystr;
  content : Content;
  tool_calls : list ToolRequest;
  tool_results : list ToolResult
}.

(** The event callbacks ([_on_thinking], [_on_tool_call], ...) only
    observe and are left out. What lies outside the process: what the
    model answers to the [n]-th call of [chat], the [uuid4] drawn for
    the request built from that answer, and the recursion room that the
    call stack leaves to the decoder (see [scanner_levels]). *)
Inductive LLMReply :=
| Reply (text : pystr)
| ChatFails (text : pystr).

Record World := {
  chat : nat -> list ChatMessage -> LLMReply;
  uuid4 : nat -> pystr;
  recursion_spare : nat
}.

Record AgentOrchestrator := {
  tool_server : ToolServer;
  max_iterations : Z;
  conversation : list Message;
  _confirmation_handler : option (ToolRequest -> bool);
  llm_calls : nat                                  (* instrumentation *)
}.

Definition update_agent (srv : ToolServer) (conv : list Message) (calls : nat)
  (a : AgentOrchestrator) : AgentOrchestrator :=
  {| tool_server := srv; max_iterations := max_iterations a;
     conversation := conv;
     _confirmation_handler := _confirmation_handler a;
     llm_calls := calls |}.

(** [self.conversation.add_message(m)] *)
Definition add_message (m : Message) (a : AgentOrchestrator)
  : AgentOrchestrator :=
  update_agent (tool_server a) (conversation a ++ [m]) (llm_calls a) a.

Definition nat_text (n : nat) : pystr :=
  U (NilZero.string_of_uint (Nat.to_uint n)).

(** [str(e)]. The messages of the decoder's [ValueError] and
    [RecursionError] are those of CPython 3.11; the other exceptions do
    not reach a place that renders them, and their texts are
    abbreviated. *)
Definition exn_text (e : PyExn) : pystr :=
  match e with
  | GatewayError text => text
  | TypeError_unhashable => U "unhashable type"
  | TypeError_not_iterable => U "argument is not iterable"
  | TypeError_bad_index => U "indices must be integers"
  | KeyError => U "KeyError"
  | AttributeError => U "object has no attribute 'get'"
  | JSONDecodeError => U "Expecting value"
  | ValueError_int_digits digits =>
      U "Exceeds the limit (" ++ nat_text int_max_str_digits
      ++ U " digits) for integer string conversion: value has "
      ++ nat_text digits
      ++ U " digits; use sys.set_int_max_str_digits() to increase the limit"
  | RecursionError site =>
      U "maximum recursion depth exceeded"
      ++ match site with
         | DecodingObject =>
             U " while decoding a JSON object from a unicode string"
         | DecodingArray =>
             U " while decoding a JSON array from a unicode string"
         | CallingObject => U " while calling a Python object"
         | InFrame => []
         end
  | HandlerBaseException text => text
  end.

(** [LLMManager.chat]: the reply and the tool calls found in it. What
    the extractor raises passes the [except Exception: raise] of
    [OllamaClient.chat] and leaves this call like a failure of the
    gateway. *)
Definition llm_chat (w : World) (n : nat) (messages : list ChatMessage)
  : outcome (pystr * list ToolRequest) :=
  match chat w n messages with
  | ChatFails text => Raise (GatewayError text)
  | Reply text =>
      let* found := _parse_tool_call (recursion_spare w) (uuid4 w n) text in
      Ret (text, match found with Some r => [r] | None => [] end)
  end.

(** The patterns of [_clean_response]. *)
Definition clean_python_block : list re_item :=
  lits "<|python_start|>" ++ [Rep false 0 CAny] ++ lits "<|python_end|>".

Definition clean_fenced_object (tag : string) : list re_item :=
  lits "```" ++ lits tag
  ++ [Rep true 0 CSpace; Lit 123%N; Rep true 0 (CNoneOf [96%N]); Lit 125%N;
      Rep true 0 CSpace]
  ++ lits "```".

Definition clean_bare_object : list re_item :=
  [Lit 123%N; Rep true 0 (CNoneOf braces)] ++ jlits "'tool'"
  ++ [Rep true 0 (CNoneOf braces); Lit 125%N].

Definition clean_blank_lines : list re_item := [Rep true 3 (CChar 10%N)].

Definition _clean_response (text : pystr) : pystr :=
  let text := re_sub false clean_python_block [] text in
  let text := re_sub false (clean_fenced_object "json") [] text in
  let text := re_sub false (clean_fenced_object "") [] text in
  let text := re_sub false clean_bare_object [] text in
  let text := re_sub false clean_blank_lines [10%N; 10%N] text in
  strip text.

(** [_handle_confirmation], the callback that the constructor installs
    on the tool server. *)
Definition _handle_confirmation (a : AgentOrchestrator)
  (request : ToolRequest) : bool :=
  match _confirmation_handler a with
  | Some confirmation_handler => confirmation_handler request
  | None => false
  end.

Definition cancelled_result (request : ToolRequest) : ToolResult :=
  {| res_request_id := request_id request; status := CANCELLED;
     result := PyNone; error := Some ErrUserCancelled;
     execution_time_ms := 0; side_effects := []; warnings := PyList [] |}.

Definition is_confirmation_required (st : ExecutionStatus) : bool :=
  match st with CONFIRMATION_REQUIRED => true | _ => false end.

(** The part of the loop body that runs the tool: [execute], then the
    handling of a required confirmation. The request comes back because
    the approval sets [confirmed] on the very object that is later stored
    in the conversation. *)
Definition run_tool_call (a : AgentOrchestrator) (tool_request : ToolRequest)
  : outcome (ToolRequest * ToolResult * ToolServer) :=
  let* first := execute (tool_server a) tool_request in
  let '(res, srv) := first in
  if is_confirmation_required (status res) then
    match _confirmation_handler a with
    | Some confirmation_handler =>
        if confirmation_handler tool_request then
          let tool_request := set_confirmed tool_request in
          let* second := execute srv tool_request in
          let '(res, srv) := second in
          Ret (tool_request, res, srv)
        else Ret (tool_request, cancelled_result tool_request, srv)
    | None => Ret (tool_request, res, srv)
    end
  else Ret (tool_request, res, srv).

Record LoopState := {
  iterations : Z;
  messages : list ChatMessage;
  agent : AgentOrchestrator
}.

Inductive LoopStep :=
| Continue (st : LoopState)
| Break (final_response : pystr) (a : AgentOrchestrator).

(** One pass through the body of the [while] loop. *)
Definition loop_body (w : World) (st : LoopState) : outcome LoopStep :=
  let iterations := iterations st + 1 in
  let a := agent st in
  let a1 := update_agent (tool_server a) (conversation a) (S (llm_calls a)) a in
  match llm_chat w (llm_calls a) (messages st) with
  | Raise e =>
      Ret (Break
             (U "I encountered an error communicating with the AI model: "
              ++ exn_text e) a1)
  | Ret (text, calls) =>
      match calls with
      | tool_request :: _ =>
          let* ran := run_tool_call a1 tool_request in
          let '(tool_request, res, srv) := ran in
          let tool_result_text := _format_tool_result_for_llm res in
          let messages :=
            messages st
            ++ [ {| chat_role := U "assistant"; chat_content := Text text |};
                 {| chat_role := U "user";
                    chat_content := ResultPrompt tool_result_text |} ] in
          let tool_message :=
            {| role := U "assistant"; content := Text text;
               tool_calls := [tool_request]; tool_results := [] |} in
          let result_message :=
            {| role := U "tool"; content := ResultText tool_result_text;
               tool_calls := []; tool_results := [res] |} in
          Ret (Continue
                 {| iterations := iterations; messages := messages;
                    agent := update_agent srv
                               (conversation a1
                                ++ [tool_message; result_message])
                               (llm_calls a1) a1 |})
      | [] =>
          let final_response := _clean_response text in
          let final_response :=
            if (length final_response <? 5)%nat then U "Done!"
            else final_response in
          Ret (Break final_response a1)
      end
  end.

(** The [while iterations < self.max_iterations] loop; [None] only when
    [fuel] runs out before the loop ends. *)
Fixpoint agent_loop (w : World) (fuel : nat) (st : LoopState)
  : outcome (option (pystr * AgentOrchestrator)) :=
  match fuel with
  | O => Ret None
  | S fuel' =>
      if iterations st <? max_iterations (agent st) then
        let* step := loop_body w st in
        match step with
        | Continue st' => agent_loop w fuel' st'
        | Break final_response a => Ret (Some (final_response, a))
        end
      else Ret (Some ([], agent st))
  end.

Definition to_chat (m : Message) : ChatMessage :=
  {| chat_role := role m; chat_content := content m |}.

(** [process(user_input)]; the loop gets one unit of fuel more than the
    budget, for the final test of its condition. *)
Definition process (w : World) (a : AgentOrchestrator) (user_input : pystr)
  : outcome (option (pystr * AgentOrchestrator)) :=
  let a :=
    add_message {| role := U "user"; content := Text user_input;
                   tool_calls := []; tool_results := [] |} a in
  let messages := List.map to_chat (py_slice_from (-20) (conversation a)) in
  let* r := agent_loop w (S (Z.to_nat (max_iterations a)))
              {| iterations := 0; messages := messages; agent := a |} in
  match r with
  | None => Ret None
  | Some (final_response, a) =>
      if nonempty final_response then
        Ret (Some (final_response,
                   add_message {| role := U "assistant";
                                  content := Text final_response;
                                  tool_calls := []; tool_results := [] |} a))
      else Ret (Some (final_response, a))
  end.

(** The results stored with the messages of a conversation. *)
Definition recorded_results (conv : list Message) : list ToolResult :=
  flat_map tool_results conv.

(* ===================================================================== *)
(** ** Further functions of the same modules                              *)
(* ===================================================================== *)

(** The requests whose calls wait in the queue of the pool, and the
    state of a pool that can begin a call at once: nothing waits and
    fewer than [max_workers] calls are running. *)
Definition queued (s : ToolServer) : list ToolRequest :=
  List.map work_request (pool_queue s).





(** What no call of [execute] changes. *)
Definition same_setup (s s' : ToolServer) : Prop :=
  _tools s' = _tools s
  /\ _permission_tier s' = _permission_tier s
  /\ _timeout s' = _timeout s
  /\ _max_workers s' = _max_workers s
  /\ _confirmation_callback s' = _confirmation_callback s.


(** [ToolServer.execute_batch]: the loop stops after the first result
    whose status is failed. *)
Definition is_failed (st : ExecutionStatus) : bool :=
  match st with FAILED => true | _ => false end.

Fixpoint execute_batch (s : ToolServer) (requests : list ToolRequest)
  : outcome (list ToolResult * ToolServer) :=
  match requests with
  | [] => Ret ([], s)
  | request :: requests' =>
      let* ran := execute s request in
      let '(res, s1) := ran in
      if is_failed (status res) then Ret ([res], s1)
      else
        let* more := execute_batch s1 requests' in
        let '(results, s2) := more in
        Ret (res :: results, s2)
  end.

(** [Conversation.get_history_for_llm(max_messages)] *)
Definition get_history_for_llm (max_messages : Z) (conv : list Message)
  : list ChatMessage :=
  List.map to_chat (py_slice_from (- max_messages) conv).

(** The ["required"] entry of [ToolSchema.to_llm_schema()]: the names
    appended to [required] in the loop over the parameters. (The
    ["properties"] entry also lists [enum] and [examples], which the
    parameters of this embedding do not carry.) *)
Definition llm_required (sc : ToolSchema) : list pystr :=
  List.map param_name
    (List.filter (fun p => param_required p && is_None (param_default p))
       (parameters sc)).

(** [core.types.Plan] with [is_complete], [get_current_step] and
    [advance]. An index below zero counts from the end of the list, and
    one before its start is an [IndexError]. *)
Record Plan := {
  steps : list ToolRequest;
  current_step : Z;
  plan_results : list ToolResult
}.

Inductive StepLookup :=
| NoStep                       (* [None] *)
| Step (request : ToolRequest)
| StepIndexError.

Definition is_complete (p : Plan) : bool :=
  Z.of_nat (length (steps p)) <=? current_step p.

Definition get_current_step (p : Plan) : StepLookup :=
  if is_complete p then NoStep
  else
    let len := Z.of_nat (length (steps p)) in
    let i := if current_step p <? 0 then current_step p + len
             else current_step p in
    if i <? 0 then StepIndexError
    else match nth_error (steps p) (Z.to_nat i) with
         | Some r => Step r
         | None => StepIndexError
         end.

(** [Plan.advance] *)
Definition plan_advance (res : ToolResult) (p : Plan) : Plan :=
  {| steps := steps p; current_step := current_step p + 1;
     plan_results := plan_results p ++ [res] |}.

(** [Plan(steps=...)]: a plan as the constructor's defaults make it. *)
Definition new_plan (requests : list ToolRequest) : Plan :=
  {| steps := requests; current_step := 0; plan_results := [] |}.

(** The request as the extractor built it, before any approval. *)
Definition unconfirmed (r : ToolRequest) : ToolRequest :=
  {| request_id := request_id r; tool := tool r;
     arguments := arguments r; confirmed := false |}.

(** The order of the tiers by the spelling of their values, which is the
    order that the comparison of [validate_request] follows. *)
Definition spelling_rank (t : PermissionTier) : Z :=
  match t with
  | ADMINISTRATOR => 0
  | OBSERVER => 1
  | OPERATOR => 2
  | SYSTEM => 3
  end.

(** The message that [process] stores for the user's input, and the
    messages of the first model call: the last twenty of the conversation
    with that message at its end. *)
Definition user_message (user_input : pystr) : Message :=
  {| role := U "user"; content := Text user_input;
     tool_calls := []; tool_results := [] |}.

Definition assistant_message (text : pystr) : Message :=
  {| role := U "assistant"; content := Text text;
     tool_calls := []; tool_results := [] |}.

Definition first_window (a : AgentOrchestrator) (user_input : pystr)
  : list ChatMessage :=
  List.map to_chat
    (py_slice_from (-20) (conversation a ++ [user_message user_input])).

(** A handler invocation that the configuration of agent [a] allows: the
    tool is registered, and if it requires confirmation the request is
    confirmed and the approval handler said yes to the unconfirmed
    request. *)
Definition runs_with_leave (a : AgentOrchestrator) (inv : ToolRequest)
  : Prop :=
  exists n t,
    tool inv = PyStr n
    /\ _tools (tool_server a) !! n = Some t
    /\ (requires_confirmation (schema t) = true ->
        confirmed inv = true
        /\ exists approve,
             _confirmation_handler a = Some approve
             /\ approve (unconfirmed inv) = true).

(* ===================================================================== *)
(** ** Sample catalog entries used by the examples                        *)
(* ===================================================================== *)

Definition simple_schema (n : string) (confirm : bool) (tier : PermissionTier)
  (params : list ToolParameter) : ToolSchema :=
  {| name := U n; description := U ""; category := SYSTEM_CATEGORY;
     risk_level := LOW; parameters := params;
     requires_confirmation := confirm; permission_tier := tier |}.

Definition request_for (rid n : string) (args : PyValue) (c : bool)
  : ToolRequest :=
  {| request_id := U rid; tool := PyStr (U n); arguments := args;
     confirmed := c |}.

(** A handler that answers at once with the arguments it was given. *)
Definition echo_handler : ToolHandler :=
  fun args => Completes 0 (HReturn (PyDict [(U "echo", args)])).

(** The handler of the spec's scenario: sleeps 2000 ms, then succeeds. *)
Definition slow_echo_handler : ToolHandler :=
  fun _ => Completes 2000 (HReturn (PyDict [(U "echo", PyStr (U "ok"))])).

Definition raising_handler : ToolHandler :=
  fun _ => Completes 0 (HRaise OtherException (U "boom")).

Definition admin_server (tier : PermissionTier) : ToolServer :=
  register_tool (simple_schema "format_disk" false ADMINISTRATOR [])
    echo_handler (new_server tier 30).

Definition slow_server : ToolServer :=
  register_tool (simple_schema "slow_echo" false OPERATOR [])
    slow_echo_handler (new_server OPERATOR 1).

Definition delete_server : ToolServer :=
  register_tool (simple_schema "file_delete" true OPERATOR [])
    echo_handler (new_server OPERATOR 30).

Definition raising_server : ToolServer :=
  register_tool (simple_schema "boom" false OPERATOR [])
    raising_handler (new_server OPERATOR 30).

Definition echo_server : ToolServer :=
  register_tool (simple_schema "echo" false OPERATOR [])
    echo_handler (new_server OPERATOR 30).

(** Replies of the model used by the examples. *)
Definition reply_two_objects : pystr :=
  fenced_reply (U "Sure. ") [10%N] (J "{'thought':'open it'}") []
    (J "{'tool':'app_open','arguments':{'identifier':'notepad'}}")
    [10%N] [].

Definition reply_without_arguments : pystr :=
  J "```json {'tool':'screenshot'} ```".

Definition reply_loose_pair : pystr :=
  J "I will call 'tool': 'screenshot' now".

(** A model that gives the same reply to every call. *)
Definition always (reply : pystr) : World :=
  {| chat := fun _ _ => Reply reply;
     uuid4 := fun n => U "req-" ++ [(48 + N.of_nat n)%N];
     recursion_spare := 900 |}.

Definition new_agent (srv : ToolServer) (budget : Z)
  (confirmation_handler : option (ToolRequest -> bool)) : AgentOrchestrator :=
  {| tool_server := srv; max_iterations := budget; conversation := [];
     _confirmation_handler := confirmation_handler; llm_calls := 0 |}.

Definition reply_delete : pystr := J "```json {'tool':'file_delete'} ```".
Definition reply_echo : pystr := J "```json {'tool':'echo'} ```".
Definition reply_list_as_tool : pystr := J "```json {'tool': ['echo']} ```".
Definition reply_null_arguments : pystr :=
  J "```json {'tool':'file_read','arguments':null} ```".

Definition reader_server : ToolServer :=
  register_tool
    (simple_schema "file_read" false OPERATOR
       [ {| param_name := U "path"; param_type := U "string";
            param_description := U ""; param_required := true;
            param_default := PyNone |} ])
    echo_handler (new_server OPERATOR 30).

Definition two_tool_server : ToolServer :=
  register_tools
    [ (simple_schema "echo" false OPERATOR [], echo_handler);
      (simple_schema "boom" false OPERATOR [], raising_handler) ]
    (new_server OPERATOR 30).

Definition read_request (rid : string) (args : pydict) : ToolRequest :=
  request_for rid "file_read" (PyDict args) false.

Definition batch_requests : list ToolRequest :=
  [ request_for "b1" "echo" (PyDict []) false;
    request_for "b2" "boom" (PyDict []) false;
    request_for "b3" "echo" (PyDict []) false ].

Definition sample_message (n : string) : Message :=
  {| role := U "user"; content := Text (U n);
     tool_calls := []; tool_results := [] |}.

(** A model that fails on every call. *)
Definition unreachable_model : World :=
  {| chat := fun _ _ => ChatFails (U "LLM request timed out");
     uuid4 := fun _ => U "req";
     recursion_spare := 900 |}.

(** A model that proposes a deletion first and then reports. *)
Definition deleting_model : World :=
  {| chat := fun n _ => match n with
                        | O => Reply reply_delete
                        | _ => Reply (U "The file is gone.")
                        end;
     uuid4 := fun n => U "req-" ++ [(48 + N.of_nat n)%N];
     recursion_spare := 900 |}.

Definition path_schema : ToolSchema :=
  simple_schema "file_read" false OPERATOR
    [ {| param_name := U "path"; param_type := U "string";
         param_description := U ""; param_required := true;
         param_default := PyNone |};
      {| param_name := U "encoding"; param_type := U "string";
         param_description := U ""; param_required := true;
         param_default := PyStr (U "utf-8") |} ].







(** A reply whose json fence holds two objects: the first is valid JSON
    with an integer of 4301 digits and no ["tool"] member, the second is
    a tool call. *)
Definition long_integer_object : pystr :=
  J "{'n':" ++ repeat 57%N (N.to_nat 4301) ++ J "}".

Definition long_integer_reply : pystr :=
  J "```json " ++ long_integer_object ++ J "{'tool':'t'} ```".
(* ===================================================================== *)
(** ** The worker pool                                                    *)
(* ===================================================================== *)

Lemma earliest_in running t : earliest running = Some t -> In (Some t) running.
Proof.
  revert t. induction running as [|[f|] running IH]; intros t; simpl;
    [discriminate| |by right; apply IH].
  destruct (earliest running) as [t'|].
  - intros [= <-]. destruct (Z.min_spec f t') as [[_ ->]|[_ ->]];
      [by left|right; by apply IH].
  - intros [= <-]. by left.
Qed.

Lemma earliest_busy now running t :
  earliest (List.filter (busy_at now) running) = Some t -> now < t.
Proof.
  intros H. apply earliest_in, filter_In in H as [_ H]. simpl in H. lia.
Qed.

(** The pool takes the calls from the head of the queue: those begun,
    followed by those still waiting, are the queue as it was. No call
    begins before [now]. *)
Lemma run_pool_spec cap limit queue :
  forall now running running' waiting begun,
  run_pool cap limit now running queue = (running', waiting, begun) ->
  List.map snd begun ++ waiting = queue
  /\ Forall (fun b => now <= fst b) begun.
Proof.
  induction queue as [|item queue IH]; intros now running running' waiting begun.
  { intros [= <- <- <-]. by split. }
  cbn [run_pool]. cbv zeta.
  set (busy := List.filter (busy_at now) running).
  assert (Hbegin : forall t others,
    now <= t ->
    (let '(running'0, waiting0, begun0) :=
       run_pool cap limit t (finish_time t (work_run item) :: others) queue in
     (running'0, waiting0, (t, item) :: begun0)) = (running', waiting, begun) ->
    List.map snd begun ++ waiting = item :: queue
    /\ Forall (fun b => now <= fst b) begun).
  { intros t others Ht.
    destruct (run_pool cap limit t _ queue) as [[r0 w0] b0] eqn:E.
    intros [= <- <- <-]. destruct (IH _ _ _ _ _ E) as [Hq Ht'].
    split; [simpl; by rewrite Hq|].
    constructor; [done|].
    eapply Forall_impl; [exact Ht'|]. simpl. intros b Hb. lia. }
  destruct (length busy <? cap)%nat; [by apply Hbegin|].
  destruct (earliest busy) as [t|] eqn:Et;
    [|intros [= <- <- <-]; by split].
  destruct ((t <=? limit) && _); [|intros [= <- <- <-]; by split].
  apply Hbegin. apply earliest_busy in Et. lia.
Qed.

Lemma last_map_snd {A B} (l : list (A * B)) b :
  last (List.map snd l) = Some b -> exists a, last l = Some (a, b).
Proof.
  induction l as [|[a0 b0] l IH]; [discriminate|].
  destruct l as [|p l]; [intros [= <-]; by exists a0|]. exact IH.
Qed.

Lemma with_pool_setup running waiting begun clock s :
  same_setup s (with_pool running waiting begun clock s).
Proof. by repeat split. Qed.

(** What the pool does while [future.result] waits for the call that was
    submitted last. *)
Lemma future_result_spec item s0 fr s2 :
  future_result item (submit item s0) = (fr, s2) ->
  same_setup s0 s2
  /\ _execution_history s2 = _execution_history s0
  /\ submitted s2 = submitted s0 ++ [work_request item]
  /\ (exists started,
        invocations s2 = invocations s0 ++ started
        /\ started ++ queued s2 = queued s0 ++ [work_request item])
  /\ match fr with
     | Delivered o =>
         pool_queue s2 = []
         /\ exists d, work_run item = Completes d o
                      /\ clock_ms s0 + d <= clock_ms s2
                      /\ clock_ms s2 <= clock_ms s0 + wait_ms s0
     | WaitTimedOut => clock_ms s2 = clock_ms s0 + wait_ms s0
     end.
Proof.
  unfold future_result. cbv zeta.
  change (clock_ms (submit item s0)) with (clock_ms s0).
  change (wait_ms (submit item s0)) with (wait_ms s0).
  change (_max_workers (submit item s0)) with (_max_workers s0).
  change (pool_running (submit item s0)) with (pool_running s0).
  change (pool_queue (submit item s0)) with (pool_queue s0 ++ [item]).
  destruct (run_pool _ _ _ _ _) as [[running waiting] begun] eqn:Erun.
  destruct (run_pool_spec _ _ _ _ _ _ _ _ Erun) as [Hq Ht].
  assert (Hall : forall clock,
    let s2 := with_pool running waiting begun clock (submit item s0) in
    same_setup s0 s2
    /\ _execution_history s2 = _execution_history s0
    /\ submitted s2 = submitted s0 ++ [work_request item]
    /\ (exists started,
          invocations s2 = invocations s0 ++ started
          /\ started ++ queued s2 = queued s0 ++ [work_request item])).
  { intros clock. cbv zeta. split; [by repeat split|].
    split; [done|]. split; [done|].
    exists (List.map (fun b => work_request (snd b)) begun). split; [done|].
    unfold queued. simpl.
    rewrite <- (List.map_map snd work_request), <- List.map_app, Hq.
    by rewrite List.map_app. }
  assert (Hout : forall clock,
    clock = clock_ms s0 + wait_ms s0 ->
    (WaitTimedOut, with_pool running waiting begun clock (submit item s0))
    = (fr, s2) ->
    same_setup s0 s2
    /\ _execution_history s2 = _execution_history s0
    /\ submitted s2 = submitted s0 ++ [work_request item]
    /\ (exists started,
          invocations s2 = invocations s0 ++ started
          /\ started ++ queued s2 = queued s0 ++ [work_request item])
    /\ match fr with
       | Delivered o =>
           pool_queue s2 = []
           /\ exists d, work_run item = Completes d o
                        /\ clock_ms s0 + d <= clock_ms s2
                        /\ clock_ms s2 <= clock_ms s0 + wait_ms s0
       | WaitTimedOut => clock_ms s2 = clock_ms s0 + wait_ms s0
       end).
  { intros clock -> [= <- <-].
    destruct (Hall (clock_ms s0 + wait_ms s0)) as (H1 & H2 & H3 & H4).
    done. }
  destruct waiting as [|w waiting]; [|by apply Hout].
  destruct (last begun) as [[t it]|] eqn:Elast; [|by apply Hout].
  destruct (work_run item) as [d o|] eqn:Erun'; [|by apply Hout].
  destruct (Z.leb_spec (t + d) (clock_ms s0 + wait_ms s0)); [|by apply Hout].
  intros [= <- <-].
  destruct (Hall (t + d)) as (H1 & H2 & H3 & H4).
  split; [done|]. split; [done|]. split; [done|]. split; [done|].
  split; [done|]. exists d. split; [done|]. simpl.
  assert (clock_ms s0 <= t); [|lia].
  apply last_Some in Elast as [l' ->].
  apply Forall_app in Ht as [_ Ht]. by inversion Ht.
Qed.







(* ===================================================================== *)
(** ** Facts about strings and the permission check                       *)
(* ===================================================================== *)




(** The order that the check of [validate_request] really uses: that of
    the member values as strings. *)
Example tier_order_is_lexicographic :
  str_gt (tier_value ADMINISTRATOR) (tier_value OPERATOR) = false
  /\ str_gt (tier_value OPERATOR) (tier_value ADMINISTRATOR) = true
  /\ str_gt (tier_value OBSERVER) (tier_value ADMINISTRATOR) = true
  /\ str_gt (tier_value SYSTEM) (tier_value OPERATOR) = true.
Proof. repeat split; reflexivity. Qed.

(* ===================================================================== *)
(** ** [execute], case by case                                            *)
(* ===================================================================== *)

Section Execute.
Variables (s : ToolServer) (request : ToolRequest).
Variables (n : pystr) (t : RegisteredTool).
Hypothesis Htool : tool request = PyStr n.
Hypothesis Hreg : _tools s !! n = Some t.
Hypothesis Hvalid : validate_request s request = Ret None.

Lemma tools_lookup_registered : tools_lookup s (tool request) = Ret (Some t).
Proof using Htool Hreg. unfold tools_lookup. by rewrite Htool, Hreg. Qed.

(** The request stops at the confirmation gate. *)
Lemma execute_gated :
  requires_confirmation (schema t) && negb (confirmed request) = true ->
  execute s request
  = Ret (confirmation_result request (clock_ms s - clock_ms s), s).
Proof using Htool Hreg Hvalid.
  intros Hgate. unfold execute. rewrite Hvalid. simpl.
  rewrite tools_lookup_registered. simpl. by rewrite Hgate.
Qed.

(** The request is dispatched: [execute] is the [try] block. *)
Lemma execute_dispatched :
  requires_confirmation (schema t) && negb (confirmed request) = false ->
  execute s request = dispatch s request t (clock_ms s).
Proof using Htool Hreg Hvalid.
  intros Hgate. unfold execute. rewrite Hvalid. simpl.
  rewrite tools_lookup_registered. simpl. by rewrite Hgate.
Qed.
End Execute.

Lemma classify_status request v elapsed r :
  classify request v elapsed = Some r ->
  (status r = SUCCESS /\ error r = None)
  \/ (status r = FAILED /\ exists e, error r = Some (ErrHandler e)).
Proof.
  unfold classify. intros H.
  destruct v; try (injection H as <-; left; done).
  destruct (dict_get (U "error") members) as [e|].
  - injection H as <-. right. split; [done|]. by exists e.
  - destruct (match dict_get (U "side_effects") members with
              | Some ses => _ | None => _ end);
      [injection H as <-; left; done | discriminate].
Qed.

(** A validation verdict, when there is one, comes with a lookup that did
    not raise. *)
Lemma validate_ok_registered s request :
  validate_request s request = Ret None ->
  exists n t, tool request = PyStr n /\ _tools s !! n = Some t.
Proof.
  unfold validate_request, tools_lookup. intros H.
  destruct (tool request) as [| | | |n| |]; simpl in H; try discriminate.
  destruct (_tools s !! n) as [t|] eqn:E; simpl in H; [|discriminate].
  by exists n, t.
Qed.

Lemma classify_request_id request v elapsed r :
  classify request v elapsed = Some r -> res_request_id r = request_id request.
Proof.
  unfold classify. intros H.
  destruct v; try (injection H as <-; done).
  destruct (dict_get (U "error") members); [injection H as <-; done|].
  destruct (match dict_get (U "side_effects") members with
            | Some ses => _ | None => _ end);
    [injection H as <-; done | discriminate].
Qed.

(** Every result that the [try] block returns, with the server it
    leaves: the call was submitted once; the pool began calls from the
    head of its queue, this one last; the history gained the result, or
    nothing. *)
Lemma dispatch_effects s request t start r s' :
  dispatch s request t start = Ret (r, s') ->
  same_setup s s'
  /\ submitted s' = submitted s ++ [request]
  /\ (exists started,
        invocations s' = invocations s ++ started
        /\ started ++ queued s' = queued s ++ [request])
  /\ res_request_id r = request_id request
  /\ ((_execution_history s' = _execution_history s ++ [r]
       /\ ((status r = SUCCESS /\ error r = None)
           \/ (status r = FAILED /\ exists v, error r = Some (ErrHandler v))))
      \/ (_execution_history s' = _execution_history s
          /\ ((status r = TIMEOUT
               /\ error r = Some (ErrTimedOut (_timeout s))
               /\ execution_time_ms r = _timeout s * 1000)
              \/ (status r = FAILED
                  /\ (error r = Some ErrTypeError
                      \/ exists text, error r = Some (ErrException text))))))
  /\ (status r <> TIMEOUT -> pool_queue s' = [])
  /\ clock_ms s' <= clock_ms s + wait_ms s.
Proof.
  unfold dispatch. cbv zeta.
  destruct (future_result _ _) as [fr s2] eqn:Efr.
  apply future_result_spec in Efr as (Hsetup & Hhist & Hsub & Hinv & Hfr).
  simpl in Hsub, Hinv.
  destruct fr as [o|].
  2: { intros [= <- <-]. split; [done|]. split; [done|]. split; [done|].
       split; [done|]. split; [|split; [done|lia]].
       right. split; [done|]. by left. }
  destruct Hfr as (Hq & d & Hrun & Hlo & Hhi). simpl in Hrun.
  destruct o as [v|[] text]; [| | |discriminate].
  - destruct (classify request v _) as [r0|] eqn:Hc; intros [= <- <-].
    + split; [done|]. split; [done|]. split; [done|].
      split; [by apply (classify_request_id _ _ _ _ Hc)|].
      split; [|split; [done|done]].
      left. split; [simpl; by rewrite Hhist|].
      by apply classify_status in Hc.
    + split; [done|]. split; [done|]. split; [done|].
      split; [done|]. split; [|split; [done|done]].
      right. split; [done|]. right. split; [done|]. by left.
  - intros [= <- <-]. split; [done|]. split; [done|]. split; [done|].
    split; [done|]. split; [|split; [done|done]].
    right. split; [done|]. by left.
  - intros [= <- <-]. split; [done|]. split; [done|]. split; [done|].
    split; [done|]. split; [|split; [done|done]].
    right. split; [done|]. right. split; [done|]. right. by exists text.
Qed.


(** The [try] block returns a result unless the handler raised, in
    time, an exception that is no [Exception]. *)
Lemma dispatch_total s request t start :
  (exists r s', dispatch s request t start = Ret (r, s'))
  \/ (exists text d,
        dispatch s request t start = Raise (HandlerBaseException text)
        /\ handler t (arguments request)
           = Completes d (HRaise BaseExceptionOnly text)).
Proof.
  unfold dispatch. cbv zeta.
  destruct (future_result _ _) as [fr s2] eqn:Efr.
  apply future_result_spec in Efr as (_ & _ & _ & _ & Hfr).
  destruct fr as [o|]; [|left; by eexists _, _].
  destruct Hfr as (_ & d & Hrun & _). simpl in Hrun.
  destruct o as [v|[] text]; try (left; by eexists _, _).
  - left. destruct (classify request v _); by eexists _, _.
  - right. by exists text, d.
Qed.

(** The three ways through [execute]: refused by validation, held at
    the confirmation gate, or dispatched. *)
Lemma execute_inv s request r s' :
  execute s request = Ret (r, s') ->
  (s' = s
   /\ exists e, validate_request s request = Ret (Some e)
                /\ r = failed_result request e (clock_ms s - clock_ms s))
  \/ (s' = s
      /\ r = confirmation_result request (clock_ms s - clock_ms s)
      /\ exists n t,
           tool request = PyStr n /\ _tools s !! n = Some t
           /\ validate_request s request = Ret None
           /\ requires_confirmation (schema t) && negb (confirmed request)
              = true)
  \/ (exists n t,
        tool request = PyStr n /\ _tools s !! n = Some t
        /\ validate_request s request = Ret None
        /\ requires_confirmation (schema t) && negb (confirmed request)
           = false
        /\ dispatch s request t (clock_ms s) = Ret (r, s')).
Proof.
  intros Hex.
  destruct (validate_request s request) as [[e|]|] eqn:Hv.
  - left. unfold execute in Hex. rewrite Hv in Hex. simpl in Hex.
    injection Hex as <- <-. split; [done|]. by exists e.
  - destruct (validate_ok_registered _ _ Hv) as (n & t & Htool & Hreg).
    destruct (requires_confirmation (schema t) && negb (confirmed request))
      eqn:Hgate.
    + right. left.
      rewrite (execute_gated s request n t Htool Hreg Hv Hgate) in Hex.
      injection Hex as <- <-. split; [done|]. split; [done|]. by exists n, t.
    + right. right.
      rewrite (execute_dispatched s request n t Htool Hreg Hv Hgate) in Hex.
      by exists n, t.
  - unfold execute in Hex. rewrite Hv in Hex. discriminate.
Qed.

Lemma same_setup_refl s : same_setup s s.
Proof. by repeat split. Qed.

(** What every returning call of [execute] does to the server: it
    submits nothing and leaves the server as it is, or it submits the
    request, once, and the pool begins calls from the head of its
    queue. *)
Lemma execute_effects s request r s' :
  execute s request = Ret (r, s') ->
  same_setup s s'
  /\ res_request_id r = request_id request
  /\ exists started new,
       submitted s' = submitted s ++ new
       /\ (new = [] \/ new = [request])
       /\ invocations s' = invocations s ++ started
       /\ started ++ queued s' = queued s ++ new
       /\ (new = [] -> s' = s)
       /\ (new = [request] ->
           status r <> CONFIRMATION_REQUIRED
           /\ exists n t,
                tool request = PyStr n /\ _tools s !! n = Some t
                /\ validate_request s request = Ret None
                /\ requires_confirmation (schema t)
                   && negb (confirmed request) = false).
Proof.
  intros Hex.
  destruct (execute_inv _ _ _ _ Hex)
    as [(-> & e & _ & ->)|[(-> & -> & _)|(n & t & Ht & Hreg & Hv & Hg & Hd)]].
  - split; [apply same_setup_refl|]. split; [done|]. exists [], [].
    rewrite !app_nil_r. repeat split; try done. by left.
  - split; [apply same_setup_refl|]. split; [done|]. exists [], [].
    rewrite !app_nil_r. repeat split; try done. by left.
  - apply dispatch_effects in Hd
      as (Hsetup & Hsub & (started & Hinv & Hst) & Hid & Hr & _).
    split; [done|]. split; [done|]. exists started, [request].
    split; [done|]. split; [by right|]. split; [done|]. split; [done|].
    split; [discriminate|]. intros _. split; [|by exists n, t].
    destruct Hr as [(_ & [[-> _]|[-> _]])|(_ & [(-> & _)|[-> _]])]; done.
Qed.

(** The errors that validation can report are not the handler's. *)
Lemma check_required_error params args e v :
  check_required params args = Ret (Some e) -> e <> ErrHandler v.
Proof.
  induction params as [|p ps IH]; simpl; [discriminate|].
  destruct (param_required p); [|exact IH].
  destruct (py_contains args (param_name p)) as [present|]; simpl;
    [|discriminate].
  destruct (negb present && is_None (param_default p)); [|exact IH].
  intros [= <-]. discriminate.
Qed.

Lemma check_types_error params args e v :
  check_types params args = Ret (Some e) -> e <> ErrHandler v.
Proof.
  induction params as [|p ps IH]; simpl; [discriminate|].
  destruct (py_contains args (param_name p)) as [[|]|]; simpl;
    [| exact IH | discriminate].
  destruct (py_getitem args (param_name p)) as [value|]; simpl;
    [|discriminate].
  destruct (negb (_validate_type value (param_type p))); [|exact IH].
  intros [= <-]. discriminate.
Qed.

Lemma validate_request_error s request e v :
  validate_request s request = Ret (Some e) -> e <> ErrHandler v.
Proof.
  unfold validate_request.
  destruct (tools_lookup s (tool request)) as [[t|]|]; simpl;
    [| intros [= <-]; discriminate | discriminate].
  destruct (negb (enabled t)); [intros [= <-]; discriminate|].
  destruct (str_gt _ _); [intros [= <-]; discriminate|].
  destruct (check_required _ _) as [[e0|]|] eqn:Hreq; simpl;
    [| apply check_types_error | discriminate].
  intros [= <-]. by apply (check_required_error _ _ _ _ Hreq).
Qed.

(* ===================================================================== *)
(** ** The decoder consumes its input and never runs out of fuel          *)
(* ===================================================================== *)

Local Open Scope nat_scope.

Ltac break_match_in H :=
  match type of H with
  | context [match ?x with _ => _ end] => destruct x eqn:?
  end.

Lemma skip_ws_length s : length (skip_ws s) <= length s.
Proof.
  induction s as [|c s IH]; simpl; [lia|].
  destruct (json_ws c); simpl; lia.
Qed.

Lemma after_char_length c s s' :
  after_char c s = Some s' -> length s = S (length s').
Proof.
  destruct s as [|x s0]; simpl; [discriminate|].
  destruct (x =? c)%N; [|discriminate]. by intros [= ->].
Qed.

Lemma after_char_cons c s s' :
  after_char c s = Some s' -> s = c :: s'.
Proof.
  destruct s as [|x s0]; simpl; [discriminate|].
  destruct (N.eqb_spec x c); [|discriminate]. intros [= ->]. by subst.
Qed.

Lemma scanstring_length_aux n :
  forall s, length s <= n ->
  forall text rest, scanstring s = Some (text, rest) ->
  length rest < length s.
Proof.
  induction n as [|n IH]; intros s Hn text rest H.
  - destruct s; [discriminate | simpl in Hn; lia].
  - destruct s as [|c s1]; [discriminate|]. simpl in H, Hn.
    repeat break_match_in H; try discriminate;
      injection H as <- <-; subst; cbn [length] in *;
      repeat match goal with
        | E : scanstring ?x = Some _ |- _ =>
            apply IH in E; [|cbn [length] in *; lia]
        end;
      cbn [length] in *; lia.
Qed.

Lemma scanstring_length s text rest :
  scanstring s = Some (text, rest) -> length rest < length s.
Proof. by apply (scanstring_length_aux (length s)). Qed.

Lemma span_digits_length s ds rest :
  span_digits s = (ds, rest) -> length rest <= length s.
Proof.
  revert ds rest. induction s as [|c s IH]; simpl; intros ds rest.
  - intros [= <- <-]. simpl. lia.
  - destruct (is_digit c).
    + destruct (span_digits s) as [ds' rest'] eqn:E. intros [= <- <-].
      specialize (IH _ _ eq_refl). lia.
    + intros [= <- <-]. simpl. lia.
Qed.

Lemma scan_sign_length s neg s' :
  scan_sign s = (neg, s') -> length s' <= length s.
Proof.
  unfold scan_sign. destruct (after_char 45 s) as [s0|] eqn:E.
  - intros [= <- <-]. apply after_char_length in E. lia.
  - intros [= <- <-]. lia.
Qed.

Lemma scan_integer_length s ip rest :
  scan_integer s = Some (ip, rest) -> length rest < length s.
Proof.
  unfold scan_integer. destruct s as [|c s1]; [discriminate|].
  destruct (c =? 48)%N; [intros [= <- <-]; simpl; lia|].
  destruct (is_digit c); [|discriminate].
  destruct (span_digits s1) as [ds r] eqn:E. intros [= <- <-].
  apply span_digits_length in E. simpl. lia.
Qed.

Lemma scan_fraction_length s frac rest :
  scan_fraction s = (frac, rest) -> length rest <= length s.
Proof.
  unfold scan_fraction. destruct s as [|p [|d s']];
    try (intros [= <- <-]; simpl; lia).
  destruct ((p =? 46)%N && is_digit d); [|intros [= <- <-]; simpl; lia].
  destruct (span_digits s') as [ds r] eqn:E. intros [= <- <-].
  apply span_digits_length in E. simpl. lia.
Qed.

Lemma scan_exponent_length s expo rest :
  scan_exponent s = (expo, rest) -> length rest <= length s.
Proof.
  unfold scan_exponent. destruct s as [|e s']; [intros [= <- <-]; simpl; lia|].
  destruct ((e =? 101) || (e =? 69))%N; [|intros [= <- <-]; simpl; lia].
  destruct (match s' with
            | [] => ([], s')
            | sg :: t => if ((sg =? 43) || (sg =? 45))%N
                         then ([sg], t) else ([], s')
            end) as [sign s''] eqn:Es.
  assert (length s'' <= length s').
  { destruct s' as [|sg t]; [injection Es as <- <-; simpl; lia|].
    destruct ((sg =? 43) || (sg =? 45))%N; injection Es as <- <-; simpl; lia. }
  destruct (span_digits s'') as [[|d ds] r] eqn:E.
  - intros [= <- <-]. simpl. lia.
  - intros [= <- <-]. apply span_digits_length in E. simpl. lia.
Qed.

Lemma scan_number_spec s :
  scan_number s <> OutOfFuel
  /\ forall v rest, scan_number s = Scanned v rest -> length rest < length s.
Proof.
  unfold scan_number.
  destruct (scan_sign s) as [neg s0] eqn:E0.
  destruct (scan_integer s0) as [[ip s1]|] eqn:E1; [|split; discriminate].
  destruct (scan_fraction s1) as [frac s2] eqn:E2.
  destruct (scan_exponent s2) as [expo s3] eqn:E3.
  apply scan_sign_length in E0. apply scan_integer_length in E1.
  apply scan_fraction_length in E2. apply scan_exponent_length in E3.
  split.
  - destruct frac, expo; try discriminate.
    destruct (int_max_str_digits <? length ip); discriminate.
  - intros v rest H. destruct frac, expo;
      try (injection H as <- <-; lia).
    destruct (int_max_str_digits <? length ip); [discriminate|].
    injection H as <- <-. lia.
Qed.

(** A syntax error is an error: never a value, never a lack of fuel. *)
Lemma raise_errmsg_spec {A} room :
  @raise_errmsg A room <> OutOfFuel
  /\ forall (a : A) rest, raise_errmsg room <> Scanned a rest.
Proof. destruct room as [|[|[|room]]]; split; discriminate. Qed.

Ltac errmsg_case room :=
  split; [apply raise_errmsg_spec
         |intros ? ? H; by apply (proj2 (raise_errmsg_spec room)) in H].

Lemma strip_prefix_length prefix s rest :
  strip_prefix prefix s = Some rest -> length s = length prefix + length rest.
Proof.
  revert s. induction prefix as [|p prefix IH]; intros s; simpl.
  - by intros [= ->].
  - destruct s as [|c s']; [discriminate|].
    destruct (p =? c)%N; [|discriminate]. intros H. apply IH in H.
    simpl. lia.
Qed.

Lemma scan_constant_length s v rest :
  scan_constant s = Some (v, rest) -> length rest < length s.
Proof.
  unfold scan_constant. intros H.
  repeat break_match_in H; try discriminate; injection H as <- <-;
    match goal with
    | E : strip_prefix _ _ = Some _ |- _ =>
        apply strip_prefix_length in E; simpl in E; lia
    end.
Qed.

(** With more than twice the length of the text as fuel, the three
    scanners end without exhausting it, and what they leave is shorter
    than what they were given. *)
Lemma scan_fuel_enough fuel :
  (forall room s, 2 * length s < fuel ->
     scan_once fuel room s <> OutOfFuel
     /\ forall v rest, scan_once fuel room s = Scanned v rest ->
                       length rest < length s)
  /\ (forall room s acc, 2 * length s < fuel ->
     scan_members fuel room s acc <> OutOfFuel
     /\ forall d rest, scan_members fuel room s acc = Scanned d rest ->
                       length rest < length s)
  /\ (forall room s acc, 2 * length s + 1 < fuel ->
     scan_items fuel room s acc <> OutOfFuel
     /\ forall l rest, scan_items fuel room s acc = Scanned l rest ->
                       length rest < length s).
Proof.
  induction fuel as [|f (IHonce & IHmem & IHitems)].
  { repeat split; intros; lia. }
  split; [|split].
  - intros room s Hf. destruct s as [|c s1]; simpl; [split; discriminate|].
    simpl in Hf. pose proof (skip_ws_length s1) as Hws.
    destruct (c =? 34)%N.
    { destruct (scanstring s1) as [[text rest]|] eqn:E; [|errmsg_case room].
      apply scanstring_length in E.
      split; [discriminate|]. intros v r [= <- <-]. lia. }
    destruct (c =? 123)%N.
    { destruct room as [|inner]; [split; discriminate|].
      destruct (after_char 125 (skip_ws s1)) as [rest|] eqn:E.
      - apply after_char_length in E.
        split; [discriminate|]. intros v r [= <- <-]. lia.
      - destruct (IHmem inner (skip_ws s1) [] ltac:(lia)) as [Hne Hlen].
        destruct (scan_members f inner (skip_ws s1) []) as [d rest| | |];
          [|split; discriminate|split; discriminate|done].
        split; [discriminate|]. intros v r [= <- <-].
        specialize (Hlen _ _ eq_refl). lia. }
    destruct (c =? 91)%N.
    { destruct room as [|inner]; [split; discriminate|].
      destruct (after_char 93 (skip_ws s1)) as [rest|] eqn:E.
      - apply after_char_length in E.
        split; [discriminate|]. intros v r [= <- <-]. lia.
      - destruct (IHitems inner (skip_ws s1) [] ltac:(lia)) as [Hne Hlen].
        destruct (scan_items f inner (skip_ws s1) []) as [l rest| | |];
          [|split; discriminate|split; discriminate|done].
        split; [discriminate|]. intros v r [= <- <-].
        specialize (Hlen _ _ eq_refl). lia. }
    destruct (scan_constant (c :: s1)) as [[v rest]|] eqn:E.
    { apply scan_constant_length in E. simpl in E.
      split; [discriminate|]. intros v' r [= <- <-]. simpl. lia. }
    apply (scan_number_spec (c :: s1)).
  - intros room s acc Hf. simpl.
    destruct (after_char 34 s) as [s1|] eqn:E1; [|errmsg_case room].
    apply after_char_length in E1.
    destruct (scanstring s1) as [[key s2]|] eqn:E2; [|errmsg_case room].
    apply scanstring_length in E2.
    pose proof (skip_ws_length s2) as Hws2.
    destruct (after_char 58 (skip_ws s2)) as [s3|] eqn:E3;
      [|errmsg_case room].
    apply after_char_length in E3.
    pose proof (skip_ws_length s3) as Hws3.
    destruct (IHonce room (skip_ws s3) ltac:(lia)) as [Hne Hlen].
    destruct (scan_once f room (skip_ws s3)) as [v s4| | |];
      [|split; discriminate|split; discriminate|done].
    specialize (Hlen _ _ eq_refl).
    pose proof (skip_ws_length s4) as Hws4.
    destruct (after_char 125 (skip_ws s4)) as [rest|] eqn:E4.
    { apply after_char_length in E4.
      split; [discriminate|]. intros d r [= <- <-]. lia. }
    destruct (after_char 44 (skip_ws s4)) as [s5|] eqn:E5;
      [|errmsg_case room].
    apply after_char_length in E5.
    pose proof (skip_ws_length s5) as Hws5.
    destruct (IHmem room (skip_ws s5) (dict_set key v acc) ltac:(lia))
      as [Hne' Hlen'].
    split; [done|]. intros d r H. apply Hlen' in H. lia.
  - intros room s acc Hf. simpl.
    destruct (IHonce room s ltac:(lia)) as [Hne Hlen].
    destruct (scan_once f room s) as [v s1| | |];
      [|split; discriminate|split; discriminate|done].
    specialize (Hlen _ _ eq_refl).
    pose proof (skip_ws_length s1) as Hws1.
    destruct (after_char 93 (skip_ws s1)) as [rest|] eqn:E4.
    { apply after_char_length in E4.
      split; [discriminate|]. intros d r [= <- <-]. lia. }
    destruct (after_char 44 (skip_ws s1)) as [s2|] eqn:E5;
      [|errmsg_case room].
    apply after_char_length in E5.
    pose proof (skip_ws_length s2) as Hws2.
    destruct (IHitems room (skip_ws s2) (acc ++ [v]) ltac:(lia)) as [Hne' Hlen'].
    split; [done|]. intros d r H. apply Hlen' in H. lia.
Qed.

(** The fuel of [json_loads] is never what ends the scan: every error it
    reports is one that the decoder raises. *)
Lemma json_loads_fuel room s :
  scan_once (json_fuel s) room (skip_ws s) <> OutOfFuel.
Proof.
  apply scan_fuel_enough. unfold json_fuel.
  pose proof (skip_ws_length s). lia.
Qed.

Local Close Scope nat_scope.

(* ===================================================================== *)
(** ** A candidate that starts with a brace decodes to a [dict]           *)
(* ===================================================================== *)

Lemma json_ws_is_space c : json_ws c = true -> is_space c = true.
Proof.
  unfold json_ws. rewrite !orb_true_iff, !N.eqb_eq.
  intros [[[->| ->]| ->]| ->]; reflexivity.
Qed.

Lemma is_space_not_digit c : is_space c = true -> is_digit c = false.
Proof.
  intros Hsp. unfold is_digit.
  destruct (N.leb_spec 48 c); [|done]. destruct (N.leb_spec c 57); [|done].
  exfalso.
  assert (c = 48 \/ c = 49 \/ c = 50 \/ c = 51 \/ c = 52 \/ c = 53
          \/ c = 54 \/ c = 55 \/ c = 56 \/ c = 57)%N as Hc by lia.
  repeat (destruct Hc as [-> | Hc]; [vm_compute in Hsp; discriminate|]).
  subst. vm_compute in Hsp. discriminate.
Qed.

Ltac space_is_not Hsp :=
  repeat match goal with
    | |- context [(?a =? ?b)%N] =>
        destruct (N.eqb_spec a b);
        [subst; vm_compute in Hsp; discriminate|]
    end.

(** No JSON value starts with a character that [str.strip] removes. *)
Lemma scan_once_space fuel room c r :
  is_space c = true ->
  scan_once fuel room (c :: r) = Malformed
  \/ scan_once fuel room (c :: r) = OutOfFuel.
Proof.
  intros Hsp. destruct fuel as [|f]; [by right|]. left.
  cbn [scan_once]. space_is_not Hsp.
  unfold scan_constant. cbn. space_is_not Hsp.
  unfold scan_number, scan_sign, after_char. space_is_not Hsp.
  unfold scan_integer. space_is_not Hsp.
  by rewrite (is_space_not_digit _ Hsp).
Qed.

Lemma scan_once_brace fuel room r v rest :
  scan_once fuel room (123%N :: r) = Scanned v rest -> exists d, v = PyDict d.
Proof.
  destruct fuel as [|f]; [discriminate|]. cbn [scan_once].
  change (123 =? 34)%N with false. change (123 =? 123)%N with true.
  cbv iota. destruct room as [|inner]; [discriminate|].
  destruct (after_char 125 (skip_ws r)); [intros [= <- _]; by eexists|].
  destruct (scan_members f inner (skip_ws r) []); try discriminate.
  intros [= <- _]. by eexists.
Qed.

Lemma lstrip_snoc a x :
  is_space x = false -> exists a', lstrip (a ++ [x]) = a' ++ [x].
Proof.
  intros Hx. induction a as [|c a IH]; simpl.
  - rewrite Hx. by exists [].
  - destruct (is_space c); [exact IH|]. by exists (c :: a).
Qed.

Lemma lstrip_head s x r :
  lstrip s = x :: r -> is_space x = false.
Proof.
  induction s as [|c s IH]; simpl; [discriminate|].
  destruct (is_space c) eqn:E; [exact IH|]. by intros [= <- _].
Qed.

Lemma strip_head s x r :
  lstrip s = x :: r -> exists r', strip s = x :: r'.
Proof.
  intros H. unfold strip, rstrip. rewrite H.
  pose proof (lstrip_head _ _ _ H) as Hx.
  change (rev (x :: r)) with (rev r ++ [x]).
  destruct (lstrip_snoc (rev r) x Hx) as [a' ->].
  rewrite rev_app_distr. simpl. by eexists.
Qed.

Lemma strip_nil s : lstrip s = [] -> strip s = [].
Proof. intros H. unfold strip, rstrip. by rewrite H. Qed.

(** What the JSON scanner sees first when the stripped text starts with a
    brace: the brace, or a space that is no JSON whitespace. *)
Lemma skip_ws_of_braced s :
  str_startswith [123%N] (strip s) = true ->
  (exists r, skip_ws s = 123%N :: r)
  \/ (exists c r, skip_ws s = c :: r /\ is_space c = true).
Proof.
  intros H.
  assert (Hl : exists r, lstrip s = 123%N :: r).
  { destruct (lstrip s) as [|x r] eqn:E.
    - by rewrite (strip_nil _ E) in H.
    - destruct (strip_head _ _ _ E) as [r' Hr']. rewrite Hr' in H.
      cbn [str_startswith] in H. rewrite andb_true_r in H.
      apply N.eqb_eq in H.
      subst. by exists r. }
  clear H. destruct Hl as [r Hl].
  induction s as [|c s IH]; simpl in *; [discriminate|].
  destruct (json_ws c) eqn:Ews.
  - rewrite (json_ws_is_space _ Ews) in Hl. auto.
  - destruct (is_space c) eqn:Esp.
    + right. by exists c, s.
    + left. injection Hl as -> ->. by exists r.
Qed.

Lemma json_loads_braced spare s v :
  str_startswith [123%N] (strip s) = true ->
  json_loads spare s = Ret v ->
  exists d, v = PyDict d.
Proof.
  intros Hb. unfold json_loads.
  destruct (scan_once (json_fuel s) (scanner_levels spare) (skip_ws s))
    as [v0 rest| | |] eqn:E; try discriminate.
  destruct (skip_ws rest); [|discriminate]. intros [= <-].
  destruct (skip_ws_of_braced s Hb) as [[r Hr]|(c & r & Hr & Hsp)];
    rewrite Hr in E.
  - by apply scan_once_brace in E.
  - destruct (scan_once_space (json_fuel s) (scanner_levels spare) c r Hsp);
      congruence.
Qed.

(* ===================================================================== *)
(** ** [_parse_tool_call] against the ordered strategies                  *)
(* ===================================================================== *)

Lemma dict_mem_get k d :
  dict_mem k d = true -> exists v, dict_get k d = Some v.
Proof. unfold dict_mem. destruct (dict_get k d); [by eexists|discriminate]. Qed.

Lemma try_candidate_spec spare rid json_str :
  try_candidate spare rid json_str
  = as_request rid (object_with_tool spare json_str).
Proof.
  unfold try_candidate, object_with_tool, as_request.
  destruct (str_startswith [123%N] (strip json_str)) eqn:Hb; [|done].
  cbn [negb]. cbv iota.
  destruct (json_loads spare json_str) as [data|e] eqn:Hj;
    [|by destruct e].
  destruct (json_loads_braced _ _ _ Hb Hj) as [d ->].
  unfold py_contains, bind.
  destruct (dict_mem (U "tool") d) eqn:Hm; [|done].
  destruct (dict_mem_get _ _ Hm) as [v Hv].
  unfold py_getitem, get_arguments, request_of_object, dict_get_default.
  simpl. by rewrite !Hv.
Qed.

Lemma try_candidates_spec spare rid cands :
  try_candidates spare rid cands
  = as_request rid (first_success (object_with_tool spare) cands).
Proof.
  induction cands as [|c cands IH]; [done|].
  cbn [try_candidates first_success]. rewrite try_candidate_spec.
  unfold as_request at 1. unfold bind at 1 2.
  destruct (object_with_tool spare c) as [[d|]|e]; [done| |done].
  simpl. exact IH.
Qed.

Lemma first_success_app {A B} (f : A -> outcome (option B)) l1 l2 :
  first_success f (l1 ++ l2)
  = let* r := first_success f l1 in
    match r with
    | Some b => Ret (Some b)
    | None => first_success f l2
    end.
Proof.
  induction l1 as [|a l1 IH]; [done|]. simpl.
  destruct (f a) as [[b|]|e]; [done| |done]. exact IH.
Qed.

Lemma try_matches_spec spare rid matches :
  try_matches spare rid matches
  = as_request rid
      (first_success (object_with_tool spare)
         (flat_map candidates_of matches)).
Proof.
  induction matches as [|m matches IH]; [done|].
  cbn [try_matches flat_map]. rewrite try_candidates_spec, first_success_app.
  unfold as_request at 1. unfold bind at 1 2.
  destruct (first_success (object_with_tool spare) (candidates_of m))
    as [[d|]|e]; [done| |done].
  simpl. exact IH.
Qed.

Lemma try_patterns_spec spare rid patterns text :
  try_patterns spare rid patterns text
  = as_request rid (first_success (strategy spare text) patterns).
Proof.
  induction patterns as [|p patterns IH]; [done|].
  cbn [try_patterns first_success]. rewrite try_matches_spec.
  unfold as_request at 1. unfold bind at 1 2.
  unfold strategy at 1, strategy_candidates.
  destruct (first_success (object_with_tool spare) _) as [[d|]|e];
    [done| |done].
  simpl. exact IH.
Qed.

(** The extraction is the ordered-strategies reading of the
    specification, with what the decoder raises passed on. *)
Lemma parse_tool_call_refines spare rid text :
  _parse_tool_call spare rid text
  = extract_by_strategies spare rid json_patterns text.
Proof.
  unfold _parse_tool_call, extract_by_strategies.
  rewrite try_patterns_spec. unfold as_request, bind.
  by destruct (first_success (strategy spare text) json_patterns)
    as [[d|]|e].
Qed.

(* ===================================================================== *)
(** ** The brace counter on well-nested spans                             *)
(* ===================================================================== *)

Lemma nonempty_snoc {A} (l : list A) x : nonempty (l ++ [x]) = true.
Proof. by destruct l. Qed.

(** While the counter is inside an object, it keeps collecting until the
    depth is back at zero, and then emits what it collected. *)
Lemma split_objects_span s :
  forall brace_count current acc rest,
  0 < brace_count
  \/ (brace_count = 0 /\ str_startswith [123%N] s = true) ->
  closes_at_end brace_count s = true ->
  split_objects (s ++ rest) brace_count current acc
  = split_objects rest 0 [] (acc ++ [current ++ s]).
Proof.
  induction s as [|c s IH]; intros bc cur acc rest Hbc Hclose;
    [discriminate|].
  cbn [closes_at_end] in Hclose. cbn [app split_objects].
  unfold depth_after in Hclose.
  assert (Hstep : forall d, 0 < d -> closes_at_end d s = true ->
            split_objects (s ++ rest) d (cur ++ [c]) acc
            = split_objects rest 0 [] (acc ++ [cur ++ c :: s])).
  { intros d Hd Hc. rewrite (IH d (cur ++ [c]) acc rest); [|by left|done].
    by rewrite <- app_assoc. }
  destruct (N.eqb_spec c 123) as [->|Hno].
  - change (123 =? 125)%N with false. cbv iota.
    assert ((0 <? bc + 1) = true) as -> by (apply Z.ltb_lt; lia).
    destruct s as [|c' s'].
    + apply Z.eqb_eq in Hclose. lia.
    + apply andb_true_iff in Hclose as [Hd Hc]. apply Z.ltb_lt in Hd.
      by apply Hstep.
  - assert (Hpos : 0 < bc).
    { destruct Hbc as [?|[_ Hs]]; [done|].
      cbn [str_startswith] in Hs. rewrite andb_true_r in Hs.
      apply N.eqb_eq in Hs. congruence. }
    assert ((0 <? bc) = true) as -> by (by apply Z.ltb_lt).
    destruct (N.eqb_spec c 125) as [->|Hnc].
    + destruct s as [|c' s'].
      * apply Z.eqb_eq in Hclose. rewrite Hclose, nonempty_snoc. done.
      * apply andb_true_iff in Hclose as [Hd Hc]. apply Z.ltb_lt in Hd.
        assert ((bc - 1 =? 0) = false) as -> by (apply Z.eqb_neq; lia).
        by apply Hstep.
    + destruct s as [|c' s'].
      * apply Z.eqb_eq in Hclose. lia.
      * apply andb_true_iff in Hclose as [Hd Hc]. apply Z.ltb_lt in Hd.
        by apply Hstep.
Qed.

(** Outside of any object, characters other than braces are passed over. *)
Lemma split_objects_skip w :
  forall acc rest,
  avoids 123 w = true -> avoids 125 w = true ->
  split_objects (w ++ rest) 0 [] acc = split_objects rest 0 [] acc.
Proof.
  induction w as [|c w IH]; intros acc rest Ho Hc; [done|].
  cbn [avoids forallb] in Ho, Hc.
  apply andb_true_iff in Ho as [Ho1 Ho]. apply andb_true_iff in Hc as [Hc1 Hc].
  apply negb_true_iff in Ho1. apply negb_true_iff in Hc1.
  cbn [app split_objects]. rewrite Ho1, Hc1. cbv iota.
  change (0 <? 0) with false. cbv iota. by apply IH.
Qed.

(** Two object spans in one matched span, with anything free of braces
    around and between them, are cut apart in their order. *)
Lemma candidates_of_two_objects w0 o1 w1 o2 w2 :
  is_object_span o1 = true -> is_object_span o2 = true ->
  avoids 123 (w0 ++ w1 ++ w2) = true -> avoids 125 (w0 ++ w1 ++ w2) = true ->
  candidates_of (w0 ++ o1 ++ w1 ++ o2 ++ w2) = [o1; o2].
Proof.
  unfold is_object_span, avoids. rewrite !forallb_app, !andb_true_iff.
  intros [Hs1 Hc1] [Hs2 Hc2] (Ho0 & Ho1 & Ho2) (Hb0 & Hb1 & Hb2).
  unfold candidates_of.
  rewrite split_objects_skip by done.
  rewrite split_objects_span by (done || by right).
  rewrite split_objects_skip by done.
  rewrite split_objects_span by (done || by right).
  rewrite <- (app_nil_r w2), split_objects_skip by done.
  reflexivity.
Qed.

(* ===================================================================== *)
(** ** The matcher on fenced text                                         *)
(* ===================================================================== *)

Section Repetition.
Variable next : pystr -> option match_result.
Variables (ic : bool) (cs : charset).

(** A greedy repetition that can go on over [a] and then succeeds,
    succeeds from before [a]. *)
Lemma rep_greedy_take min a :
  forall count s r,
  forallb (in_charset ic cs) a = true ->
  rep_match next ic true min cs (count + length a) s = Some r ->
  rep_match next ic true min cs count (a ++ s) = Some r.
Proof.
  induction a as [|x a IH]; intros count s r Ha Hr.
  - by rewrite Nat.add_0_r in Hr.
  - cbn [forallb] in Ha. apply andb_true_iff in Ha as [Hx Ha].
    cbn [app rep_match]. rewrite Hx.
    rewrite (IH (S count) s r Ha); [done|].
    by replace (S count + length a)%nat with (count + length (x :: a))%nat
      by (simpl; lia).
Qed.

(** At a character outside the class, a repetition can only stop. *)
Lemma rep_stop greedy min count s :
  match s with
  | x :: _ => in_charset ic cs x = false
  | [] => True
  end ->
  rep_match next ic greedy min cs count s
  = if (min <=? count)%nat then next s else None.
Proof.
  intros Hs. destruct s as [|x s]; cbn [rep_match].
  - destruct greedy; [done|]. by destruct (if (min <=? count)%nat then _ else _).
  - rewrite Hs. destruct greedy; [done|].
    by destruct (if (min <=? count)%nat then _ else _).
Qed.

(** A greedy repetition fails when what follows it fails after every
    number of characters it could take. *)
Lemma rep_greedy_none u :
  forall count,
  (forall j, (j <= length u)%nat ->
     forallb (in_charset ic cs) (take j u) = true ->
     next (drop j u) = None) ->
  rep_match next ic true 0 cs count u = None.
Proof.
  induction u as [|x u IH]; intros count Hnone; cbn [rep_match].
  - exact (Hnone O ltac:(simpl; lia) eq_refl).
  - destruct (in_charset ic cs x) eqn:Hx.
    + rewrite IH.
      * exact (Hnone O ltac:(simpl; lia) eq_refl).
      * intros j Hj Htake.
        apply (Hnone (S j)); [simpl; lia|]. cbn [take forallb].
        by rewrite Hx, Htake.
    + exact (Hnone O ltac:(simpl; lia) eq_refl).
Qed.

(** A lazy repetition stops at the first place where what follows it
    succeeds. *)
Lemma rep_lazy_first a :
  forall count s r,
  forallb (in_charset ic cs) a = true ->
  (forall j, (j < length a)%nat -> next (drop j a ++ s) = None) ->
  next s = Some r ->
  rep_match next ic false 0 cs count (a ++ s) = Some r.
Proof.
  induction a as [|x a IH]; intros count s r Ha Hnone Hr.
  - cbn [app]. destruct s; cbn [rep_match]; by rewrite Hr.
  - cbn [forallb] in Ha. apply andb_true_iff in Ha as [Hx Ha].
    cbn [app rep_match].
    rewrite (Hnone O ltac:(simpl; lia)) at 1. rewrite Hx.
    apply IH; [done| |done].
    intros j Hj. apply (Hnone (S j)). simpl. lia.
Qed.
End Repetition.

Lemma lit_matches_refl ic c : lit_matches ic c c = true.
Proof. unfold lit_matches. destruct ic; apply N.eqb_refl. Qed.

Lemma rmatch_lits ic l p s g_open g_close :
  rmatch ic (List.map Lit l ++ p) (l ++ s) g_open g_close
  = rmatch ic p s g_open g_close.
Proof.
  induction l as [|c l IH]; [done|].
  cbn [List.map app rmatch]. by rewrite lit_matches_refl.
Qed.

(** Case folding changes a character only into a small letter. *)
Lemma casefold_range x :
  casefold x = x \/ (97 <= casefold x <= 122)%N.
Proof.
  unfold casefold.
  destruct ((65 <=? x) && (x <=? 90))%N eqn:E1.
  { apply andb_true_iff in E1 as [H1 H2].
    apply N.leb_le in H1. apply N.leb_le in H2. right. lia. }
  destruct ((x =? 304) || (x =? 305))%N; [right; lia|].
  destruct (x =? 8490)%N; [right; lia|].
  destruct (x =? 383)%N; [right; lia|]. by left.
Qed.

(** The backtick and the angle bracket have no other case. *)
Lemma casefold_uncased c x :
  (c = 96 \/ c = 60)%N -> lit_matches true c x = false <-> x <> c.
Proof.
  intros Hc. unfold lit_matches. rewrite N.eqb_neq.
  assert (casefold c = c) as -> by (destruct Hc as [-> | ->]; reflexivity).
  destruct (casefold_range x) as [-> | Hx]; [split; congruence|].
  split; [|lia]. intros _ ->.
  destruct Hc as [-> | ->]; vm_compute in Hx; destruct Hx as [H1 H2];
    [apply H1 | apply H1]; reflexivity.
Qed.

Lemma match_at_first_lit c p x s :
  lit_matches true c x = false -> match_at true (Lit c :: p) (x :: s) = None.
Proof. intros H. unfold match_at. cbn [rmatch]. by rewrite H. Qed.

(** [findall] passes over text in which the first literal of the pattern
    does not occur. *)
Lemma findall_skip_prefix c p pre s :
  avoids c pre = true -> (c = 96 \/ c = 60)%N ->
  findall true (Lit c :: p) (pre ++ s) = findall true (Lit c :: p) s.
Proof.
  intros Hpre Hc. unfold findall.
  induction pre as [|x pre IH]; [done|].
  cbn [avoids forallb] in Hpre. apply andb_true_iff in Hpre as [Hx Hpre].
  apply negb_true_iff, N.eqb_neq in Hx.
  cbn [app findall_from]. rewrite match_at_first_lit; [by apply IH|].
  by apply casefold_uncased.
Qed.

Lemma findall_absent c p s :
  avoids c s = true -> (c = 96 \/ c = 60)%N ->
  findall true (Lit c :: p) s = [].
Proof.
  intros Hs Hc. rewrite <- (app_nil_r s).
  by rewrite findall_skip_prefix.
Qed.

(** After a match, [findall] resumes where the match ended. *)
Lemma findall_from_skip ic p a :
  forall s, findall_from ic p (length a) (a ++ s) = findall_from ic p O s.
Proof. induction a as [|x a IH]; intros s; [done|]. cbn. apply IH. Qed.

Lemma findall_match ic p s m a :
  match_at ic p s = Some m ->
  s = a ++ after m -> a <> [] ->
  findall ic p s = group1 m :: findall ic p (after m).
Proof.
  intros Hm Hs Ha. destruct a as [|x a]; [done|].
  rewrite Hs in Hm |- *. unfold findall.
  cbn [app findall_from]. cbn [app] in Hm. rewrite Hm.
  f_equal.
  replace (length (x :: a ++ after m) - length (after m) - 1)%nat
    with (length a) by (cbn [length]; rewrite length_app; lia).
  apply findall_from_skip.
Qed.

Lemma forallb_any ic s : forallb (in_charset ic CAny) s = true.
Proof. by induction s. Qed.

Lemma backtick_is_not_space : is_space 96 = false.
Proof. reflexivity. Qed.

(** Inside a span that ends with a character other than a space and has
    no backtick, a run of spaces is followed by a character of the span. *)
Lemma space_run_inside f :
  forall e T k,
  avoids 96 (f ++ [e]) = true -> is_space e = false ->
  forallb (in_charset true CSpace) (take k (f ++ e :: T)) = true ->
  exists y r, drop k (f ++ e :: T) = y :: r /\ y <> 96%N.
Proof.
  induction f as [|x f IH]; intros e T k Hav He Hk.
  - cbn [app avoids forallb] in *. rewrite andb_true_r in Hav.
    apply negb_true_iff, N.eqb_neq in Hav.
    destruct k as [|k].
    + exists e, T. by rewrite drop_0.
    + cbn [take forallb in_charset] in Hk. by rewrite He in Hk.
  - cbn [app avoids forallb] in Hav. apply andb_true_iff in Hav as [Hx Hav].
    apply negb_true_iff, N.eqb_neq in Hx.
    destruct k as [|k].
    + exists x, (f ++ e :: T). by rewrite drop_0.
    + cbn [app take forallb] in Hk. apply andb_true_iff in Hk as [_ Hk].
      cbn [app drop]. by apply IH.
Qed.

Section Fence.
Variables (opening : pystr) (ws1 body ws2 tail : pystr).
Hypothesis Hws1 : forallb is_space ws1 = true.
Hypothesis Hws2 : forallb is_space ws2 = true.
Hypothesis Hbackticks : avoids 96 body = true.
Hypothesis Hhead : exists b r, body = b :: r /\ is_space b = false.
Hypothesis Hlast : exists f e, body = f ++ [e] /\ is_space e = false.

Let closing : pystr := ws2 ++ U "```" ++ tail.

(** Before the end of the body, the closing part of the pattern does
    not match. *)
Lemma closing_fails_inside g_open g_close j :
  (j < length body)%nat ->
  rmatch true (GroupClose :: Rep true 0 CSpace :: lits "```")
    (drop j body ++ closing) g_open g_close = None.
Proof using Hbackticks Hlast.
  intros Hj. destruct Hlast as (f & e & Hbody & He).
  assert (Hd : exists f', drop j body = f' ++ [e]
                          /\ avoids 96 (f' ++ [e]) = true).
  { rewrite Hbody in Hj |- *. rewrite length_app in Hj. simpl in Hj.
    exists (drop j f). rewrite drop_app_le by lia. split; [done|].
    rewrite Hbody in Hbackticks. unfold avoids in *.
    rewrite forallb_app in Hbackticks |- *.
    apply andb_true_iff in Hbackticks as [Hf Hb]. rewrite Hb, andb_true_r.
    rewrite <- (take_drop j f), forallb_app in Hf.
    by apply andb_true_iff in Hf as [_ ?]. }
  destruct Hd as (f' & -> & Hav).
  cbn [rmatch]. apply rep_greedy_none. intros k _ Hk.
  rewrite <- app_assoc in Hk |- *. cbn [app] in Hk |- *.
  destruct (space_run_inside f' e closing k Hav He Hk) as (y & r & -> & Hy).
  change (lits "```") with [Lit 96%N; Lit 96%N; Lit 96%N].
  cbn [rmatch]. apply (casefold_uncased 96 y (or_introl eq_refl)) in Hy.
  by rewrite Hy.
Qed.

(** At the end of the body it does, and the group ends there. *)
Lemma closing_matches g_open g_close :
  rmatch true (GroupClose :: Rep true 0 CSpace :: lits "```")
    closing g_open g_close
  = Some (finish g_open closing tail).
Proof using Hws2.
  cbn [rmatch]. unfold closing.
  apply rep_greedy_take; [exact Hws2|].
  rewrite rep_stop by (cbn; reflexivity). cbn [Nat.leb].
  rewrite <- (app_nil_r (lits "```")). unfold lits.
  by rewrite rmatch_lits.
Qed.

(** The fenced block is matched as a whole, whatever tag [opening]
    spells. *)
Lemma fence_match :
  match_at true (List.map Lit opening ++ spaced_group ++ lits "```")
    (opening ++ ws1 ++ body ++ closing)
  = Some {| group1 := body; after := tail |}.
Proof using Hws1 Hws2 Hbackticks Hhead Hlast.
  unfold match_at. rewrite rmatch_lits.
  unfold spaced_group. cbn [app rmatch].
  apply rep_greedy_take; [exact Hws1|].
  destruct Hhead as (b & r & Hbody & Hb).
  rewrite rep_stop by (rewrite Hbody; cbn; exact Hb).
  cbn [Nat.leb rmatch].
  rewrite (rep_lazy_first _ true CAny body 0 closing
             (finish (body ++ closing) closing tail)).
  - unfold finish. f_equal.
    rewrite length_app.
    replace (length body + length closing - length closing)%nat
      with (length body) by lia.
    by rewrite take_app_length.
  - apply forallb_any.
  - intros j Hj. exact (closing_fails_inside (body ++ closing) [] j Hj).
  - exact (closing_matches (body ++ closing) []).
Qed.
End Fence.

Lemma closes_at_end_last s :
  forall depth,
  0 < depth \/ (depth = 0 /\ str_startswith [123%N] s = true) ->
  closes_at_end depth s = true ->
  exists f, s = f ++ [125%N].
Proof.
  induction s as [|c s IH]; intros depth Hd Hc; [discriminate|].
  cbn [closes_at_end] in Hc. unfold depth_after in Hc.
  destruct s as [|c' s'].
  - exists []. simpl. f_equal. apply Z.eqb_eq in Hc.
    destruct (N.eqb_spec c 123) as [->|Hno].
    + lia.
    + destruct (N.eqb_spec c 125) as [->|Hnc]; [done|].
      destruct Hd as [?|[_ Hs]]; [lia|].
      cbn [str_startswith] in Hs. rewrite andb_true_r in Hs.
      apply N.eqb_eq in Hs. congruence.
  - apply andb_true_iff in Hc as [Hpos Hc]. apply Z.ltb_lt in Hpos.
    destruct (IH _ (or_introl Hpos) Hc) as [f Hf].
    exists (c :: f). by rewrite Hf.
Qed.

Lemma object_span_ends o :
  is_object_span o = true ->
  (exists r, o = 123%N :: r) /\ (exists f, o = f ++ [125%N]).
Proof.
  unfold is_object_span. intros [Hs Hc]%andb_true_iff. split.
  - destruct o as [|c r]; [discriminate|].
    cbn [str_startswith] in Hs. rewrite andb_true_r in Hs.
    apply N.eqb_eq in Hs. subst. by exists r.
  - apply (closes_at_end_last o 0); [by right|done].
Qed.

Lemma spaces_avoid c ws :
  is_space c = false -> forallb is_space ws = true -> avoids c ws = true.
Proof.
  intros Hc. unfold avoids. induction ws as [|x ws IH]; [done|].
  cbn [forallb]. intros [Hx Hws]%andb_true_iff. rewrite IH by done.
  rewrite andb_true_r. apply negb_true_iff, N.eqb_neq. congruence.
Qed.

Lemma avoids_app c a b : avoids c (a ++ b) = avoids c a && avoids c b.
Proof. apply forallb_app. Qed.

Section FencedReply.
Variables (pre ws1 o1 w o2 ws2 tail : pystr).
Hypothesis Hpre : avoids 96 pre = true /\ avoids 60 pre = true.
Hypothesis Hws : forallb is_space ws1 = true /\ forallb is_space ws2 = true.
Hypothesis Hobjects : is_object_span o1 = true /\ is_object_span o2 = true.
Hypothesis Hbetween : avoids 123 w = true /\ avoids 125 w = true.
Hypothesis Hbody :
  avoids 96 (o1 ++ w ++ o2) = true /\ avoids 60 (o1 ++ w ++ o2) = true.
Hypothesis Htail : avoids 60 tail = true.

Let text := fenced_reply pre ws1 o1 w o2 ws2 tail.

(** The tag strategy finds nothing: there is no angle bracket. *)
Lemma fenced_no_python_tags spare :
  strategy spare text pattern_python_tags = Ret None.
Proof using Hpre Hws Hbody Htail.
  unfold strategy, strategy_candidates.
  change pattern_python_tags
    with (Lit 60%N :: (lits "|python_start|>" ++ spaced_group
                       ++ lits "<|python_end|>")).
  rewrite findall_absent; [done| |by right].
  unfold text, fenced_reply. rewrite !avoids_app.
  destruct Hpre as [_ ->], Hbody as [_ Hb], Hws as [H1 H2].
  rewrite !avoids_app in Hb. rewrite Hb, Htail.
  rewrite (spaces_avoid 60 ws1), (spaces_avoid 60 ws2) by done.
  reflexivity.
Qed.

(** The fence strategy cuts the block into the two objects, in order,
    before anything that follows. *)
Lemma fenced_candidates :
  exists more,
    strategy_candidates pattern_json_fence text = [o1; o2] ++ more.
Proof using Hpre Hws Hobjects Hbetween Hbody.
  unfold strategy_candidates.
  change pattern_json_fence
    with (Lit 96%N :: (lits "``json" ++ spaced_group ++ lits "```")).
  unfold text, fenced_reply.
  rewrite findall_skip_prefix; [|by destruct Hpre|by left].
  change (Lit 96%N :: (lits "``json" ++ spaced_group ++ lits "```"))
    with (List.map Lit (U "```json") ++ spaced_group ++ lits "```").
  destruct Hobjects as [H1 H2].
  destruct (object_span_ends o1 H1) as [[r1 Hr1] _].
  destruct (object_span_ends o2 H2) as [_ [f2 Hf2]].
  assert (Hhead : exists b r, o1 ++ w ++ o2 = b :: r /\ is_space b = false).
  { exists 123%N, (r1 ++ w ++ o2). by rewrite Hr1. }
  assert (Hlast : exists f e, o1 ++ w ++ o2 = f ++ [e] /\ is_space e = false).
  { exists (o1 ++ w ++ f2), 125%N.
    split; [by rewrite Hf2, <- !app_assoc | done]. }
  assert (Hm := fence_match (U "```json") ws1 (o1 ++ w ++ o2) ws2 tail
                  (proj1 Hws) (proj2 Hws) (proj1 Hbody) Hhead Hlast).
  rewrite (findall_match _ _ _ _
             (U "```json" ++ ws1 ++ (o1 ++ w ++ o2) ++ ws2 ++ U "```") Hm).
  - cbn [group1 flat_map].
    rewrite <- (app_nil_r (o1 ++ w ++ o2)), <- (app_nil_l (o1 ++ w ++ o2)).
    rewrite <- !app_assoc.
    rewrite (candidates_of_two_objects [] o1 w o2 []);
      [by eexists | done | done | | ];
      cbn [app]; rewrite avoids_app; destruct Hbetween as [Ha Hb];
      rewrite ?Ha, ?Hb; done.
  - cbn [after]. by rewrite <- !app_assoc.
  - intros Hnil. apply (f_equal length) in Hnil.
    rewrite length_app in Hnil. cbn [length] in Hnil.
    change (length (U "```json")) with 7%nat in Hnil. lia.
Qed.

(** The request is built from the first of the two objects that is a
    valid object with the action-name field. *)
Lemma fenced_first_object spare rid d :
  first_success (object_with_tool spare) [o1; o2] = Ret (Some d) ->
  _parse_tool_call spare rid text = Ret (Some (request_of_object rid d)).
Proof using Hpre Hws Hobjects Hbetween Hbody Htail.
  intros Hd. rewrite parse_tool_call_refines.
  unfold extract_by_strategies, json_patterns. cbn [first_success].
  rewrite fenced_no_python_tags. cbn [bind].
  destruct fenced_candidates as [more Hc].
  unfold strategy at 1. rewrite Hc, first_success_app, Hd. done.
Qed.

(** When the decoder raises on the first object something that is not
    a syntax error, the extractor raises it too: the second object is
    not looked at. *)
Lemma fenced_first_object_raises spare rid e :
  object_with_tool spare o1 = Raise e ->
  _parse_tool_call spare rid text = Raise e.
Proof using Hpre Hws Hobjects Hbetween Hbody Htail.
  intros He. rewrite parse_tool_call_refines.
  unfold extract_by_strategies, json_patterns. cbn [first_success].
  rewrite fenced_no_python_tags. cbn [bind].
  destruct fenced_candidates as [more Hc].
  unfold strategy at 1. rewrite Hc, first_success_app.
  cbn [first_success]. by rewrite He.
Qed.
End FencedReply.

(* ===================================================================== *)
(** ** The tool runtime: permission gate, confirmation gate, dispatch,
       timeout, history, registration                                     *)
(* ===================================================================== *)

(** The permission check never yields the status [PERMISSION_DENIED]:
    every result of [execute] carries one of the other statuses. *)
Lemma execute_never_permission_denied s request r s' :
  execute s request = Ret (r, s') -> status r <> PERMISSION_DENIED.
Proof.
  intros H.
  destruct (execute_inv _ _ _ _ H)
    as [(_ & e & _ & ->)|[(_ & -> & _)|(n & t & _ & _ & _ & _ & Hd)]];
    [done|done|].
  apply dispatch_effects in Hd as (_ & _ & _ & _ & Hr & _).
  destruct Hr as [(_ & [[-> _]|[-> _]])|(_ & [(-> & _)|[-> _]])]; done.
Qed.

(** An action of tier administrator passes the permission check under
    every configured tier whose value is not smaller as a string: under
    administrator and system as the tier order asks, and under observer
    and operator too. *)
Lemma administrator_check_passes tier :
  str_gt (tier_value ADMINISTRATOR) (tier_value tier) = false.
Proof. destruct tier; reflexivity. Qed.

(** C1 (the code departs from the claim). With the runtime configured at
    tier operator, a request for a registered action of tier
    administrator passes validation, its handler runs and the result is a
    success: the check compares the tiers' string values, and
    "administrator" sorts before "operator". *)
Theorem C1_administrator_action_runs_under_operator :
  let request := request_for "r1" "format_disk" (PyDict []) false in
  _permission_tier (admin_server OPERATOR) = OPERATOR
  /\ (permission_tier <$> get_tool_schema (U "format_disk") (admin_server OPERATOR))
     = Some ADMINISTRATOR
  /\ validate_request (admin_server OPERATOR) request = Ret None
  /\ exists r s',
       execute (admin_server OPERATOR) request = Ret (r, s')
       /\ status r = SUCCESS
       /\ invocations s' = [request].
Proof.
  cbv zeta. split; [reflexivity|]. split; [vm_compute; reflexivity|].
  split; [vm_compute; reflexivity|].
  eexists _, _. split; [vm_compute; reflexivity|]. split; reflexivity.
Qed.

(** C2. A request for a registered action that requires confirmation,
    not yet confirmed and passing validation, gets the status
    confirmation_required; the server is left as it was, so the handler
    was invoked zero times for that request id. *)
Theorem C2_confirmation_gate s request n t :
  tool request = PyStr n ->
  _tools s !! n = Some t ->
  requires_confirmation (schema t) = true ->
  confirmed request = false ->
  validate_request s request = Ret None ->
  exists r s',
    execute s request = Ret (r, s')
    /\ status r = CONFIRMATION_REQUIRED
    /\ res_request_id r = request_id request
    /\ invocations s' = invocations s
    /\ (handler_calls (request_id request) s'
        - handler_calls (request_id request) s = 0)%nat.
Proof.
  intros Htool Hreg Hconf Hnot Hvalid.
  eexists _, s. split.
  - apply (execute_gated s request n t Htool Hreg Hvalid).
    by rewrite Hconf, Hnot.
  - repeat split; try reflexivity. lia.
Qed.

Lemma C2_confirmation_gate_witness :
  exists r s',
    execute delete_server (request_for "r7" "file_delete" (PyDict []) false)
    = Ret (r, s')
    /\ status r = CONFIRMATION_REQUIRED
    /\ res_request_id r = U "r7"
    /\ invocations s' = invocations delete_server
    /\ (handler_calls (U "r7") s' - handler_calls (U "r7") delete_server = 0)%nat.
Proof.
  apply (C2_confirmation_gate delete_server
           (request_for "r7" "file_delete" (PyDict []) false)
           (U "file_delete")
           {| schema := simple_schema "file_delete" true OPERATOR [];
              handler := echo_handler; enabled := true |});
    vm_compute; reflexivity.
Defined.







(** [l[-limit:]] for a positive [limit]: the last [limit] items. *)
Lemma py_slice_last {A} (limit : Z) (l : list A) :
  1 <= limit ->
  py_slice_from (- limit) l = drop (length l - Z.to_nat limit) l.
Proof.
  intros Hpos. unfold py_slice_from.
  destruct (Z.ltb_spec (- limit) 0) as [_|?]; [|lia].
  f_equal. lia.
Qed.

(** With [limit = 0] the slice is [l[0:]], the whole list. *)
Lemma py_slice_zero {A} (l : list A) : py_slice_from (- 0) l = l.
Proof.
  unfold py_slice_from. change (- 0 <? 0) with false. cbv iota.
  rewrite Z.min_l by lia. reflexivity.
Qed.

(** C5, counterexample. Three terminal results that [execute] returns
    without appending them to the history: a validation failure (unknown
    action), a timeout, and a handler exception. *)
Lemma C5_results_not_recorded :
  (exists r s',
      execute (new_server OPERATOR 30)
        (request_for "r1" "nope" (PyDict []) false) = Ret (r, s')
      /\ status r = FAILED /\ ~ In r (_execution_history s'))
  /\ (exists r s',
      execute slow_server
        (request_for "r2" "slow_echo" (PyDict []) false) = Ret (r, s')
      /\ status r = TIMEOUT /\ ~ In r (_execution_history s'))
  /\ (exists r s',
      execute raising_server
        (request_for "r3" "boom" (PyDict []) false) = Ret (r, s')
      /\ status r = FAILED /\ ~ In r (_execution_history s')).
Proof.
  repeat split; eexists _, _;
    (split; [vm_compute; reflexivity|]); (split; [reflexivity|]);
    simpl; tauto.
Qed.

(** C5, as amended. Whatever [execute] returns, the history it leaves
    extends the one it found, by nothing or by the returned result alone
    (entries are never changed, removed or evicted: the list is
    unbounded). The result is appended for every success and for every
    failure that carries the handler's own error value; a validation
    failure and a result held at the confirmation gate are not
    recorded.
    [get_execution_history(N)] with [N >= 1] returns the last [N] entries,
    all of them if there are fewer. *)
Theorem C5_history_append_only s request r s' :
  execute s request = Ret (r, s') ->
  (_execution_history s' = _execution_history s
   \/ _execution_history s' = _execution_history s ++ [r])
  /\ (status r = SUCCESS \/ (exists v, error r = Some (ErrHandler v)) ->
      _execution_history s' = _execution_history s ++ [r])
  /\ (validate_request s request <> Ret None
      \/ status r = CONFIRMATION_REQUIRED ->
      _execution_history s' = _execution_history s)
  /\ (forall limit, 1 <= limit ->
      get_execution_history limit s'
      = drop (length (_execution_history s') - Z.to_nat limit)
          (_execution_history s')
      /\ Z.of_nat (length (get_execution_history limit s')) <= limit).
Proof.
  intros Hex.
  assert (Hread : forall limit, 1 <= limit ->
      get_execution_history limit s'
      = drop (length (_execution_history s') - Z.to_nat limit)
          (_execution_history s')
      /\ Z.of_nat (length (get_execution_history limit s')) <= limit).
  { intros limit Hl. unfold get_execution_history.
    rewrite py_slice_last by done. split; [done|].
    rewrite length_drop. lia. }
  cut ((_execution_history s' = _execution_history s
        \/ _execution_history s' = _execution_history s ++ [r])
       /\ (status r = SUCCESS \/ (exists v, error r = Some (ErrHandler v)) ->
           _execution_history s' = _execution_history s ++ [r])
       /\ (validate_request s request <> Ret None
           \/ status r = CONFIRMATION_REQUIRED ->
           _execution_history s' = _execution_history s)).
  { intros (H1 & H2 & H3). auto. }
  clear Hread.
  destruct (execute_inv _ _ _ _ Hex)
    as [(-> & e & Hv & ->)|[(-> & -> & _)|(n & t & _ & _ & Hv & _ & Hd)]].
  - split; [by left|]. split; [|done].
    intros [H|[v0 H]]; simpl in H; [discriminate|].
    injection H as ->. by apply (validate_request_error _ _ _ v0) in Hv.
  - split; [by left|]. split; [|done].
    intros [H|[v0 H]]; simpl in H; discriminate.
  - apply dispatch_effects in Hd as (_ & _ & _ & _ & Hr & _).
    destruct Hr as [(Hh & Hst)|(Hh & Hst)].
    + split; [by right|]. split; [done|].
      intros [H|H]; [congruence|].
      destruct Hst as [[Hs _]|[Hs _]]; congruence.
    + split; [by left|]. split; [|done].
      intros [H|[v0 H]].
      * destruct Hst as [(Hs & _)|(Hs & _)]; congruence.
      * destruct Hst as [(_ & He & _)|(_ & [He|[text He]])]; congruence.
Qed.

Lemma C5_history_append_only_witness :
  exists r s',
    execute echo_server (request_for "r4" "echo" (PyDict []) false)
    = Ret (r, s')
    /\ status r = SUCCESS
    /\ _execution_history s' = _execution_history echo_server ++ [r]
    /\ get_execution_history 1 s' = [r].
Proof.
  destruct (execute echo_server (request_for "r4" "echo" (PyDict []) false))
    as [[r s']|e] eqn:Hex; [|vm_compute in Hex; discriminate].
  exists r, s'. split; [reflexivity|].
  pose proof (C5_history_append_only _ _ _ _ Hex) as (_ & Happ & _ & Hread).
  assert (Hs : status r = SUCCESS)
    by (vm_compute in Hex; injection Hex as <- _; reflexivity).
  split; [exact Hs|]. split; [apply Happ; by left|].
  destruct (Hread 1 ltac:(lia)) as [-> _].
  rewrite (Happ (or_introl Hs)). reflexivity.
Defined.

(* --------------------------------------------------------------------- *)

(** C9, counterexample. Registering a name that is already registered
    does not fail and does not keep the existing registration: the entry
    now holds the new schema. *)
Lemma C9_second_registration_replaces :
  let first := simple_schema "file_read" false OPERATOR [] in
  let second := simple_schema "file_read" true ADMINISTRATOR [] in
  let s := register_tool first echo_handler (new_server OPERATOR 30) in
  get_tool_schema (U "file_read") s = Some first
  /\ get_tool_schema (U "file_read") (register_tool second raising_handler s)
     = Some second
  /\ get_tool_schema (U "file_read") (register_tool second raising_handler s)
     <> get_tool_schema (U "file_read") s.
Proof.
  cbv zeta. split; [vm_compute; reflexivity|].
  split; [vm_compute; reflexivity|]. vm_compute. discriminate.
Qed.

(** C9, as amended. [register_tool] never fails: for every catalog and
    every schema, registered name or not, the catalog afterwards maps the
    schema's name to the new schema and handler, enabled, and every other
    name as before; nothing else of the server changes. *)
Theorem C9_register_overwrites s sc h :
  _tools (register_tool sc h s) !! name sc
  = Some {| schema := sc; handler := h; enabled := true |}
  /\ (forall n, n <> name sc ->
      _tools (register_tool sc h s) !! n = _tools s !! n)
  /\ _permission_tier (register_tool sc h s) = _permission_tier s
  /\ _execution_history (register_tool sc h s) = _execution_history s
  /\ invocations (register_tool sc h s) = invocations s.
Proof.
  unfold register_tool, with_tools. simpl. repeat split.
  - apply lookup_insert_eq.
  - intros n Hn. by apply lookup_insert_ne.
Qed.
(* ===================================================================== *)
(** ** The response extractor                                             *)
(* ===================================================================== *)

Lemma first_success_some {A B} (f : A -> outcome (option B)) l b :
  first_success f l = Ret (Some b) -> exists a, In a l /\ f a = Ret (Some b).
Proof.
  induction l as [|a l IH]; [discriminate|]. simpl.
  destruct (f a) as [[b0|]|e] eqn:E; simpl.
  - intros [= <-]. exists a. auto.
  - intros H. destruct (IH H) as (a' & ? & ?). exists a'. auto.
  - discriminate.
Qed.

Lemma recovered_object_has_tool spare text d :
  recovered_object spare text = Ret (Some d) ->
  exists t, dict_get (U "tool") d = Some t.
Proof.
  intros H. apply first_success_some in H as (p & _ & H).
  apply first_success_some in H as (c & _ & H).
  unfold object_with_tool in H.
  destruct (str_startswith _ _); [|discriminate].
  destruct (json_loads spare c) as [[| | | | | |d']|e]; try discriminate;
    [|by destruct e].
  destruct (dict_mem (U "tool") d') eqn:Hm; [|discriminate].
  injection H as <-. by apply dict_mem_get.
Qed.

(** The spec's own example, with the field names of the source. *)
Example extract_app_open :
  _parse_tool_call 900 (U "id")
    (J "```json {'tool':'app_open','arguments':{'identifier':'notepad'}} ```")
  = Ret (Some (new_request (U "id") (PyStr (U "app_open"))
                 (PyDict [(U "identifier", PyStr (U "notepad"))]))).
Proof. vm_compute. reflexivity. Qed.

(** An earlier strategy wins over a later one, whatever the later one
    would find and wherever the spans stand in the text. *)
Example extract_priority :
  _parse_tool_call 900 (U "id")
    (J "```json {'tool':'from_fence'} ``` <|python_start|>{'tool':'from_tags'}<|python_end|>")
  = Ret (Some (new_request (U "id") (PyStr (U "from_tags")) (PyDict []))).
Proof. vm_compute. reflexivity. Qed.

(** Braces inside a JSON string mislead the brace counter; the request
    then comes from the last resort, without the arguments. *)
Example extract_brace_in_string :
  _parse_tool_call 900 (U "id")
    (J "```json {'tool':'type','arguments':{'text':'}'}} ```")
  = Ret (Some (new_request (U "id") (PyStr (U "type")) (PyDict []))).
Proof. vm_compute. reflexivity. Qed.

(** The two objects of [long_integer_reply], as the decoder sees them. *)
Lemma long_integer_object_raises spare :
  json_loads spare long_integer_object
  = Raise (ValueError_int_digits (N.to_nat 4301)).
Proof. vm_compute. reflexivity. Qed.

(** C7 (the code departs from the claim). The json fence of the reply
    holds two concatenated objects. The first is valid JSON without the
    ["tool"] field, so by the claim the request is built from the
    second, which is a tool call. But the first holds an integer of 4301
    digits, [json.loads] raises a [ValueError] for it, the [except]
    clause of the loop names [json.JSONDecodeError] only, and
    [_parse_tool_call] ends with that exception, whatever recursion room
    there is: the second object is never looked at, and no later
    strategy nor the last resort is tried. On the second object alone
    the extraction gives the request. *)
Theorem C7_extractor_raises_on_long_integer :
  is_object_span long_integer_object = true
  /\ is_object_span (J "{'tool':'t'}") = true
  /\ (forall spare rid,
      _parse_tool_call spare rid long_integer_reply
      = Raise (ValueError_int_digits (N.to_nat 4301)))
  /\ (forall spare rid,
      _parse_tool_call spare rid (J "```json {'tool':'t'} ```")
      = Ret (Some (new_request rid (PyStr (U "t")) (PyDict [])))).
Proof.
  split; [vm_compute; reflexivity|]. split; [vm_compute; reflexivity|].
  split.
  - intros spare rid.
    apply (fenced_first_object_raises [] [32%N] long_integer_object []
             (J "{'tool':'t'}") [32%N] []);
      try (vm_compute; split; reflexivity); vm_compute; reflexivity.
  - intros spare rid. vm_compute. reflexivity.
Qed.

(** C10. When the object that the strategies recover has the ["tool"]
    field and no ["arguments"] member, the extraction succeeds and the
    request carries the empty mapping. The last resort behaves alike:
    with a ["tool"] pair in the text and no arguments object that parses,
    the request carries the empty mapping. *)
Theorem C10_missing_arguments_default_to_empty :
  (forall spare rid text d,
      recovered_object spare text = Ret (Some d) ->
      dict_get (U "arguments") d = None ->
      exists t,
        dict_get (U "tool") d = Some t
        /\ _parse_tool_call spare rid text
           = Ret (Some {| request_id := rid; tool := t;
                          arguments := PyDict []; confirmed := false |}))
  /\ (forall spare rid text m,
      recovered_object spare text = Ret None ->
      search false pattern_tool_pair text = Some m ->
      match search false pattern_arguments_pair text with
      | Some a => forall v, json_loads spare (group1 a) <> Ret v
      | None => True
      end ->
      _parse_tool_call spare rid text
      = Ret (Some {| request_id := rid; tool := PyStr (group1 m);
                     arguments := PyDict []; confirmed := false |})).
Proof.
  split.
  - intros spare rid text d Hrec Hargs.
    destruct (recovered_object_has_tool _ _ _ Hrec) as [t Ht].
    exists t. split; [done|].
    rewrite parse_tool_call_refines. unfold extract_by_strategies.
    unfold recovered_object in Hrec. rewrite Hrec. cbn [bind].
    unfold request_of_object, dict_get_default. by rewrite Ht, Hargs.
  - intros spare rid text m Hrec Htool Hargs.
    rewrite parse_tool_call_refines. unfold extract_by_strategies.
    unfold recovered_object in Hrec. rewrite Hrec. cbn [bind].
    unfold last_resort. rewrite Htool.
    destruct (search false pattern_arguments_pair text) as [a|]; [|done].
    destruct (json_loads spare (group1 a)) as [v|e] eqn:E; [|done].
    by destruct (Hargs v).
Qed.

Lemma C10_missing_arguments_default_to_empty_witness :
  _parse_tool_call 900 (U "id") reply_without_arguments
  = Ret (Some (new_request (U "id") (PyStr (U "screenshot")) (PyDict [])))
  /\ _parse_tool_call 900 (U "id") reply_loose_pair
     = Ret (Some (new_request (U "id") (PyStr (U "screenshot")) (PyDict []))).
Proof.
  split.
  - destruct (proj1 C10_missing_arguments_default_to_empty
                900%nat (U "id") reply_without_arguments
                [(U "tool", PyStr (U "screenshot"))])
      as (t & Ht & Hparse); [vm_compute; reflexivity | reflexivity |].
    injection Ht as <-. exact Hparse.
  - exact (proj2 C10_missing_arguments_default_to_empty
             900%nat (U "id") reply_loose_pair
             {| group1 := U "screenshot"; after := U " now" |}
             ltac:(vm_compute; reflexivity) ltac:(vm_compute; reflexivity)
             ltac:(vm_compute; exact I)).
Defined.

(* ===================================================================== *)
(** ** The turn loop                                                      *)
(* ===================================================================== *)

Lemma validate_request_set_confirmed s request :
  validate_request s (set_confirmed request) = validate_request s request.
Proof. reflexivity. Qed.

(** What a result with status confirmation_required tells about the call
    that returned it. *)
Lemma execute_confirmation_required s request r s' :
  execute s request = Ret (r, s') ->
  status r = CONFIRMATION_REQUIRED ->
  s' = s
  /\ validate_request s request = Ret None
  /\ exists n t, tool request = PyStr n /\ _tools s !! n = Some t.
Proof.
  intros Hex Hst.
  destruct (execute_inv _ _ _ _ Hex)
    as [(_ & e & _ & ->)|[(-> & _ & n & t & ? & ? & ? & _)
                         |(n & t & _ & _ & _ & _ & Hd)]].
  - discriminate.
  - split; [done|]. split; [done|]. by exists n, t.
  - apply dispatch_effects in Hd as (_ & _ & _ & _ & Hr & _). exfalso.
    destruct Hr as [(_ & [[Hs _]|[Hs _]])|(_ & [(Hs & _)|[Hs _]])];
      congruence.
Qed.

(** A confirmed request passes the gate: it is dispatched. *)
Lemma execute_resubmitted s request r1 :
  execute s request = Ret (r1, s) ->
  status r1 = CONFIRMATION_REQUIRED ->
  (exists r2 s2,
      execute s (set_confirmed request) = Ret (r2, s2)
      /\ status r2 <> CONFIRMATION_REQUIRED
      /\ submitted s2 = submitted s ++ [set_confirmed request])
  \/ (exists text,
        execute s (set_confirmed request)
        = Raise (HandlerBaseException text)).
Proof.
  intros Hex Hst.
  destruct (execute_confirmation_required _ _ _ _ Hex Hst)
    as (_ & Hv & n & t & Htool & Hreg).
  assert (Hgate : requires_confirmation (schema t)
                  && negb (confirmed (set_confirmed request)) = false)
    by apply andb_false_r.
  rewrite (execute_dispatched s (set_confirmed request) n t Htool Hreg Hv Hgate).
  destruct (dispatch_total s (set_confirmed request) t (clock_ms s))
    as [(r2 & s2 & Hd)|(text & d & Hd & _)]; [left|right; by exists text].
  exists r2, s2. split; [done|].
  apply dispatch_effects in Hd as (_ & Hsub & _ & _ & Hr & _).
  split; [|done].
  destruct Hr as [(_ & [[-> _]|[-> _]])|(_ & [(-> & _)|[-> _]])]; done.
Qed.

Lemma is_confirmation_required_spec st :
  is_confirmation_required st = true <-> st = CONFIRMATION_REQUIRED.
Proof. destruct st; simpl; split; congruence. Qed.

(** With an approval handler, what [run_tool_call] hands back is never a
    pending confirmation. *)
Lemma run_tool_call_resolved a request request' res srv approve :
  _confirmation_handler a = Some approve ->
  run_tool_call a request = Ret (request', res, srv) ->
  status res <> CONFIRMATION_REQUIRED.
Proof.
  intros Hh. unfold run_tool_call. rewrite Hh.
  destruct (execute (tool_server a) request) as [[r1 srv1]|] eqn:Hex;
    simpl; [|discriminate].
  destruct (is_confirmation_required (status r1)) eqn:Hcr.
  - apply is_confirmation_required_spec in Hcr.
    destruct (execute_confirmation_required _ _ _ _ Hex Hcr) as (-> & _).
    destruct (approve request).
    + destruct (execute_resubmitted _ _ _ Hex Hcr)
        as [(r2 & s2 & -> & Hr2 & _)|(text & ->)]; [|discriminate].
      simpl. by intros [= _ <- _].
    + by intros [= _ <- _].
  - intros [= _ <- _]. intros Hcontra.
    apply is_confirmation_required_spec in Hcontra. congruence.
Qed.

(** One pass of the loop body: it ends the loop, or it ran one tool call
    and stored the request and the result of [run_tool_call] in the
    conversation. *)
Lemma loop_body_step w st step :
  loop_body w st = Ret step ->
  let a := agent st in
  let a1 := update_agent (tool_server a) (conversation a) (S (llm_calls a)) a in
  (exists final_response, step = Break final_response a1)
  \/ (exists text request0 request res srv msgs,
        run_tool_call a1 request0 = Ret (request, res, srv)
        /\ step
           = Continue
               {| iterations := iterations st + 1; messages := msgs;
                  agent :=
                    update_agent srv
                      (conversation a
                       ++ [ {| role := U "assistant"; content := Text text;
                               tool_calls := [request]; tool_results := [] |};
                            {| role := U "tool";
                               content :=
                                 ResultText (_format_tool_result_for_llm res);
                               tool_calls := []; tool_results := [res] |} ])
                      (S (llm_calls a)) a1 |}).
Proof.
  unfold loop_body. cbv zeta.
  destruct (llm_chat w (llm_calls (agent st)) (messages st))
    as [[text calls]|e]; [|intros [= <-]; left; by eexists].
  destruct calls as [|request0 calls]; [intros [= <-]; left; by eexists|].
  destruct (run_tool_call _ request0) as [[[request res] srv]|] eqn:Hrun;
    simpl; [|discriminate].
  intros [= <-]. right. by eexists text, request0, request, res, srv, _.
Qed.

Section Loop.
Variable w : World.

(** The loop ends before its fuel does when the fuel exceeds what is
    left of the budget. *)
Lemma agent_loop_fuel fuel :
  forall st,
  (Z.to_nat (max_iterations (agent st) - iterations st) < fuel)%nat ->
  agent_loop w fuel st <> Ret None.
Proof.
  induction fuel as [|fuel IH]; intros st Hfuel; [lia|].
  cbn [agent_loop].
  destruct (Z.ltb_spec (iterations st) (max_iterations (agent st)));
    [|discriminate].
  destruct (loop_body w st) as [step|] eqn:Hbody; simpl; [|discriminate].
  destruct (loop_body_step _ _ _ Hbody)
    as [[r ->]|(text & rq0 & rq & res & srv & msgs & _ & ->)];
    [discriminate|].
  apply IH. simpl. lia.
Qed.

(** The model is called at most once for every unit of the budget that
    is left. *)
Lemma agent_loop_calls fuel :
  forall st final_response a',
  agent_loop w fuel st = Ret (Some (final_response, a')) ->
  (llm_calls a' - llm_calls (agent st)
   <= Z.to_nat (max_iterations (agent st) - iterations st))%nat
  /\ max_iterations a' = max_iterations (agent st).
Proof.
  induction fuel as [|fuel IH]; intros st r a' Hloop; [discriminate|].
  cbn [agent_loop] in Hloop.
  destruct (Z.ltb_spec (iterations st) (max_iterations (agent st)));
    [|injection Hloop as _ <-; split; [lia|done]].
  destruct (loop_body w st) as [step|] eqn:Hbody; simpl in Hloop;
    [|discriminate].
  destruct (loop_body_step _ _ _ Hbody)
    as [[r' ->]|(text & rq0 & rq & res & srv & msgs & _ & ->)].
  - injection Hloop as _ <-. simpl. split; [lia|done].
  - apply IH in Hloop as [Hcalls Hmax]. simpl in Hcalls, Hmax.
    split; [lia|done].
Qed.

(** With an approval handler configured, the loop never stores a
    pending confirmation. *)
Lemma agent_loop_resolved fuel approve :
  forall st final_response a',
  _confirmation_handler (agent st) = Some approve ->
  agent_loop w fuel st = Ret (Some (final_response, a')) ->
  Forall (fun r => status r <> CONFIRMATION_REQUIRED)
    (recorded_results (conversation (agent st))) ->
  Forall (fun r => status r <> CONFIRMATION_REQUIRED)
    (recorded_results (conversation a'))
  /\ _confirmation_handler a' = Some approve.
Proof.
  induction fuel as [|fuel IH]; intros st r a' Hh Hloop Hinv;
    [discriminate|].
  cbn [agent_loop] in Hloop.
  destruct (iterations st <? max_iterations (agent st));
    [|by injection Hloop as _ <-].
  destruct (loop_body w st) as [step|] eqn:Hbody; simpl in Hloop;
    [|discriminate].
  destruct (loop_body_step _ _ _ Hbody)
    as [[r' ->]|(text & rq0 & rq & res & srv & msgs & Hrun & ->)].
  - by injection Hloop as _ <-.
  - eapply IH; [|exact Hloop|]; [exact Hh|]. simpl.
    unfold recorded_results in *. rewrite flat_map_app.
    apply Forall_app. split; [done|]. simpl.
    constructor; [|constructor].
    by apply (run_tool_call_resolved _ _ _ _ _ approve Hh Hrun).
Qed.
End Loop.

(** [process] ends within its budget: the fuel of the loop is never the
    limit, and the model is called at most [max_iterations] times. *)
Lemma process_within_budget w a user_input :
  process w a user_input <> Ret None
  /\ forall final_response a',
       process w a user_input = Ret (Some (final_response, a')) ->
       (llm_calls a' - llm_calls a <= Z.to_nat (max_iterations a))%nat.
Proof.
  unfold process. cbv zeta.
  set (a0 := add_message _ a).
  set (st0 := {| iterations := 0; messages := _; agent := a0 |}).
  pose proof (agent_loop_fuel w (S (Z.to_nat (max_iterations a0))) st0
                ltac:(simpl; rewrite Z.sub_0_r; lia)) as Hfuel.
  destruct (agent_loop w (S (Z.to_nat (max_iterations a0))) st0)
    as [[[r a1]|]|e] eqn:Hloop; simpl; [|done|split; [discriminate|done]].
  split; [by destruct (nonempty r)|].
  apply agent_loop_calls in Hloop as [Hcalls _]. simpl in Hcalls.
  rewrite Z.sub_0_r in Hcalls.
  intros r' a' H. destruct (nonempty r); injection H as _ <-; simpl; lia.
Qed.

(** C4, counterexample. No approval handler is configured and the model
    proposes an action that requires confirmation: [execute] returns
    confirmation_required, and the controller neither resubmits the
    request (no handler invocation is logged, the request stays
    unconfirmed) nor produces a cancelled result: the pending result
    itself is what the turn keeps and stores in the conversation. *)
Lemma C4_pending_confirmation_is_kept :
  let a := new_agent delete_server 1 None in
  let request :=
    new_request (U "req-0") (PyStr (U "file_delete")) (PyDict []) in
  (exists r srv,
      run_tool_call a request = Ret (request, r, srv)
      /\ status r = CONFIRMATION_REQUIRED
      /\ status r <> CANCELLED
      /\ invocations srv = [])
  /\ (exists text a',
      process (always reply_delete) a (U "clean up") = Ret (Some (text, a'))
      /\ List.map status (recorded_results (conversation a'))
         = [CONFIRMATION_REQUIRED]
      /\ invocations (tool_server a') = []).
Proof.
  cbv zeta. split.
  - eexists _, _. split; [vm_compute; reflexivity|].
    split; [reflexivity|]. split; [discriminate|reflexivity].
  - eexists _, _. split; [vm_compute; reflexivity|].
    split; reflexivity.
Qed.

(** C4, as amended. When [execute] returns confirmation_required and an
    approval handler is configured, the controller asks it: on approval
    it resubmits the same request with [confirmed] set and executes it
    again, which hands the handler of the action to the pool once and
    gives a result that is no longer pending; on denial it produces the
    cancelled result and nothing is submitted. So with a handler
    configured, no run of [process] stores a pending confirmation in the
    conversation. When no approval handler is configured, nothing is
    submitted either (the default is to deny, and both confirmation
    helpers answer no), no cancelled result is made, and the pending
    result is kept as the result of the turn: the pass of the loop
    stores it in the conversation with the request, unconfirmed, and
    renders it to the model as the request to ask the user. *)
Theorem C4_confirmation_handling :
  (forall a request r1 srv1,
      execute (tool_server a) request = Ret (r1, srv1) ->
      status r1 = CONFIRMATION_REQUIRED ->
      match _confirmation_handler a with
      | Some approve =>
          if approve request then
            (exists r2 srv2,
                execute srv1 (set_confirmed request) = Ret (r2, srv2)
                /\ run_tool_call a request
                   = Ret (set_confirmed request, r2, srv2)
                /\ status r2 <> CONFIRMATION_REQUIRED
                /\ submitted srv2
                   = submitted (tool_server a) ++ [set_confirmed request])
            \/ (exists text,
                  execute srv1 (set_confirmed request)
                  = Raise (HandlerBaseException text)
                  /\ run_tool_call a request
                     = Raise (HandlerBaseException text))
          else
            run_tool_call a request
            = Ret (request, cancelled_result request, srv1)
            /\ status (cancelled_result request) = CANCELLED
            /\ srv1 = tool_server a
      | None =>
          run_tool_call a request = Ret (request, r1, srv1)
          /\ srv1 = tool_server a
      end)
  /\ (forall w a user_input approve final_response a',
      _confirmation_handler a = Some approve ->
      process w a user_input = Ret (Some (final_response, a')) ->
      Forall (fun r => status r <> CONFIRMATION_REQUIRED)
        (recorded_results (conversation a)) ->
      Forall (fun r => status r <> CONFIRMATION_REQUIRED)
        (recorded_results (conversation a')))
  /\ (forall a s request n t,
      tool request = PyStr n -> _tools s !! n = Some t ->
      requires_confirmation (schema t) = true -> confirmed request = false ->
      (_confirmation_callback s = None ->
       _check_confirmation s request = Ret false)
      /\ (_confirmation_handler a = None ->
          _handle_confirmation a request = false))
  /\ (forall w st text request r1 srv1,
      llm_chat w (llm_calls (agent st)) (messages st)
      = Ret (text, [request]) ->
      execute (tool_server (agent st)) request = Ret (r1, srv1) ->
      status r1 = CONFIRMATION_REQUIRED ->
      _confirmation_handler (agent st) = None ->
      exists st',
        loop_body w st = Ret (Continue st')
        /\ messages st'
           = messages st
             ++ [ {| chat_role := U "assistant"; chat_content := Text text |};
                  {| chat_role := U "user";
                     chat_content := ResultPrompt FmtNeedsConfirmation |} ]
        /\ conversation (agent st')
           = conversation (agent st)
             ++ [ {| role := U "assistant"; content := Text text;
                     tool_calls := [request]; tool_results := [] |};
                  {| role := U "tool";
                     content := ResultText FmtNeedsConfirmation;
                     tool_calls := []; tool_results := [r1] |} ]
        /\ tool_server (agent st') = tool_server (agent st)).
Proof.
  split; [|split; [|split]].
  3: { intros a s request n t Htool Hreg Hconf Hnot. split.
       - intros Hcb. unfold _check_confirmation, tools_lookup.
         rewrite Htool, Hreg. simpl. by rewrite Hconf, Hnot, Hcb.
       - intros Hh. unfold _handle_confirmation. by rewrite Hh. }
  - intros a request r1 srv1 Hex Hcr.
    destruct (execute_confirmation_required _ _ _ _ Hex Hcr) as (-> & _).
    unfold run_tool_call. rewrite Hex. simpl.
    rewrite (proj2 (is_confirmation_required_spec _) Hcr).
    destruct (_confirmation_handler a) as [approve|]; [|done].
    destruct (approve request); [|done].
    destruct (execute_resubmitted _ _ _ Hex Hcr)
      as [(r2 & s2 & Hex2 & ? & ?)|(text & Hex2)].
    + left. exists r2, s2. rewrite Hex2. done.
    + right. exists text. rewrite Hex2. done.
  - intros w a user_input approve final_response a' Hh Hproc Hinv.
    unfold process in Hproc. cbv zeta in Hproc.
    destruct (agent_loop _ _ _) as [[[r a1]|]|] eqn:Hloop; simpl in Hproc;
      try discriminate.
    apply (agent_loop_resolved _ _ approve) in Hloop as [Hres _]; [|done|].
    + destruct (nonempty r); injection Hproc as _ <-; [|done].
      simpl. unfold recorded_results in *. rewrite flat_map_app.
      apply Forall_app. split; [done|]. simpl. constructor.
    + simpl. unfold recorded_results in *. rewrite flat_map_app.
      apply Forall_app. split; [done|]. simpl. constructor.
  - intros w st text request r1 srv1 Hchat Hex Hcr Hnone.
    destruct (execute_confirmation_required _ _ _ _ Hex Hcr) as (-> & _).
    unfold loop_body. cbv zeta. rewrite Hchat.
    unfold run_tool_call. cbn [tool_server update_agent _confirmation_handler].
    rewrite Hex. cbn [bind].
    rewrite (proj2 (is_confirmation_required_spec _) Hcr), Hnone.
    cbn [bind]. eexists. split; [reflexivity|].
    unfold _format_tool_result_for_llm. rewrite Hcr. done.
Qed.

Lemma C4_confirmation_handling_witness :
  let a := new_agent delete_server 1 (Some (fun _ => true)) in
  let request :=
    new_request (U "req-0") (PyStr (U "file_delete")) (PyDict []) in
  exists r2 srv2,
    run_tool_call a request = Ret (set_confirmed request, r2, srv2)
    /\ status r2 <> CONFIRMATION_REQUIRED
    /\ submitted srv2 = [set_confirmed request].
Proof.
  cbv zeta.
  destruct (proj1 C4_confirmation_handling
              (new_agent delete_server 1 (Some (fun _ => true)))
              (new_request (U "req-0") (PyStr (U "file_delete")) (PyDict []))
              (confirmation_result
                 (new_request (U "req-0") (PyStr (U "file_delete")) (PyDict []))
                 0)
              delete_server
              ltac:(vm_compute; reflexivity) ltac:(reflexivity))
    as [(r2 & srv2 & _ & Hrun & Hst & Hsub)|(text & Hex & _)];
    [|vm_compute in Hex; discriminate].
  exists r2, srv2. split; [exact Hrun|]. split; [exact Hst|exact Hsub].
Defined.

(* --------------------------------------------------------------------- *)

(** The budget at work: the model proposes an action in every reply, the
    loop runs [max_iterations] times and stops; the final response is the
    empty string. *)
Example process_stops_at_budget :
  exists a',
    process (always reply_echo) (new_agent echo_server 3 None) (U "go")
    = Ret (Some ([], a'))
    /\ llm_calls a' = 3%nat
    /\ length (invocations (tool_server a')) = 3%nat.
Proof.
  eexists. split; [vm_compute; reflexivity|]. split; reflexivity.
Qed.

(** C8 (the code departs from the claim). The model's reply names a list
    as the tool: the extractor builds the request, and the membership
    test of [validate_request], which is outside every [try], raises;
    [process] ends with that exception instead of returning a string. A
    [null] for the arguments of an action with a required parameter does
    the same. (The number of model calls is within the budget in every
    run: [process_within_budget].) *)
Theorem C8_process_raises_instead_of_returning :
  process (always reply_list_as_tool) (new_agent echo_server 10 None) (U "hi")
  = Raise TypeError_unhashable
  /\ process (always reply_null_arguments) (new_agent reader_server 10 None)
       (U "hi")
     = Raise TypeError_not_iterable.
Proof. split; vm_compute; reflexivity. Qed.

(* ===================================================================== *)
(** ** More about the tool runtime                                        *)
(* ===================================================================== *)

(** X1. A request whose tool is a name that is not registered (or a
    hashable value that is no name at all) fails with the status failed
    and a message that names the tool; the server is left as it was. *)
Theorem X1_unknown_tool_fails s request :
  match tool request with
  | PyStr n => _tools s !! n = None
  | PyList _ | PyDict _ => False
  | _ => True
  end ->
  exists r,
    execute s request = Ret (r, s)
    /\ status r = FAILED
    /\ error r = Some (ErrUnknownTool (tool request))
    /\ res_request_id r = request_id request.
Proof.
  intros Htool.
  exists (failed_result request (ErrUnknownTool (tool request))
            (clock_ms s - clock_ms s)).
  split; [|done].
  unfold execute, validate_request, tools_lookup.
  destruct (tool request) as [| | | |n| |]; try done.
  by rewrite Htool.
Qed.

Lemma X1_unknown_tool_fails_witness :
  exists r,
    execute echo_server (request_for "r1" "nope" (PyDict []) false)
    = Ret (r, echo_server)
    /\ status r = FAILED
    /\ error r = Some (ErrUnknownTool (PyStr (U "nope")))
    /\ res_request_id r = U "r1".
Proof.
  apply (X1_unknown_tool_fails echo_server
           (request_for "r1" "nope" (PyDict []) false)).
  vm_compute. reflexivity.
Defined.

(** X2. Once a registered tool is disabled, every request for it fails
    with the message that the tool is disabled, whatever its tier, its
    arguments and its confirmation state, and its handler is not
    invoked. *)
Theorem X2_disabled_tool_is_refused s request n t :
  tool request = PyStr n ->
  _tools s !! n = Some t ->
  exists r,
    execute (disable_tool n s) request = Ret (r, disable_tool n s)
    /\ status r = FAILED
    /\ error r = Some (ErrToolDisabled (PyStr n))
    /\ invocations (disable_tool n s) = invocations s.
Proof.
  intros Htool Hreg.
  exists (failed_result request (ErrToolDisabled (PyStr n))
            (clock_ms s - clock_ms s)).
  split; [|done].
  unfold execute, validate_request, tools_lookup. rewrite Htool.
  unfold disable_tool, with_tools. cbn [_tools].
  rewrite lookup_alter_eq, Hreg. reflexivity.
Qed.

Lemma X2_disabled_tool_is_refused_witness :
  exists r,
    execute (disable_tool (U "echo") echo_server)
      (request_for "r1" "echo" (PyDict []) false)
    = Ret (r, disable_tool (U "echo") echo_server)
    /\ status r = FAILED
    /\ error r = Some (ErrToolDisabled (PyStr (U "echo")))
    /\ invocations (disable_tool (U "echo") echo_server)
       = invocations echo_server.
Proof.
  apply (X2_disabled_tool_is_refused echo_server
           (request_for "r1" "echo" (PyDict []) false) (U "echo")
           {| schema := simple_schema "echo" false OPERATOR [];
              handler := echo_handler; enabled := true |});
    vm_compute; reflexivity.
Defined.

Lemma with_tools_id f s : f (_tools s) = _tools s -> with_tools f s = s.
Proof. intros H. unfold with_tools. rewrite H. by destruct s. Qed.

(** X3. Disabling a registered, enabled tool and enabling it again gives
    back the very same server; on a name that is not registered both
    operations change nothing. *)
Theorem X3_disable_enable_round_trip s n :
  (forall t, _tools s !! n = Some t -> enabled t = true ->
             enable_tool n (disable_tool n s) = s)
  /\ (_tools s !! n = None -> disable_tool n s = s /\ enable_tool n s = s).
Proof.
  split.
  - intros t Hreg Hen. unfold enable_tool, disable_tool.
    unfold with_tools. cbn [_tools _permission_tier _timeout
      _confirmation_callback _execution_history invocations clock_ms].
    rewrite alter_alter_eq.
    rewrite (alter_id _ (_tools s) n); [by destruct s|].
    intros t' Ht'. rewrite Hreg in Ht'. injection Ht' as <-.
    destruct t. simpl in *. by rewrite Hen.
  - intros Hnone. split; apply with_tools_id, alter_id; intros t Ht;
      by rewrite Hnone in Ht.
Qed.

Lemma X3_disable_enable_round_trip_witness :
  enable_tool (U "echo") (disable_tool (U "echo") echo_server) = echo_server
  /\ disable_tool (U "nope") echo_server = echo_server.
Proof.
  split.
  - apply (proj1 (X3_disable_enable_round_trip echo_server (U "echo"))
             {| schema := simple_schema "echo" false OPERATOR [];
                handler := echo_handler; enabled := true |});
      vm_compute; reflexivity.
  - apply (proj2 (X3_disable_enable_round_trip echo_server (U "nope"))).
    vm_compute. reflexivity.
Defined.

(* --------------------------------------------------------------------- *)

Lemma check_required_dict params d :
  exists v, check_required params (PyDict d) = Ret v.
Proof.
  induction params as [|p ps IH]; simpl; [by eexists|].
  destruct (param_required p); [|exact IH].
  destruct (negb (dict_mem (param_name p) d) && is_None (param_default p));
    [by eexists|exact IH].
Qed.





(* --------------------------------------------------------------------- *)

(** What the two parameter loops ask of a mapping of arguments. *)
Lemma check_required_spec params d :
  check_required params (PyDict d) = Ret None
  <-> Forall (fun p => param_required p = true ->
                       param_default p = PyNone ->
                       dict_mem (param_name p) d = true) params.
Proof.
  induction params as [|p ps IH]; simpl; [split; [constructor|done]|].
  rewrite Forall_cons. destruct (param_required p).
  - destruct (dict_mem (param_name p) d) eqn:Hm; simpl.
    + rewrite IH. split; [intros ?; split; done|by intros [_ ?]].
    + destruct (param_default p) eqn:Hd; simpl;
        try (rewrite IH; split; [intros ?; split; done|by intros [_ ?]]).
      split; [discriminate|]. intros [H _]. by specialize (H eq_refl eq_refl).
  - rewrite IH. split; [intros ?; split; done|by intros [_ ?]].
Qed.

Lemma check_types_spec params d :
  check_types params (PyDict d) = Ret None
  <-> Forall (fun p => forall v, dict_get (param_name p) d = Some v ->
                       _validate_type v (param_type p) = true) params.
Proof.
  induction params as [|p ps IH]; simpl; [split; [constructor|done]|].
  rewrite Forall_cons. unfold dict_mem.
  destruct (dict_get (param_name p) d) as [v|] eqn:Hg; simpl.
  - destruct (_validate_type v (param_type p)) eqn:Hty; simpl.
    + rewrite IH. split; [|by intros [_ ?]].
      intros ?. split; [|done]. by intros v' [= <-].
    + split; [discriminate|]. intros [H _]. specialize (H v eq_refl).
      congruence.
  - rewrite IH. split; [intros ?; split; done|by intros [_ ?]].
Qed.

(** X5. For a registered tool and a mapping of arguments, validation
    passes exactly when the tool is enabled, its tier passes the
    permission comparison, every required parameter without a default is
    supplied, and every supplied argument of a declared parameter has the
    declared type. Arguments that no parameter declares are not looked
    at. *)
Theorem X5_validation_accepts_exactly s request n t d :
  tool request = PyStr n ->
  _tools s !! n = Some t ->
  arguments request = PyDict d ->
  validate_request s request = Ret None
  <-> (enabled t = true
       /\ str_gt (tier_value (permission_tier (schema t)))
            (tier_value (_permission_tier s)) = false
       /\ Forall (fun p => param_required p = true ->
                           param_default p = PyNone ->
                           dict_mem (param_name p) d = true)
            (parameters (schema t))
       /\ Forall (fun p => forall v, dict_get (param_name p) d = Some v ->
                           _validate_type v (param_type p) = true)
            (parameters (schema t))).
Proof.
  intros Htool Hreg Hargs. unfold validate_request, tools_lookup.
  rewrite Htool, Hreg, Hargs. simpl.
  destruct (enabled t); simpl; [|split; [discriminate|by intros [? _]]].
  destruct (str_gt _ _); [split; [discriminate|by intros (_ & ? & _)]|].
  rewrite <- check_required_spec, <- check_types_spec.
  destruct (check_required_dict (parameters (schema t)) d) as [[e|] Hr];
    rewrite Hr; simpl.
  - split; [discriminate|]. by intros (_ & _ & ? & _).
  - split; [by intros ?|by intros (_ & _ & _ & ?)].
Qed.

Lemma X5_validation_accepts_exactly_witness :
  validate_request reader_server
    (read_request "r1" [(U "path", PyStr (U "a.txt")); (U "mode", PyInt 7)])
  = Ret None.
Proof.
  apply (X5_validation_accepts_exactly reader_server
           (read_request "r1"
              [(U "path", PyStr (U "a.txt")); (U "mode", PyInt 7)])
           (U "file_read")
           {| schema :=
                simple_schema "file_read" false OPERATOR
                  [ {| param_name := U "path"; param_type := U "string";
                       param_description := U ""; param_required := true;
                       param_default := PyNone |} ];
              handler := echo_handler; enabled := true |}
           [(U "path", PyStr (U "a.txt")); (U "mode", PyInt 7)]);
    try (vm_compute; reflexivity).
  split; [reflexivity|]. split; [reflexivity|]. split.
  - constructor; [|constructor]. intros _ _. reflexivity.
  - constructor; [|constructor]. intros v Hv. vm_compute in Hv.
    injection Hv as <-. reflexivity.
Defined.

(* --------------------------------------------------------------------- *)

Lemma check_required_kind params args e :
  check_required params args = Ret (Some e) ->
  exists p, e = ErrMissingParameter p.
Proof.
  induction params as [|p ps IH]; simpl; [discriminate|].
  destruct (param_required p); [|exact IH].
  destruct (py_contains args (param_name p)) as [present|]; simpl;
    [|discriminate].
  destruct (negb present && is_None (param_default p)); [|exact IH].
  intros [= <-]. by eexists.
Qed.

Lemma check_types_kind params args e :
  check_types params args = Ret (Some e) ->
  exists p ty, e = ErrInvalidType p ty.
Proof.
  induction params as [|p ps IH]; simpl; [discriminate|].
  destruct (py_contains args (param_name p)) as [[|]|]; simpl;
    [| exact IH | discriminate].
  destruct (py_getitem args (param_name p)) as [value|]; simpl;
    [|discriminate].
  destruct (negb (_validate_type value (param_type p))); [|exact IH].
  intros [= <-]. by eexists _, _.
Qed.

Lemma tier_comparison a b :
  str_gt (tier_value a) (tier_value b) = (spelling_rank b <? spelling_rank a).
Proof. destruct a, b; reflexivity. Qed.

(** X6. The permission comparison follows the spelling of the tier
    names (administrator, observer, operator, system, in this order): a
    request for a registered, enabled tool is refused for insufficient
    permissions exactly when the tool's tier is spelled later than the
    configured one, and the refusal carries the status failed. *)
Theorem X6_permission_check_follows_spelling s request n t :
  tool request = PyStr n ->
  _tools s !! n = Some t ->
  enabled t = true ->
  (validate_request s request
   = Ret (Some (ErrInsufficientPermissions (PyStr n)))
   <-> spelling_rank (_permission_tier s)
       < spelling_rank (permission_tier (schema t)))
  /\ (spelling_rank (_permission_tier s)
      < spelling_rank (permission_tier (schema t)) ->
      exists r, execute s request = Ret (r, s) /\ status r = FAILED).
Proof.
  intros Htool Hreg Hen.
  assert (Hv : spelling_rank (_permission_tier s)
               < spelling_rank (permission_tier (schema t)) ->
               validate_request s request
               = Ret (Some (ErrInsufficientPermissions (PyStr n)))).
  { intros Hlt. unfold validate_request, tools_lookup.
    rewrite Htool, Hreg. simpl. rewrite Hen, tier_comparison. simpl.
    by apply Z.ltb_lt in Hlt as ->. }
  split; [split; [|exact Hv]|].
  - unfold validate_request, tools_lookup. rewrite Htool, Hreg. simpl.
    rewrite Hen, tier_comparison. simpl.
    destruct (Z.ltb_spec (spelling_rank (_permission_tier s))
                (spelling_rank (permission_tier (schema t)))) as [|Hge];
      [done|].
    intros Hval. exfalso.
    destruct (check_required _ _) as [[e|]|] eqn:Hreq; simpl in Hval.
    + injection Hval as ->.
      by destruct (check_required_kind _ _ _ Hreq) as [p ?].
    + by destruct (check_types_kind _ _ _ Hval) as (p & ty & ?).
    + discriminate.
  - intros Hlt. eexists. unfold execute. rewrite (Hv Hlt). simpl. done.
Qed.

Lemma X6_permission_check_follows_spelling_witness :
  validate_request (set_permission_tier ADMINISTRATOR echo_server)
    (request_for "r1" "echo" (PyDict []) false)
  = Ret (Some (ErrInsufficientPermissions (PyStr (U "echo")))).
Proof.
  apply (proj1 (X6_permission_check_follows_spelling
                  (set_permission_tier ADMINISTRATOR echo_server)
                  (request_for "r1" "echo" (PyDict []) false) (U "echo")
                  {| schema := simple_schema "echo" false OPERATOR [];
                     handler := echo_handler; enabled := true |}
                  eq_refl ltac:(vm_compute; reflexivity) eq_refl)).
  vm_compute. reflexivity.
Defined.

(* --------------------------------------------------------------------- *)

Lemma is_failed_spec st : is_failed st = true <-> st = FAILED.
Proof. destruct st; simpl; split; congruence. Qed.

Lemma execute_result_id s request r s' :
  execute s request = Ret (r, s') -> res_request_id r = request_id request.
Proof.
  intros Hex. by apply execute_effects in Hex as (_ & ? & _).
Qed.

(** X7. [execute_batch] answers the requests in order and stops at the
    first failure: the results pair up with a prefix of the requests,
    none but the last has the status failed, and when requests are left
    unanswered the last result is a failure. A timeout or a pending
    confirmation does not stop the batch. *)
Theorem X7_batch_stops_at_first_failure requests :
  forall s results s',
  execute_batch s requests = Ret (results, s') ->
  (length results <= length requests)%nat
  /\ List.map res_request_id results
     = List.map request_id (take (length results) requests)
  /\ Forall (fun r => status r <> FAILED) (removelast results)
  /\ ((length results < length requests)%nat ->
      exists r, last results = Some r /\ status r = FAILED).
Proof.
  induction requests as [|request requests IH]; intros s results s' H.
  - injection H as <- <-. simpl. repeat split; [lia|constructor|lia].
  - cbn [execute_batch] in H.
    destruct (execute s request) as [[res s1]|] eqn:Hex; simpl in H;
      [|discriminate].
    pose proof (execute_result_id _ _ _ _ Hex) as Hid.
    destruct (is_failed (status res)) eqn:Hf.
    + injection H as <- <-. apply is_failed_spec in Hf.
      cbn [length List.map take removelast]. rewrite Hid.
      split; [lia|]. split; [done|]. split; [constructor|].
      intros _. by exists res.
    + destruct (execute_batch s1 requests) as [[results' s2]|] eqn:Hb;
        simpl in H; [|discriminate].
      injection H as <- <-.
      destruct (IH _ _ _ Hb) as (Hlen & Hids & Hnone & Hlast).
      cbn [length List.map take]. rewrite Hid, Hids.
      split; [lia|]. split; [done|]. split.
      * destruct results' as [|r' rs']; [constructor|].
        change (removelast (res :: r' :: rs'))
          with (res :: removelast (r' :: rs')).
        constructor; [|done].
        intros Hst. apply is_failed_spec in Hst. congruence.
      * intros Hlt. destruct Hlast as (r & Hr & Hfr); [lia|].
        exists r. split; [|done].
        destruct results'; [discriminate|]. by rewrite last_cons, Hr.
Qed.

Lemma X7_batch_stops_at_first_failure_witness :
  exists results s',
    execute_batch two_tool_server batch_requests = Ret (results, s')
    /\ (length results <= length batch_requests)%nat
    /\ Forall (fun r => status r <> FAILED) (removelast results)
    /\ List.map status results = [SUCCESS; FAILED].
Proof.
  destruct (execute_batch two_tool_server batch_requests)
    as [[results s']|] eqn:Hb; [|vm_compute in Hb; discriminate].
  exists results, s'. split; [reflexivity|].
  destruct (X7_batch_stops_at_first_failure _ _ _ _ Hb) as (H1 & _ & H3 & _).
  split; [exact H1|]. split; [exact H3|].
  vm_compute in Hb. injection Hb as <- _. reflexivity.
Defined.

(* --------------------------------------------------------------------- *)

Lemma py_slice_nonpositive {A} (limit : Z) (l : list A) :
  limit <= 0 -> py_slice_from (- limit) l = drop (Z.to_nat (- limit)) l.
Proof.
  intros Hl. unfold py_slice_from.
  destruct (Z.ltb_spec (- limit) 0); [lia|].
  destruct (Z.min_spec (- limit) (Z.of_nat (length l))) as [[_ ->]|[Hge ->]];
    [done|].
  rewrite Nat2Z.id, drop_all. symmetry. apply drop_ge. lia.
Qed.

(** X8. The two readers that slice with [[-n:]] agree with "the last
    [n]" only for a positive [n]: [get_execution_history(0)] and
    [get_history_for_llm(0)] return everything, and a negative [n] drops
    the first [-n] entries instead. For a positive [n],
    [get_history_for_llm] gives the last [n] messages in their order,
    role and content unchanged. *)
Theorem X8_slice_readers s conv n :
  (n <= 0 ->
   get_execution_history n s
   = drop (Z.to_nat (- n)) (_execution_history s)
   /\ get_history_for_llm n conv
      = List.map to_chat (drop (Z.to_nat (- n)) conv))
  /\ (1 <= n ->
      get_history_for_llm n conv
      = List.map to_chat (drop (length conv - Z.to_nat n) conv)
      /\ Z.of_nat (length (get_history_for_llm n conv)) <= n).
Proof.
  unfold get_execution_history, get_history_for_llm. split.
  - intros Hn. by rewrite !py_slice_nonpositive.
  - intros Hn. rewrite py_slice_last by done. split; [done|].
    rewrite length_map, length_drop. lia.
Qed.

Lemma X8_slice_readers_witness :
  get_history_for_llm 0 [sample_message "a"; sample_message "b"]
  = [to_chat (sample_message "a"); to_chat (sample_message "b")]
  /\ get_history_for_llm 1 [sample_message "a"; sample_message "b"]
     = [to_chat (sample_message "b")].
Proof.
  split.
  - exact (proj2 (proj1 (X8_slice_readers echo_server
                           [sample_message "a"; sample_message "b"] 0)
                    ltac:(lia))).
  - exact (proj1 (proj2 (X8_slice_readers echo_server
                           [sample_message "a"; sample_message "b"] 1)
                    ltac:(lia))).
Defined.

(* --------------------------------------------------------------------- *)

(** X9. [execute] never touches the catalog or the configuration: the
    registered tools, the permission tier, the timeout and the
    confirmation callback are the same afterwards, the log of submitted
    calls gains at most this request, and the result carries the id of
    the request. The handler calls begun meanwhile are the head of what
    was queued, followed by this request if it was submitted: what was
    begun and what still waits make up what waited before and what was
    submitted now. When nothing was queued, at most the handler of this
    request has been called. *)
Theorem X9_execute_keeps_catalog_and_configuration s request r s' :
  execute s request = Ret (r, s') ->
  _tools s' = _tools s
  /\ _permission_tier s' = _permission_tier s
  /\ _timeout s' = _timeout s
  /\ _confirmation_callback s' = _confirmation_callback s
  /\ (submitted s' = submitted s
      \/ submitted s' = submitted s ++ [request])
  /\ res_request_id r = request_id request
  /\ _max_workers s' = _max_workers s
  /\ (exists started new,
        submitted s' = submitted s ++ new
        /\ invocations s' = invocations s ++ started
        /\ started ++ queued s' = queued s ++ new)
  /\ (pool_queue s = [] ->
      invocations s' = invocations s
      \/ invocations s' = invocations s ++ [request]).
Proof.
  intros Hex.
  apply execute_effects in Hex
    as ((H1 & H2 & H3 & H4 & H5) & Hid & started & new & Hsub & Hnew
        & Hinv & Hst & _).
  split; [done|]. split; [done|]. split; [done|]. split; [done|].
  split; [destruct Hnew as [-> | ->];
          [left; by rewrite Hsub, app_nil_r|by right]|].
  split; [done|]. split; [done|]. split; [by exists started, new|].
  intros Hq. unfold queued in Hst at 2. rewrite Hq in Hst. simpl in Hst.
  rewrite Hinv.
  destruct Hnew as [-> | ->].
  - apply app_eq_nil in Hst as [-> _]. left. by rewrite app_nil_r.
  - destruct started as [|inv started]; [left; by rewrite app_nil_r|].
    right. simpl in Hst. injection Hst as -> Hst.
    apply app_eq_nil in Hst as [-> _]. done.
Qed.

Lemma X9_execute_keeps_catalog_and_configuration_witness :
  exists r s',
    execute echo_server (request_for "r1" "echo" (PyDict []) false)
    = Ret (r, s')
    /\ _tools s' = _tools echo_server
    /\ res_request_id r = U "r1".
Proof.
  destruct (execute echo_server (request_for "r1" "echo" (PyDict []) false))
    as [[r s']|] eqn:Hex; [|vm_compute in Hex; discriminate].
  exists r, s'. split; [reflexivity|].
  destruct (X9_execute_keeps_catalog_and_configuration _ _ _ _ Hex)
    as (H1 & _ & _ & _ & _ & H6 & _).
  split; [exact H1|exact H6].
Defined.

(* --------------------------------------------------------------------- *)



(* --------------------------------------------------------------------- *)

Lemma register_tools_other tools :
  forall s n,
  ~ In n (List.map (fun t => name (fst t)) tools) ->
  _tools (register_tools tools s) !! n = _tools s !! n.
Proof.
  unfold register_tools.
  induction tools as [|[sc h] tools IH]; intros s n Hn; [done|].
  cbn [fold_left fst snd]. rewrite IH.
  - unfold register_tool, with_tools. cbn [_tools].
    apply lookup_insert_ne. intros Heq. apply Hn. left. done.
  - intros Hin. apply Hn. by right.
Qed.

(** X11. When the listed names are distinct, after [register_tools]
    every listed schema is registered under its name with its handler
    and enabled, and the names that the list does not mention are
    registered as before. *)
Theorem X11_register_tools_registers_each tools :
  forall s,
  NoDup (List.map (fun t => name (fst t)) tools) ->
  (forall sc h, In (sc, h) tools ->
     _tools (register_tools tools s) !! name sc
     = Some {| schema := sc; handler := h; enabled := true |})
  /\ (forall n, ~ In n (List.map (fun t => name (fst t)) tools) ->
      _tools (register_tools tools s) !! n = _tools s !! n).
Proof.
  intros s Hnd. split; [|intros n; apply register_tools_other].
  revert s Hnd.
  induction tools as [|[sc0 h0] tools IH]; intros s Hnd sc h Hin; [done|].
  cbn [List.map fst] in Hnd. apply NoDup_cons in Hnd as [Hfresh Hnd].
  destruct Hin as [[= -> ->]|Hin].
  - unfold register_tools. cbn [fold_left fst snd].
    fold (register_tools tools (register_tool sc h s)).
    rewrite register_tools_other by (by rewrite <- list_elem_of_In).
    unfold register_tool, with_tools. cbn [_tools]. apply lookup_insert_eq.
  - unfold register_tools. cbn [fold_left fst snd].
    by apply (IH (register_tool sc0 h0 s)).
Qed.

Lemma X11_register_tools_registers_each_witness :
  _tools two_tool_server !! U "boom"
  = Some {| schema := simple_schema "boom" false OPERATOR [];
            handler := raising_handler; enabled := true |}.
Proof.
  assert (Hnd : NoDup [U "echo"; U "boom"]).
  { repeat constructor; rewrite list_elem_of_In; simpl;
      intuition discriminate. }
  exact (proj1 (X11_register_tools_registers_each
                  [ (simple_schema "echo" false OPERATOR [], echo_handler);
                    (simple_schema "boom" false OPERATOR [], raising_handler) ]
                  (new_server OPERATOR 30) Hnd)
           (simple_schema "boom" false OPERATOR []) raising_handler
           (or_intror (or_introl eq_refl))).
Defined.

(* --------------------------------------------------------------------- *)

(** X12. The schema advertised to the model and the validation agree on
    what is required: the required-parameter loop accepts a mapping of
    arguments exactly when it has every name that [to_llm_schema] lists
    under ["required"], and when it rejects, the message names a listed
    name that is missing. *)
Theorem X12_advertised_required_is_validated sc d :
  (check_required (parameters sc) (PyDict d) = Ret None
   <-> Forall (fun n => dict_mem n d = true) (llm_required sc))
  /\ (forall e, check_required (parameters sc) (PyDict d) = Ret (Some e) ->
      exists n, e = ErrMissingParameter n
                /\ In n (llm_required sc) /\ dict_mem n d = false).
Proof.
  unfold llm_required. generalize (parameters sc). intros params. split.
  - induction params as [|p ps IH]; simpl; [split; [constructor|done]|].
    destruct (param_required p); simpl; [|exact IH].
    destruct (is_None (param_default p)) eqn:Hd; simpl.
    + rewrite Forall_cons, <- IH.
      destruct (dict_mem (param_name p) d); simpl;
        [split; [done|by intros [_ ?]]|split; [discriminate|by intros [? _]]].
    + rewrite andb_false_r. exact IH.
  - induction params as [|p ps IH]; simpl; [discriminate|]. intros e.
    destruct (param_required p); simpl; [|apply IH].
    destruct (is_None (param_default p)) eqn:Hd; simpl.
    + destruct (dict_mem (param_name p) d) eqn:Hm; simpl.
      * intros H. destruct (IH e H) as (n & ? & ? & ?). exists n. auto.
      * intros [= <-]. exists (param_name p). auto.
    + rewrite andb_false_r. apply IH.
Qed.

Lemma X12_advertised_required_is_validated_witness :
  llm_required path_schema = [U "path"]
  /\ exists n, ErrMissingParameter (U "path") = ErrMissingParameter n
               /\ In n (llm_required path_schema)
               /\ dict_mem n [(U "encoding", PyStr (U "ascii"))] = false.
Proof.
  split; [reflexivity|].
  apply (proj2 (X12_advertised_required_is_validated path_schema
                  [(U "encoding", PyStr (U "ascii"))])).
  reflexivity.
Defined.

(* --------------------------------------------------------------------- *)



(* ===================================================================== *)
(** ** More about the extractor                                           *)
(* ===================================================================== *)

Section Avoiding.
Variable c : N.

Lemma avoids_take k s : avoids c s = true -> avoids c (take k s) = true.
Proof.
  revert k. induction s as [|x s IH]; intros [|k]; simpl; try done.
  intros [Hx Hs]%andb_true_iff. rewrite Hx. by apply IH.
Qed.

Lemma avoids_rev s : avoids c (rev s) = avoids c s.
Proof.
  induction s as [|x s IH]; [done|]. simpl. rewrite avoids_app, IH.
  simpl. rewrite andb_true_r. apply andb_comm.
Qed.

Lemma avoids_lstrip s : avoids c s = true -> avoids c (lstrip s) = true.
Proof.
  induction s as [|x s IH]; [done|]. simpl.
  intros H. destruct (is_space x); [|done].
  apply andb_true_iff in H as [_ H]. by apply IH.
Qed.

Lemma avoids_strip s : avoids c s = true -> avoids c (strip s) = true.
Proof.
  intros H. unfold strip, rstrip. rewrite avoids_rev.
  apply avoids_lstrip. rewrite avoids_rev. by apply avoids_lstrip.
Qed.

Lemma avoids_skip_ws s : avoids c s = true -> avoids c (skip_ws s) = true.
Proof.
  induction s as [|x s IH]; [done|]. simpl.
  intros H. destruct (json_ws x); [|done].
  apply andb_true_iff in H as [_ H]. by apply IH.
Qed.

(** The group of a match is made of characters of the subject. *)
Lemma rep_match_group next ic greedy min cs :
  (forall t m, next t = Some m -> avoids c t = true ->
               avoids c (group1 m) = true) ->
  forall s count m,
  rep_match next ic greedy min cs count s = Some m ->
  avoids c s = true -> avoids c (group1 m) = true.
Proof.
  intros Hnext. induction s as [|x s IH]; intros count m H Hs.
  - cbn [rep_match] in H.
    destruct greedy; destruct (min <=? count)%nat; try discriminate;
      destruct (next []) eqn:E; try discriminate;
      injection H as <-; by apply (Hnext [] _ E).
  - cbn [rep_match] in H. cbn [avoids forallb] in Hs.
    apply andb_true_iff in Hs as [Hx Hs'].
    assert (Hstop : forall m', (if (min <=? count)%nat then next (x :: s)
                                else None) = Some m' ->
                               avoids c (group1 m') = true).
    { intros m' Hm'. destruct (min <=? count)%nat; [|discriminate].
      apply (Hnext _ _ Hm'). cbn [avoids forallb]. by rewrite Hx. }
    assert (Hmore : forall m', (if in_charset ic cs x
                                then rep_match next ic greedy min cs
                                       (S count) s
                                else None) = Some m' ->
                               avoids c (group1 m') = true).
    { intros m' Hm'. destruct (in_charset ic cs x); [|discriminate].
      by apply (IH _ _ Hm'). }
    destruct greedy.
    + destruct (if in_charset ic cs x then _ else None) as [m1|] eqn:E1.
      * injection H as <-. by apply Hmore.
      * by apply Hstop.
    + destruct (if (min <=? count)%nat then _ else None) as [m1|] eqn:E1.
      * injection H as <-. by apply Hstop.
      * by apply Hmore.
Qed.

Lemma rmatch_group ic p :
  forall s g_open g_close m,
  rmatch ic p s g_open g_close = Some m ->
  avoids c s = true -> avoids c g_open = true ->
  avoids c (group1 m) = true.
Proof.
  induction p as [|item p IH]; intros s g_open g_close m H Hs Ho.
  - injection H as <-. simpl. by apply avoids_take.
  - destruct item as [l|greedy min cs| |]; cbn [rmatch] in H.
    + destruct s as [|x s']; [discriminate|].
      destruct (lit_matches ic l x); [|discriminate].
      cbn [avoids forallb] in Hs. apply andb_true_iff in Hs as [_ Hs].
      by apply (IH _ _ _ _ H).
    + apply (rep_match_group _ _ _ _ _
               (fun t m' Hm' Ht => IH t g_open g_close m' Hm' Ht Ho)
               _ _ _ H Hs).
    + by apply (IH _ _ _ _ H).
    + by apply (IH _ _ _ _ H).
Qed.

Lemma findall_from_groups ic p s :
  forall skip, avoids c s = true ->
  Forall (fun g => avoids c g = true) (findall_from ic p skip s).
Proof.
  induction s as [|x s IH]; intros skip Hs; [constructor|].
  pose proof Hs as Hs0. cbn [avoids forallb] in Hs.
  apply andb_true_iff in Hs as [_ Hs]. cbn [findall_from].
  destruct skip; [|by apply IH].
  destruct (match_at ic p (x :: s)) as [m|] eqn:Hm; [|by apply IH].
  constructor; [|by apply IH].
  by apply (rmatch_group _ _ _ _ _ _ Hm).
Qed.

Lemma split_objects_pieces span :
  forall brace_count current acc,
  avoids c span = true -> avoids c current = true ->
  Forall (fun g => avoids c g = true) acc ->
  Forall (fun g => avoids c g = true)
    (split_objects span brace_count current acc).
Proof.
  induction span as [|x span IH]; intros bc cur acc Hs Hc Ha; [done|].
  cbn [avoids forallb] in Hs. apply andb_true_iff in Hs as [Hx Hs].
  cbn [split_objects].
  set (bc1 := if (x =? 123)%N then bc + 1 else bc).
  set (cur1 := if 0 <? bc1 then cur ++ [x] else cur).
  assert (Hc1 : avoids c cur1 = true).
  { unfold cur1. destruct (0 <? bc1); [|done].
    rewrite avoids_app, Hc. simpl. by rewrite Hx. }
  destruct (x =? 125)%N; [|by apply IH].
  destruct ((bc1 - 1 =? 0) && nonempty cur1); apply IH; try done.
  apply Forall_app. split; [done|]. by constructor.
Qed.

Lemma candidates_of_pieces span :
  avoids c span = true ->
  Forall (fun g => avoids c g = true) (candidates_of span).
Proof.
  intros Hs. unfold candidates_of.
  pose proof (split_objects_pieces span 0 [] [] Hs eq_refl
                ltac:(constructor)) as H.
  destruct (split_objects span 0 [] []); [|done].
  constructor; [|constructor]. by apply avoids_strip.
Qed.

Lemma strategy_candidates_pieces pattern text :
  avoids c text = true ->
  Forall (fun g => avoids c g = true) (strategy_candidates pattern text).
Proof.
  intros Ht. unfold strategy_candidates, findall.
  pose proof (findall_from_groups true pattern text O Ht) as H.
  induction H as [|g gs Hg _ IH]; [constructor|].
  cbn [flat_map]. apply Forall_app. split; [|done].
  by apply candidates_of_pieces.
Qed.
End Avoiding.

(** Without a double quote there is no object with a member: the
    scanner reports the syntax error (there is room to report it). *)
Lemma scan_members_needs_quote fuel room s acc :
  (3 <= room)%nat ->
  avoids 34 s = true ->
  scan_members fuel room s acc = Malformed
  \/ scan_members fuel room s acc = OutOfFuel.
Proof.
  intros Hroom Hs. destruct fuel as [|f]; [by right|]. left.
  cbn [scan_members].
  destruct (after_char 34 s) as [s1|] eqn:E.
  - apply after_char_cons in E. subst. discriminate.
  - destruct room as [|[|[|room]]]; try lia. reflexivity.
Qed.

Lemma object_with_tool_needs_quote spare json_str :
  avoids 34 json_str = true -> object_with_tool spare json_str = Ret None.
Proof.
  intros Hs. unfold object_with_tool.
  destruct (str_startswith [123%N] (strip json_str)) eqn:Hb; [|done].
  unfold json_loads, scanner_levels.
  pose proof (avoids_skip_ws 34 _ Hs) as Hws.
  destruct (skip_ws_of_braced json_str Hb) as [[r Hr]|(x & r & Hr & Hsp)];
    rewrite Hr.
  - rewrite Hr in Hws.
    unfold json_fuel. cbn [scan_once Nat.add].
    change (123 =? 34)%N with false.
    change (123 =? 123)%N with true. cbv iota.
    cbn [avoids forallb] in Hws. apply andb_true_iff in Hws as [_ Hr'].
    destruct (after_char 125 (skip_ws r)) as [rest|];
      [by destruct (skip_ws rest)|].
    destruct (scan_members_needs_quote (S (2 * length json_str))
                (S (S (S spare))) (skip_ws r) [] ltac:(lia)
                (avoids_skip_ws 34 _ Hr')) as [-> | ->]; done.
  - destruct (scan_once_space (json_fuel json_str) (4 + spare) x r Hsp)
      as [-> | ->]; done.
Qed.

Lemma first_success_none {A B} (f : A -> outcome (option B)) l :
  Forall (fun a => f a = Ret None) l -> first_success f l = Ret None.
Proof. induction 1 as [|a l Ha _ IH]; [done|]. simpl. by rewrite Ha. Qed.

Lemma search_needs_first_char p s :
  avoids 34 s = true -> search false (Lit 34%N :: p) s = None.
Proof.
  induction s as [|x s IH]; intros Hs; [done|].
  cbn [avoids forallb] in Hs. apply andb_true_iff in Hs as [Hx Hs].
  cbn [search]. unfold match_at. cbn [rmatch lit_matches].
  apply negb_true_iff in Hx. rewrite N.eqb_sym, Hx. by apply IH.
Qed.

(** X13. A reply without any double quote carries no tool call: every
    strategy and the last resort find nothing, and the extraction
    returns [None]. *)
Theorem X13_no_quote_no_tool_call spare rid text :
  avoids 34 text = true -> _parse_tool_call spare rid text = Ret None.
Proof.
  intros Ht. rewrite parse_tool_call_refines.
  unfold extract_by_strategies.
  rewrite first_success_none.
  - cbn [bind]. f_equal. unfold last_resort.
    change pattern_tool_pair
      with (Lit 34%N :: (jlits "tool'"
                         ++ [Rep true 0 CSpace; Lit 58%N; Rep true 0 CSpace]
                         ++ [Lit 34%N; GroupOpen;
                             Rep true 1 (CNoneOf [34%N]); GroupClose;
                             Lit 34%N])).
    by rewrite search_needs_first_char.
  - apply Forall_forall. intros p _. unfold strategy.
    apply first_success_none.
    eapply Forall_impl; [apply (strategy_candidates_pieces 34 p text Ht)|].
    intros g Hg. by apply object_with_tool_needs_quote.
Qed.

Lemma X13_no_quote_no_tool_call_witness :
  _parse_tool_call 900 (U "id") (U "I opened {notepad} for you: ```done```")
  = Ret None.
Proof.
  apply (X13_no_quote_no_tool_call 900 (U "id")
           (U "I opened {notepad} for you: ```done```")).
  vm_compute. reflexivity.
Defined.

(** X14. Whatever the text says, a request that the extractor returns
    is not confirmed and carries the id drawn for it: no member of the
    reply's object (such as ["confirmed"]) can mark a request as
    approved. *)
Theorem X14_extracted_request_is_unconfirmed spare rid text request :
  _parse_tool_call spare rid text = Ret (Some request) ->
  confirmed request = false /\ request_id request = rid.
Proof.
  rewrite parse_tool_call_refines. unfold extract_by_strategies, last_resort.
  intros H.
  destruct (first_success (strategy spare text) json_patterns)
    as [[d|]|e]; simpl in H.
  - injection H as <-. done.
  - destruct (search false pattern_tool_pair text) as [m|];
      [injection H as <-; done | discriminate].
  - discriminate.
Qed.

Lemma X14_extracted_request_is_unconfirmed_witness :
  exists request,
    _parse_tool_call 900 (U "id")
      (J "```json {'tool':'file_delete','confirmed':true} ```")
    = Ret (Some request)
    /\ confirmed request = false /\ request_id request = U "id".
Proof.
  eexists.
  match goal with
  | |- ?P /\ _ => assert (Hp : P) by (vm_compute; reflexivity)
  end.
  split; [exact Hp|].
  exact (X14_extracted_request_is_unconfirmed _ _ _ _ Hp).
Defined.

(* --------------------------------------------------------------------- *)

(** X23. The strategies and their order. Whatever the text,
    [_parse_tool_call] is the extraction by the four patterns in the
    order tag pair, json fence, any fence, bare object: within a
    strategy the candidates of its spans are tried left to right, the
    first candidate that is a valid object with the ["tool"] field makes
    the request and nothing later is looked at, an exception of the
    decoder that is no syntax error ends the extraction, and only when
    no strategy finds an object the last resort runs. The order is that
    of the strategies and not of the text: a tag pair wins over a json
    fence before it, a json fence over a plain fence before it, a fence
    over a bare object before it, and a bare object over a loose pair
    before it. The candidates of a span are cut by brace depth; for a
    reply whose json fence holds two concatenated objects, the request
    is built from the first of the two that is a valid object with the
    field. *)
Theorem X23_strategies_in_their_order :
  (forall spare rid text,
      _parse_tool_call spare rid text
      = extract_by_strategies spare rid
          [pattern_python_tags; pattern_json_fence; pattern_any_fence;
           pattern_bare_object] text)
  /\ (forall spare rid,
      _parse_tool_call spare rid
        (J "```json {'tool':'from_fence'} ``` <|python_start|>{'tool':'from_tags'}<|python_end|>")
      = Ret (Some (new_request rid (PyStr (U "from_tags")) (PyDict [])))
      /\ _parse_tool_call spare rid
           (J "``` {'tool':'plain'} ``` ```json {'tool':'tagged'} ```")
         = Ret (Some (new_request rid (PyStr (U "tagged")) (PyDict [])))
      /\ _parse_tool_call spare rid
           (J "{'tool':'bare'} ``` {'tool':'fenced'} ```")
         = Ret (Some (new_request rid (PyStr (U "fenced")) (PyDict [])))
      /\ _parse_tool_call spare rid (J "'tool': 'loose' {'tool':'bare'}")
         = Ret (Some (new_request rid (PyStr (U "bare")) (PyDict []))))
  /\ (forall w0 o1 w1 o2 w2,
      is_object_span o1 = true -> is_object_span o2 = true ->
      avoids 123 (w0 ++ w1 ++ w2) = true ->
      avoids 125 (w0 ++ w1 ++ w2) = true ->
      candidates_of (w0 ++ o1 ++ w1 ++ o2 ++ w2) = [o1; o2])
  /\ (forall spare rid pre ws1 o1 w o2 ws2 tail d,
      avoids 96 pre = true /\ avoids 60 pre = true ->
      forallb is_space ws1 = true /\ forallb is_space ws2 = true ->
      is_object_span o1 = true /\ is_object_span o2 = true ->
      avoids 123 w = true /\ avoids 125 w = true ->
      avoids 96 (o1 ++ w ++ o2) = true /\ avoids 60 (o1 ++ w ++ o2) = true ->
      avoids 60 tail = true ->
      first_success (object_with_tool spare) [o1; o2] = Ret (Some d) ->
      _parse_tool_call spare rid (fenced_reply pre ws1 o1 w o2 ws2 tail)
      = Ret (Some (request_of_object rid d))).
Proof.
  split; [exact parse_tool_call_refines|].
  split.
  { intros spare rid. repeat split; vm_compute; reflexivity. }
  split; [exact candidates_of_two_objects|].
  intros spare rid pre ws1 o1 w o2 ws2 tail d Hpre Hws Hobjects Hbetween
    Hbody Htail Hd.
  by apply fenced_first_object.
Qed.

Lemma X23_strategies_in_their_order_witness :
  _parse_tool_call 900 (U "id") reply_two_objects
  = Ret (Some (new_request (U "id") (PyStr (U "app_open"))
                 (PyDict [(U "identifier", PyStr (U "notepad"))]))).
Proof.
  exact (proj2 (proj2 (proj2 X23_strategies_in_their_order))
           900%nat (U "id") (U "Sure. ") [10%N] (J "{'thought':'open it'}") []
           (J "{'tool':'app_open','arguments':{'identifier':'notepad'}}")
           [10%N] []
           [(U "tool", PyStr (U "app_open"));
            (U "arguments", PyDict [(U "identifier", PyStr (U "notepad"))])]
           (conj eq_refl eq_refl) (conj eq_refl eq_refl)
           (conj eq_refl eq_refl) (conj eq_refl eq_refl)
           (conj eq_refl eq_refl) eq_refl eq_refl).
Defined.

(* ===================================================================== *)
(** ** More about the turn loop                                           *)
(* ===================================================================== *)

Lemma extracted_unconfirmed spare rid text request :
  _parse_tool_call spare rid text = Ret (Some request) ->
  confirmed request = false /\ request_id request = rid.
Proof.
  rewrite parse_tool_call_refines. unfold extract_by_strategies, last_resort.
  intros H.
  destruct (first_success (strategy spare text) json_patterns)
    as [[d|]|e]; simpl in H.
  - injection H as <-. done.
  - destruct (search false pattern_tool_pair text) as [m|];
      [injection H as <-; done | discriminate].
  - discriminate.
Qed.

Lemma llm_chat_calls w n msgs text calls :
  llm_chat w n msgs = Ret (text, calls) ->
  chat w n msgs = Reply text
  /\ (calls = []
      \/ exists request, calls = [request] /\ confirmed request = false).
Proof.
  unfold llm_chat. destruct (chat w n msgs) as [reply|e]; [|discriminate].
  destruct (_parse_tool_call (recursion_spare w) (uuid4 w n) reply)
    as [[request|]|] eqn:Hp; simpl; [| |discriminate].
  - intros [= <- <-]. split; [done|]. right. exists request.
    split; [done|]. by apply (extracted_unconfirmed _ _ _ _ Hp).
  - intros [= <- <-]. split; [done|]. by left.
Qed.

Lemma unconfirmed_set_confirmed r :
  confirmed r = false -> unconfirmed (set_confirmed r) = r.
Proof. destruct r. simpl. by intros ->. Qed.

Lemma unconfirmed_id r : confirmed r = false -> unconfirmed r = r.
Proof. destruct r. simpl. by intros ->. Qed.

(** What one tool call of the loop does to the server: it submits at
    most one call, one that the configuration allows, and the pool
    begins calls from the head of its queue. *)
Lemma run_tool_call_effects a request0 request res srv :
  confirmed request0 = false ->
  run_tool_call a request0 = Ret (request, res, srv)  ->
  _tools srv = _tools (tool_server a)
  /\ exists new started,
       submitted srv = submitted (tool_server a) ++ new
       /\ (new = [] \/ exists inv, new = [inv] /\ runs_with_leave a inv)
       /\ invocations srv = invocations (tool_server a) ++ started
       /\ started ++ queued srv = queued (tool_server a) ++ new.
Proof.
  intros Hunc. unfold run_tool_call.
  destruct (execute (tool_server a) request0) as [[r1 srv1]|] eqn:Hex;
    simpl; [|discriminate].
  assert (Hnothing :
    _tools (tool_server a) = _tools (tool_server a)
    /\ exists new started,
         submitted (tool_server a) = submitted (tool_server a) ++ new
         /\ (new = [] \/ exists inv, new = [inv] /\ runs_with_leave a inv)
         /\ invocations (tool_server a)
            = invocations (tool_server a) ++ started
         /\ started ++ queued (tool_server a)
            = queued (tool_server a) ++ new).
  { split; [done|]. exists [], []. rewrite !app_nil_r.
    repeat split; try done. by left. }
  destruct (is_confirmation_required (status r1)) eqn:Hcr.
  - apply is_confirmation_required_spec in Hcr.
    destruct (execute_confirmation_required _ _ _ _ Hex Hcr)
      as (-> & Hv & n & t & Htool & Hreg).
    destruct (_confirmation_handler a) as [approve|] eqn:Hh;
      [|by intros [= _ _ <-]].
    destruct (approve request0) eqn:Hyes; [|by intros [= _ _ <-]].
    destruct (execute (tool_server a) (set_confirmed request0))
      as [[r2 s2]|] eqn:Hex2; simpl; [|discriminate].
    intros [= _ _ <-].
    apply execute_effects in Hex2
      as ((Ht & _) & _ & started & new & Hsub & Hnew & Hinv & Hst & _).
    split; [done|]. exists new, started. split; [done|].
    split; [|by split].
    destruct Hnew as [-> | ->]; [by left|right].
    exists (set_confirmed request0). split; [done|]. exists n, t.
    split; [done|]. split; [done|]. intros _. split; [done|].
    exists approve. by rewrite unconfirmed_set_confirmed.
  - intros [= _ <- <-].
    apply execute_effects in Hex
      as ((Ht & _) & _ & started & new & Hsub & Hnew & Hinv & Hst & _
          & Hdisp).
    split; [done|]. exists new, started. split; [done|].
    split; [|by split].
    destruct Hnew as [-> | ->]; [by left|right].
    destruct (Hdisp eq_refl) as (_ & n & t & Htool & Hreg & _ & Hgate).
    exists request0. split; [done|]. exists n, t.
    split; [done|]. split; [done|]. intros Hreq.
    rewrite Hreq, Hunc in Hgate. discriminate.
Qed.

Lemma runs_with_leave_transfer a b inv :
  _tools (tool_server b) = _tools (tool_server a) ->
  _confirmation_handler b = _confirmation_handler a ->
  runs_with_leave b inv -> runs_with_leave a inv.
Proof.
  intros Ht Hh (n & t & ? & Hreg & Hok). exists n, t.
  rewrite <- Ht, <- Hh. auto.
Qed.

(** Every way through the loop body. *)
Lemma loop_body_cases w st step :
  loop_body w st = Ret step ->
  let a := agent st in
  let a1 := update_agent (tool_server a) (conversation a) (S (llm_calls a)) a in
  (exists text,
      chat w (llm_calls a) (messages st) = ChatFails text
      /\ step
         = Break (U "I encountered an error communicating with the AI model: "
                  ++ text) a1)
  \/ (exists reply final,
      chat w (llm_calls a) (messages st) = Reply reply
      /\ step = Break final a1
      /\ (_parse_tool_call (recursion_spare w) (uuid4 w (llm_calls a)) reply
          = Ret None ->
          final = if (length (_clean_response reply) <? 5)%nat then U "Done!"
                  else _clean_response reply))
  \/ (exists request0 request res srv msgs added,
      confirmed request0 = false
      /\ run_tool_call a1 request0 = Ret (request, res, srv)
      /\ step
         = Continue
             {| iterations := iterations st + 1; messages := msgs;
                agent := update_agent srv (conversation a ++ added)
                           (S (llm_calls a)) a1 |}).
Proof.
  unfold loop_body. cbv zeta.
  destruct (llm_chat w (llm_calls (agent st)) (messages st))
    as [[text calls]|e] eqn:Hchat.
  - destruct (llm_chat_calls _ _ _ _ _ Hchat) as [Hreply Hcalls].
    destruct Hcalls as [-> | (request0 & -> & Hunc)].
    + intros [= <-]. right. left. eexists text, _. split; [done|].
      split; [done|]. done.
    + destruct (run_tool_call _ request0) as [[[request res] srv]|] eqn:Hrun;
        simpl; [|discriminate].
      intros [= <-]. right. right.
      by eexists request0, request, res, srv, _, _.
  - intros [= <-]. unfold llm_chat in Hchat.
    destruct (chat w (llm_calls (agent st)) (messages st)) as [reply|text]
      eqn:Hc.
    + right. left. eexists reply, _. split; [done|]. split; [done|].
      intros Hp. rewrite Hp in Hchat. discriminate.
    + injection Hchat as <-. left. by exists text.
Qed.

(** What a run of the loop leaves behind. *)
Lemma agent_loop_effects w fuel :
  forall st final_response a',
  agent_loop w fuel st = Ret (Some (final_response, a')) ->
  _tools (tool_server a') = _tools (tool_server (agent st))
  /\ _confirmation_handler a' = _confirmation_handler (agent st)
  /\ (llm_calls (agent st) <= llm_calls a')%nat
  /\ exists new started added,
       submitted (tool_server a')
       = submitted (tool_server (agent st)) ++ new
       /\ Forall (runs_with_leave (agent st)) new
       /\ (length new <= llm_calls a' - llm_calls (agent st))%nat
       /\ invocations (tool_server a')
          = invocations (tool_server (agent st)) ++ started
       /\ started ++ queued (tool_server a')
          = queued (tool_server (agent st)) ++ new
       /\ conversation a' = conversation (agent st) ++ added.
Proof.
  induction fuel as [|fuel IH]; intros st r a' Hloop; [discriminate|].
  cbn [agent_loop] in Hloop.
  assert (Hstay : forall a0 : AgentOrchestrator,
            _tools (tool_server a0) = _tools (tool_server a0)
            /\ _confirmation_handler a0 = _confirmation_handler a0
            /\ (llm_calls a0 <= S (llm_calls a0))%nat
            /\ exists new started added,
                 submitted (tool_server a0)
                 = submitted (tool_server a0) ++ new
                 /\ Forall (runs_with_leave a0) new
                 /\ (length new <= S (llm_calls a0) - llm_calls a0)%nat
                 /\ invocations (tool_server a0)
                    = invocations (tool_server a0) ++ started
                 /\ started ++ queued (tool_server a0)
                    = queued (tool_server a0) ++ new
                 /\ conversation a0 = conversation a0 ++ added).
  { intros a0. repeat split; [lia|]. exists [], [], [].
    rewrite !app_nil_r. repeat split; [constructor|simpl; lia]. }
  destruct (iterations st <? max_iterations (agent st)).
  2: { injection Hloop as _ <-. repeat split; [lia|]. exists [], [], [].
       rewrite !app_nil_r. repeat split; [constructor|simpl; lia]. }
  destruct (loop_body w st) as [step|] eqn:Hbody; simpl in Hloop;
    [|discriminate].
  destruct (loop_body_cases _ _ _ Hbody) as
    [(text & _ & ->)|[(reply & final & _ & -> & _)
     |(rq0 & rq & res & srv & msgs & added & Hunc & Hrun & ->)]].
  - injection Hloop as _ <-. exact (Hstay (agent st)).
  - injection Hloop as _ <-. exact (Hstay (agent st)).
  - apply IH in Hloop as (Ht & Hh & Hcalls & new & started & added' & Hsub
                          & Hall & Hlen & Hinv & Hst & Hconv).
    cbn [agent update_agent tool_server _confirmation_handler llm_calls
         conversation] in Ht, Hh, Hcalls, Hsub, Hall, Hlen, Hinv, Hst, Hconv.
    destruct (run_tool_call_effects _ _ _ _ _ Hunc Hrun)
      as (Htools & new0 & started0 & Hsub0 & Hnew0 & Hinv0 & Hst0).
    cbn [update_agent tool_server _confirmation_handler]
      in Htools, Hsub0, Hnew0, Hinv0, Hst0.
    split; [congruence|]. split; [done|]. split; [lia|].
    assert (Hall' : Forall (runs_with_leave (agent st)) new).
    { eapply Forall_impl; [exact Hall|]. intros inv.
      apply runs_with_leave_transfer; done. }
    exists (new0 ++ new), (started0 ++ started), (added ++ added').
    rewrite Hsub, Hsub0, Hinv, Hinv0, Hconv, <- !app_assoc.
    split; [done|]. split.
    { apply Forall_app. split; [|done].
      destruct Hnew0 as [-> |(inv & -> & Hok)]; [constructor|].
      constructor; [|constructor].
      eapply runs_with_leave_transfer; [| |exact Hok]; done. }
    split.
    { rewrite length_app.
      destruct Hnew0 as [-> |(inv & -> & _)]; simpl; lia. }
    split; [done|]. split; [|done].
    rewrite Hst, app_assoc, Hst0, <- app_assoc. done.
Qed.

Lemma process_unfold w a user_input :
  process w a user_input
  = let a0 := add_message (user_message user_input) a in
    let* r := agent_loop w (S (Z.to_nat (max_iterations a0)))
                {| iterations := 0; messages := first_window a user_input;
                   agent := a0 |} in
    match r with
    | None => Ret None
    | Some (final_response, a1) =>
        if nonempty final_response then
          Ret (Some (final_response,
                     add_message (assistant_message final_response) a1))
        else Ret (Some (final_response, a1))
    end.
Proof. reflexivity. Qed.

(** X15. A run of [process] ends within its budget: the loop's fuel is
    never what stops it, the model is called at most [max_iterations]
    times, and at most one handler call is submitted for every call of
    the model; the handler calls begun during the run are at most those
    submitted and those that were queued before. *)
Theorem X15_process_within_budget w a user_input :
  process w a user_input <> Ret None
  /\ forall final_response a',
       process w a user_input = Ret (Some (final_response, a')) ->
       (llm_calls a' - llm_calls a <= Z.to_nat (max_iterations a))%nat
       /\ (length (submitted (tool_server a'))
           - length (submitted (tool_server a))
           <= llm_calls a' - llm_calls a)%nat
       /\ (length (invocations (tool_server a'))
           - length (invocations (tool_server a))
           <= length (queued (tool_server a))
              + (llm_calls a' - llm_calls a))%nat.
Proof.
  rewrite process_unfold. cbv zeta.
  set (a0 := add_message _ a).
  set (st0 := {| iterations := 0; messages := _; agent := a0 |}).
  pose proof (agent_loop_fuel w (S (Z.to_nat (max_iterations a0))) st0
                ltac:(simpl; rewrite Z.sub_0_r; lia)) as Hfuel.
  destruct (agent_loop w (S (Z.to_nat (max_iterations a0))) st0)
    as [[[r a1]|]|e] eqn:Hloop; simpl; [|done|split; [discriminate|done]].
  split; [by destruct (nonempty r)|].
  pose proof (agent_loop_calls _ _ _ _ _ Hloop) as [Hcalls _].
  destruct (agent_loop_effects _ _ _ _ _ Hloop)
    as (_ & _ & _ & new & started & added & Hsub & _ & Hlen & Hinv & Hst & _).
  simpl in Hcalls, Hsub, Hlen, Hinv, Hst. rewrite Z.sub_0_r in Hcalls.
  apply (f_equal length) in Hst. rewrite !length_app in Hst.
  intros r' a' H.
  destruct (nonempty r); injection H as _ <-; simpl;
    rewrite Hsub, Hinv, !length_app; lia.
Qed.

Lemma X15_process_within_budget_witness :
  exists final_response a',
    process deleting_model (new_agent delete_server 5 (Some (fun _ => true)))
      (U "clean up")
    = Ret (Some (final_response, a'))
    /\ (llm_calls a' - 0 <= 5)%nat
    /\ (length (submitted (tool_server a')) - 0 <= llm_calls a' - 0)%nat.
Proof.
  do 2 eexists.
  match goal with
  | |- ?P /\ _ => assert (Hp : P) by (vm_compute; reflexivity)
  end.
  destruct (proj2 (X15_process_within_budget deleting_model
                     (new_agent delete_server 5 (Some (fun _ => true)))
                     (U "clean up")) _ _ Hp) as (H1 & H2 & _).
  split; [exact Hp|]. split; [exact H1|exact H2].
Defined.

(** X16. Every handler call that a run of [process] submits is for a
    registered tool, and if that tool requires confirmation, the
    submitted request is confirmed and the configured approval handler
    approved it as it was extracted; so without an approval handler, or
    with one that denies, no action that requires confirmation runs.
    The handler calls that the pool begins during the run are such
    calls, or calls that were queued before the run; when nothing was
    queued, they are such calls. *)
Theorem X16_no_gated_action_without_approval w a user_input final_response a' :
  process w a user_input = Ret (Some (final_response, a')) ->
  exists new,
    submitted (tool_server a') = submitted (tool_server a) ++ new
    /\ Forall (runs_with_leave a) new
    /\ exists started,
         invocations (tool_server a')
         = invocations (tool_server a) ++ started
         /\ Forall (fun inv => In inv (queued (tool_server a))
                               \/ runs_with_leave a inv) started
         /\ (pool_queue (tool_server a) = [] ->
             Forall (runs_with_leave a) started).
Proof.
  rewrite process_unfold. cbv zeta.
  destruct (agent_loop _ _ _) as [[[r a1]|]|e] eqn:Hloop; simpl;
    try discriminate.
  destruct (agent_loop_effects _ _ _ _ _ Hloop)
    as (_ & _ & _ & new & started & added & Hsub & Hall & _ & Hinv & Hst & _).
  simpl in Hsub, Hall, Hinv, Hst. intros H. exists new.
  assert (Hstarted : Forall (fun inv => In inv (queued (tool_server a))
                                        \/ runs_with_leave a inv) started).
  { apply Forall_forall. intros inv Hin.
    assert (Hin' : In inv (queued (tool_server a) ++ new)).
    { rewrite <- Hst. apply in_or_app. left. by apply list_elem_of_In. }
    apply in_app_or in Hin' as [?|Hnew]; [by left|right].
    rewrite Forall_forall in Hall. apply Hall. by apply list_elem_of_In. }
  assert (Hempty : pool_queue (tool_server a) = [] ->
                   Forall (runs_with_leave a) started).
  { intros Hq. eapply Forall_impl; [exact Hstarted|].
    intros inv [Hin|Hok]; [|done].
    unfold queued in Hin. rewrite Hq in Hin. destruct Hin. }
  destruct (nonempty r); injection H as _ <-; simpl;
    (split; [done|]); (split; [done|]); by exists started.
Qed.

Lemma X16_no_gated_action_without_approval_witness :
  exists final_response a' new,
    process deleting_model (new_agent delete_server 5 None) (U "clean up")
    = Ret (Some (final_response, a'))
    /\ submitted (tool_server a')
       = submitted (tool_server (new_agent delete_server 5 None)) ++ new
    /\ Forall (runs_with_leave (new_agent delete_server 5 None)) new.
Proof.
  do 2 eexists.
  match goal with
  | |- exists _, ?P /\ _ => assert (Hp : P) by (vm_compute; reflexivity)
  end.
  destruct (X16_no_gated_action_without_approval deleting_model
              (new_agent delete_server 5 None) (U "clean up") _ _ Hp)
    as (new & Hsub & Hall & _).
  exists new. split; [exact Hp|]. split; [exact Hsub|exact Hall].
Defined.

(** X17. A failure of the model gateway on the first call ends the
    turn with a message for the user that quotes the failure: [process]
    returns it, stores it as the assistant's message after the user's,
    and no tool is touched. *)
Theorem X17_gateway_failure_becomes_a_message w a user_input text :
  0 < max_iterations a ->
  chat w (llm_calls a) (first_window a user_input) = ChatFails text ->
  exists a',
    process w a user_input
    = Ret (Some (U "I encountered an error communicating with the AI model: "
                 ++ text, a'))
    /\ tool_server a' = tool_server a
    /\ llm_calls a' = S (llm_calls a)
    /\ conversation a'
       = conversation a
         ++ [user_message user_input;
             assistant_message
               (U "I encountered an error communicating with the AI model: "
                ++ text)].
Proof.
  intros Hbudget Hchat. rewrite process_unfold. cbv zeta.
  cbn [agent_loop]. cbn [agent add_message update_agent max_iterations
                         iterations].
  destruct (Z.ltb_spec 0 (max_iterations a)); [|lia].
  unfold loop_body. cbv zeta.
  cbn [agent messages add_message update_agent llm_calls].
  unfold llm_chat. rewrite Hchat. simpl.
  eexists. split; [reflexivity|]. simpl. rewrite <- app_assoc. done.
Qed.

Lemma X17_gateway_failure_becomes_a_message_witness :
  exists a',
    process unreachable_model (new_agent echo_server 3 None) (U "hi")
    = Ret (Some (U "I encountered an error communicating with the AI model: "
                 ++ U "LLM request timed out", a'))
    /\ tool_server a' = echo_server
    /\ llm_calls a' = 1%nat.
Proof.
  destruct (X17_gateway_failure_becomes_a_message unreachable_model
              (new_agent echo_server 3 None) (U "hi")
              (U "LLM request timed out") ltac:(simpl; lia) eq_refl)
    as (a' & Hp & Hsrv & Hcalls & _).
  exists a'. split; [exact Hp|]. split; [exact Hsrv|exact Hcalls].
Defined.

(** X18. When the first reply of the model carries no tool call, the
    turn ends there: one model call, no tool touched, and the response is
    the cleaned reply, or ["Done!"] when fewer than five characters of it
    remain; it is stored as the assistant's message. *)
Theorem X18_plain_reply_is_the_answer w a user_input reply :
  0 < max_iterations a ->
  chat w (llm_calls a) (first_window a user_input) = Reply reply ->
  _parse_tool_call (recursion_spare w) (uuid4 w (llm_calls a)) reply
  = Ret None ->
  let final := if (length (_clean_response reply) <? 5)%nat then U "Done!"
               else _clean_response reply in
  exists a',
    process w a user_input = Ret (Some (final, a'))
    /\ tool_server a' = tool_server a
    /\ llm_calls a' = S (llm_calls a)
    /\ conversation a'
       = conversation a ++ [user_message user_input; assistant_message final]
    /\ (5 <= length final)%nat.
Proof.
  intros Hbudget Hchat Hparse final. rewrite process_unfold. cbv zeta.
  cbn [agent_loop]. cbn [agent add_message update_agent max_iterations
                         iterations].
  destruct (Z.ltb_spec 0 (max_iterations a)); [|lia].
  unfold loop_body. cbv zeta.
  cbn [agent messages add_message update_agent llm_calls].
  unfold llm_chat. rewrite Hchat, Hparse. cbn [bind].
  fold final.
  assert (Hlen : (5 <= length final)%nat).
  { unfold final. destruct (Nat.ltb_spec (length (_clean_response reply)) 5);
      [vm_compute; lia|done]. }
  assert (Hne : nonempty final = true)
    by (destruct final; [simpl in Hlen; lia|done]).
  rewrite Hne. eexists. split; [reflexivity|]. simpl.
  rewrite <- app_assoc. done.
Qed.

Lemma X18_plain_reply_is_the_answer_witness :
  exists a',
    process (always (U "ok")) (new_agent echo_server 3 None) (U "hi")
    = Ret (Some (U "Done!", a'))
    /\ tool_server a' = echo_server
    /\ llm_calls a' = 1%nat.
Proof.
  destruct (X18_plain_reply_is_the_answer (always (U "ok"))
              (new_agent echo_server 3 None) (U "hi") (U "ok")
              ltac:(simpl; lia) eq_refl ltac:(vm_compute; reflexivity))
    as (a' & Hp & Hsrv & Hcalls & _).
  exists a'. split; [exact Hp|]. split; [exact Hsrv|exact Hcalls].
Defined.

(** X19. With a budget of zero or less the model is never called:
    [process] stores the user's message, returns the empty string, and
    stores no answer. *)
Theorem X19_no_budget_no_call w a user_input :
  max_iterations a <= 0 ->
  process w a user_input
  = Ret (Some ([], add_message (user_message user_input) a)).
Proof.
  intros Hbudget. rewrite process_unfold. cbv zeta. cbn [agent_loop].
  cbn [agent add_message update_agent max_iterations iterations].
  destruct (Z.ltb_spec 0 (max_iterations a)); [lia|]. reflexivity.
Qed.

Lemma X19_no_budget_no_call_witness :
  process (always reply_echo) (new_agent echo_server 0 None) (U "hi")
  = Ret (Some ([], add_message (user_message (U "hi"))
                     (new_agent echo_server 0 None))).
Proof.
  apply (X19_no_budget_no_call (always reply_echo)
           (new_agent echo_server 0 None) (U "hi")).
  simpl. lia.
Defined.

(** X20. [process] only appends to the conversation: what was there
    stays, in its order, followed by the user's message and whatever the
    turn adds. *)
Theorem X20_conversation_is_append_only w a user_input final_response a' :
  process w a user_input = Ret (Some (final_response, a')) ->
  exists added,
    conversation a' = conversation a ++ user_message user_input :: added.
Proof.
  rewrite process_unfold. cbv zeta.
  destruct (agent_loop _ _ _) as [[[r a1]|]|e] eqn:Hloop; simpl;
    try discriminate.
  destruct (agent_loop_effects _ _ _ _ _ Hloop)
    as (_ & _ & _ & new & started & added & _ & _ & _ & _ & _ & Hconv).
  simpl in Hconv. intros H.
  destruct (nonempty r); injection H as _ <-; simpl; rewrite Hconv.
  - exists (added ++ [assistant_message r]). by rewrite <- !app_assoc.
  - exists added. by rewrite <- !app_assoc.
Qed.

Lemma X20_conversation_is_append_only_witness :
  exists final_response a' added,
    process (always (U "All good.")) (new_agent echo_server 3 None) (U "hi")
    = Ret (Some (final_response, a'))
    /\ conversation a'
       = conversation (new_agent echo_server 3 None)
         ++ user_message (U "hi") :: added.
Proof.
  do 2 eexists.
  match goal with
  | |- exists _, ?P /\ _ => assert (Hp : P) by (vm_compute; reflexivity)
  end.
  destruct (X20_conversation_is_append_only (always (U "All good."))
              (new_agent echo_server 3 None) (U "hi") _ _ Hp)
    as [added Hconv].
  exists added. split; [exact Hp|exact Hconv].
Defined.

(* --------------------------------------------------------------------- *)

(** X21. Stepping through a plan: after advancing a fresh plan with
    some results, the results are stored in their order, the current
    step is the request at that position, and the plan is complete
    exactly when there are as many results as steps, or more: [advance]
    does not check that a step is left. *)
Theorem X21_plan_stepping requests results :
  let p := fold_left (fun p r => plan_advance r p) results (new_plan requests) in
  plan_results p = results
  /\ current_step p = Z.of_nat (length results)
  /\ steps p = requests
  /\ is_complete p = (length requests <=? length results)%nat
  /\ get_current_step p
     = match nth_error requests (length results) with
       | Some r => Step r
       | None => NoStep
       end.
Proof.
  cbv zeta.
  assert (Hfold : forall p0,
            let p := fold_left (fun p r => plan_advance r p) results p0 in
            plan_results p = plan_results p0 ++ results
            /\ current_step p = current_step p0 + Z.of_nat (length results)
            /\ steps p = steps p0).
  { induction results as [|r rs IH]; intros p0; cbv zeta.
    - simpl. rewrite app_nil_r. repeat split; lia.
    - cbn [fold_left]. destruct (IH (plan_advance r p0)) as (H1 & H2 & H3).
      rewrite H1, H2, H3. simpl. rewrite <- app_assoc.
      repeat split; try done; lia. }
  destruct (Hfold (new_plan requests)) as (H1 & H2 & H3).
  cbn [new_plan plan_results current_step steps app] in H1, H2, H3.
  rewrite Z.add_0_l in H2.
  split; [done|]. split; [done|]. split; [done|].
  assert (Hc : is_complete
                 (fold_left (fun p r => plan_advance r p) results
                    (new_plan requests))
               = (length requests <=? length results)%nat).
  { unfold is_complete. rewrite H2, H3.
    destruct (Nat.leb_spec (length requests) (length results));
      [apply Z.leb_le|apply Z.leb_gt]; lia. }
  split; [exact Hc|].
  unfold get_current_step. rewrite Hc, H2, H3.
  destruct (Nat.leb_spec (length requests) (length results)) as [Hle|Hlt].
  - by rewrite (proj2 (nth_error_None _ _) Hle).
  - cbv zeta.
    destruct (Z.ltb_spec (Z.of_nat (length results)) 0); [lia|].
    destruct (Z.ltb_spec (Z.of_nat (length results)) 0); [lia|].
    rewrite Nat2Z.id.
    destruct (nth_error requests (length results)) eqn:E; [done|].
    apply nth_error_None in E. lia.
Qed.

(* --------------------------------------------------------------------- *)

Lemma sub_from_needs_first_char c p repl s :
  avoids c s = true -> sub_from false (Lit c :: p) repl O s = s.
Proof.
  induction s as [|x s IH]; intros Hs; [done|].
  cbn [avoids forallb] in Hs. apply andb_true_iff in Hs as [Hx Hs].
  cbn [sub_from]. unfold match_at. cbn [rmatch lit_matches].
  apply negb_true_iff in Hx. rewrite N.eqb_sym, Hx. f_equal. by apply IH.
Qed.

Lemma blank_lines_match s m :
  match_at false clean_blank_lines s = Some m ->
  exists b, s = 10%N :: 10%N :: 10%N :: b.
Proof.
  unfold match_at, clean_blank_lines. cbn [rmatch].
  destruct s as [|x1 [|x2 [|x3 b]]]; cbn [rep_match in_charset lit_matches
                                          Nat.leb];
    repeat match goal with
           | |- context [(10 =? ?x)%N] =>
               destruct (N.eqb_spec 10 x); [subst x|]
           end; try discriminate.
  intros _. by exists b.
Qed.

Lemma sub_from_blank_lines s :
  (forall a b, s <> a ++ 10%N :: 10%N :: 10%N :: b) ->
  sub_from false clean_blank_lines [10%N; 10%N] O s = s.
Proof.
  induction s as [|x s IH]; intros Hs; [done|].
  cbn [sub_from].
  destruct (match_at false clean_blank_lines (x :: s)) as [m|] eqn:Hm.
  - apply blank_lines_match in Hm as [b Hb]. by destruct (Hs [] b).
  - f_equal. apply IH. intros a b ->. by apply (Hs (x :: a) b).
Qed.

(** X22. [_clean_response] only strips a plain reply: a text without
    the characters [<], backquote and [{], and without three newlines in
    a row, comes back with the whitespace at its ends removed and is
    otherwise unchanged. *)
Theorem X22_plain_reply_is_only_stripped text :
  avoids 60 text = true -> avoids 96 text = true -> avoids 123 text = true ->
  (forall a b, text <> a ++ 10%N :: 10%N :: 10%N :: b) ->
  _clean_response text = strip text.
Proof.
  intros Hlt Hbq Hbrace Hlines. unfold _clean_response, re_sub. cbv zeta.
  change clean_python_block with (Lit 60%N :: tl clean_python_block).
  rewrite sub_from_needs_first_char by done.
  change (clean_fenced_object "json")
    with (Lit 96%N :: tl (clean_fenced_object "json")).
  rewrite sub_from_needs_first_char by done.
  change (clean_fenced_object "")
    with (Lit 96%N :: tl (clean_fenced_object "")).
  rewrite sub_from_needs_first_char by done.
  change clean_bare_object with (Lit 123%N :: tl clean_bare_object).
  rewrite sub_from_needs_first_char by done.
  by rewrite sub_from_blank_lines.
Qed.

Lemma X22_plain_reply_is_only_stripped_witness :
  _clean_response (U "  The file is gone. ") = U "The file is gone.".
Proof.
  rewrite (X22_plain_reply_is_only_stripped (U "  The file is gone. "));
    [reflexivity|reflexivity|reflexivity|reflexivity|].
  intros a b H.
  assert (Hin : In 10%N (U "  The file is gone. "))
    by (rewrite H; apply in_or_app; right; left; reflexivity).
  vm_compute in Hin. intuition discriminate.
Defined.

(* --------------------------------------------------------------------- *)

(** X24. What the extractor raises on a reply of the model is taken for
    a failure of the model call: [process] does not raise, the turn ends
    with the sentence for a communication error followed by the text of
    the exception, that is the stored answer, and no tool is touched. So
    a reply whose first candidate holds an integer of 4301 digits ends
    the turn with the interpreter's message about the digit limit,
    whatever tool call follows in the reply. *)
Theorem X24_extractor_exception_becomes_a_message w a user_input reply e :
  0 < max_iterations a ->
  chat w (llm_calls a) (first_window a user_input) = Reply reply ->
  _parse_tool_call (recursion_spare w) (uuid4 w (llm_calls a)) reply
  = Raise e ->
  exists a',
    process w a user_input
    = Ret (Some (U "I encountered an error communicating with the AI model: "
                 ++ exn_text e, a'))
    /\ tool_server a' = tool_server a
    /\ llm_calls a' = S (llm_calls a)
    /\ conversation a'
       = conversation a
         ++ [user_message user_input;
             assistant_message
               (U "I encountered an error communicating with the AI model: "
                ++ exn_text e)].
Proof.
  intros Hbudget Hchat Hparse. rewrite process_unfold. cbv zeta.
  cbn [agent_loop]. cbn [agent add_message update_agent max_iterations
                         iterations].
  destruct (Z.ltb_spec 0 (max_iterations a)); [|lia].
  unfold loop_body. cbv zeta.
  cbn [agent messages add_message update_agent llm_calls].
  unfold llm_chat. rewrite Hchat, Hparse. cbn [bind].
  eexists. split; [reflexivity|]. simpl. rewrite <- app_assoc. done.
Qed.

Lemma X24_extractor_exception_becomes_a_message_witness :
  exists a',
    process (always long_integer_reply) (new_agent echo_server 3 None)
      (U "hi")
    = Ret (Some (U "I encountered an error communicating with the AI model: "
                 ++ U "Exceeds the limit (4300 digits) for integer string conversion: value has 4301 digits; use sys.set_int_max_str_digits() to increase the limit",
                 a'))
    /\ tool_server a' = echo_server
    /\ llm_calls a' = 1%nat.
Proof.
  destruct (X24_extractor_exception_becomes_a_message
              (always long_integer_reply)
              (new_agent echo_server 3 None) (U "hi") long_integer_reply
              (ValueError_int_digits (N.to_nat 4301))
              ltac:(simpl; lia) eq_refl ltac:(vm_compute; reflexivity))
    as (a' & Hp & Hsrv & Hcalls & _).
  exists a'. split; [exact Hp|]. split; [exact Hsrv|exact Hcalls].
Defined.
